(** * gha-runner-autoscaler-controller: capacity to allocation pipeline

    A shallow embedding of the controller's Go code: the quantity parser
    and resource extractor (internal/controller/resources.go), the capacity
    calculator (capacity.go), the two allocators (allocator.go) and one
    reconciliation tick (reconciler.go), with the properties of the
    specification stated and proved over them.

    Go's [int] and [int64] are modelled as [Z] with the two's-complement
    wrap-around written out ([Int64.wrap]); the controller is built for
    64-bit targets, where [int] is 64 bits wide.  Maps (annotations, labels,
    resource lists) are stdpp [gmap]s keyed by strings; a nil Go map reads
    like the empty map. *)

From Stdlib Require Import ZArith List String Ascii Bool Lia Permutation Sorted.
From stdpp Require Import base option gmap strings.

Local Open Scope string_scope.
Local Open Scope list_scope.
Local Open Scope Z_scope.

(** ** Machine integers *)

Module Int64.

Definition min_int : Z := - 2 ^ 63.
Definition max_int : Z := 2 ^ 63 - 1.

Definition in_range (z : Z) : Prop := min_int <= z <= max_int.

(** Two's-complement reduction of a mathematical integer to 64 bits. *)
Definition wrap (z : Z) : Z := (z + 2 ^ 63) mod 2 ^ 64 - 2 ^ 63.

Definition add (a b : Z) : Z := wrap (a + b).
Definition sub (a b : Z) : Z := wrap (a - b).
Definition mul (a b : Z) : Z := wrap (a * b).

(** Go's [/] truncates toward zero.  The divisor is known to be non-zero
    at the call sites that use [quot]; [div] is the checked form, [None]
    standing for the run-time panic on a zero divisor. *)
Definition quot (a b : Z) : Z := wrap (a ÷ b).
Definition div (a b : Z) : option Z :=
  if b =? 0 then None else Some (quot a b).

End Int64.

(** ** Data model (resources.go, allocator.go) *)

(** The per-tick view of one runner set.  The declaration in resources.go
    lists Name, CPUMillis, MemoryBytes, Priority, CurrentMax and
    ConfiguredMax; the allocator and its tests also read [MinRunners], an
    [int] field, which the record therefore carries. *)
Record RunnerSetResources := mkRunnerSetResources {
  Name : string;
  CPUMillis : Z;
  MemoryBytes : Z;
  Priority : Z;
  MinRunners : Z;
  CurrentMax : Z;
  ConfiguredMax : Z
}.

Record RunnerSetAllocation := mkRunnerSetAllocation {
  alloc_Name : string;
  alloc_MaxRunners : Z
}.

(** ** sort.Slice *)

(** [sort.Slice] with comparator [less], as an insertion sort.  The Go
    routine does not promise stability; the two comparators used below
    only tie on elements with equal priority and equal name. *)
Section SortSlice.
Context {A : Type} (less : A -> A -> bool).

Fixpoint insertBy (x : A) (l : list A) : list A :=
  match l with
  | [] => [x]
  | y :: l' => if less y x then y :: insertBy x l' else x :: l
  end.

Definition sortSlice (l : list A) : list A := fold_right insertBy [] l.

End SortSlice.

(** ** Allocator (allocator.go) *)

(** The comparator of both allocators: priority descending, then name
    ascending (Go compares strings bytewise). *)
Definition byPriorityThenName (a b : RunnerSetResources) : bool :=
  if negb (Priority a =? Priority b)
  then Priority b <? Priority a
  else String.ltb (Name a) (Name b).

Definition sortRunnerSets : list RunnerSetResources -> list RunnerSetResources :=
  sortSlice byPriorityThenName.

Definition calculateMaxRunners (rs : RunnerSetResources)
    (availableCPUMillis availableMemoryBytes : Z) : Z :=
  if (CPUMillis rs <=? 0) || (MemoryBytes rs <=? 0) then 0
  else
    let maxByCPU := Int64.quot availableCPUMillis (CPUMillis rs) in
    let maxByMemory := Int64.quot availableMemoryBytes (MemoryBytes rs) in
    Z.max 0 (Z.min maxByMemory maxByCPU).

(** One iteration of the loop of [Allocate]: the slot count of [rs] and
    the capacity left for the sets after it. *)
Definition allocateStep (rs : RunnerSetResources) (remainingCPU remainingMemory : Z)
    : Z * Z * Z :=
  let maxRunners := calculateMaxRunners rs remainingCPU remainingMemory in
  let maxRunners :=
    if (0 <? MinRunners rs) && (maxRunners <? MinRunners rs)
    then MinRunners rs else maxRunners in
  let maxRunners :=
    if (0 <? ConfiguredMax rs) && (ConfiguredMax rs <? maxRunners)
    then ConfiguredMax rs else maxRunners in
  let allocatedCPU := Int64.mul maxRunners (CPUMillis rs) in
  let allocatedMemory := Int64.mul maxRunners (MemoryBytes rs) in
  (maxRunners, Int64.sub remainingCPU allocatedCPU,
               Int64.sub remainingMemory allocatedMemory).

Fixpoint allocateLoop (sorted : list RunnerSetResources)
    (remainingCPU remainingMemory : Z) : list RunnerSetAllocation :=
  match sorted with
  | [] => []
  | rs :: rest =>
      let '(maxRunners, remainingCPU', remainingMemory') :=
        allocateStep rs remainingCPU remainingMemory in
      mkRunnerSetAllocation (Name rs) maxRunners
        :: allocateLoop rest remainingCPU' remainingMemory'
  end.

(** [Allocate] always returns a nil error; only the allocations are kept. *)
Definition Allocate (runnerSets : list RunnerSetResources)
    (availableCPUMillis availableMemoryBytes : Z) : list RunnerSetAllocation :=
  allocateLoop (sortRunnerSets runnerSets) availableCPUMillis availableMemoryBytes.

(** *** Weighted fair share *)

(** A Go run-time panic ends the call; the only one the allocator can
    raise is the integer division by zero. *)
Inductive outcome (A : Type) : Type :=
  | Returns (a : A)
  | PanicDivideByZero.
Arguments Returns {A} a.
Arguments PanicDivideByZero {A}.

Definition obind {A B} (o : outcome A) (k : A -> outcome B) : outcome B :=
  match o with
  | Returns a => k a
  | PanicDivideByZero => PanicDivideByZero
  end.

Definition checkedDiv (a b : Z) : outcome Z :=
  match Int64.div a b with
  | Some q => Returns q
  | None => PanicDivideByZero
  end.

(** The local [allocation] struct of [AllocateFairShare]. *)
Record allocation := mkAllocation {
  runnerSet : RunnerSetResources;
  maxRunners : Z;
  allocatedCPU : Z;
  allocatedMemory : Z;
  cappedByMax : bool
}.

(** [priority := rs.Priority; if priority == 0 { priority = 1 }] *)
Definition priorityWeight (rs : RunnerSetResources) : Z :=
  if Priority rs =? 0 then 1 else Priority rs.

Definition totalPriorityWeight (runnerSets : list RunnerSetResources) : Z :=
  fold_left (fun total rs => Int64.add total (priorityWeight rs)) runnerSets 0.

(** The budget of one set in the first pass:
    [(available * int64(priority)) / int64(totalPriorityWeight)]. *)
Definition share (available : Z) (rs : RunnerSetResources) (total : Z) : outcome Z :=
  checkedDiv (Int64.mul available (priorityWeight rs)) total.

(** One iteration of the first loop.  The state is the slice built so far
    with the running totals [totalAllocatedCPU], [totalAllocatedMemory]. *)
Definition firstPassStep (availableCPUMillis availableMemoryBytes total : Z)
    (st : list allocation * Z * Z) (rs : RunnerSetResources)
    : outcome (list allocation * Z * Z) :=
  let '(allocations, totalAllocatedCPU, totalAllocatedMemory) := st in
  obind (share availableCPUMillis rs total) (fun cpuShare =>
  obind (share availableMemoryBytes rs total) (fun memoryShare =>
    let fit := calculateMaxRunners rs cpuShare memoryShare in
    let capped := (0 <? ConfiguredMax rs) && (ConfiguredMax rs <? fit) in
    let n := if capped then ConfiguredMax rs else fit in
    let allocatedCPU := Int64.mul n (CPUMillis rs) in
    let allocatedMemory := Int64.mul n (MemoryBytes rs) in
    Returns (allocations ++ [mkAllocation rs n allocatedCPU allocatedMemory capped],
             Int64.add totalAllocatedCPU allocatedCPU,
             Int64.add totalAllocatedMemory allocatedMemory))).

Fixpoint firstPass (availableCPUMillis availableMemoryBytes total : Z)
    (runnerSets : list RunnerSetResources) (st : list allocation * Z * Z)
    : outcome (list allocation * Z * Z) :=
  match runnerSets with
  | [] => Returns st
  | rs :: rest =>
      obind (firstPassStep availableCPUMillis availableMemoryBytes total st rs)
            (firstPass availableCPUMillis availableMemoryBytes total rest)
  end.

(** One iteration of the loop that enforces the minimum: the entry is
    rewritten in place, the totals grow by what was added. *)
Definition enforceMinimumStep (st : list allocation * Z * Z) (alloc : allocation)
    : list allocation * Z * Z :=
  let '(allocations, totalAllocatedCPU, totalAllocatedMemory) := st in
  let rs := runnerSet alloc in
  if (0 <? MinRunners rs) && (maxRunners alloc <? MinRunners rs) then
    let additional := Int64.sub (MinRunners rs) (maxRunners alloc) in
    let additionalCPU := Int64.mul additional (CPUMillis rs) in
    let additionalMemory := Int64.mul additional (MemoryBytes rs) in
    (allocations ++ [mkAllocation rs (MinRunners rs)
                       (Int64.add (allocatedCPU alloc) additionalCPU)
                       (Int64.add (allocatedMemory alloc) additionalMemory)
                       (cappedByMax alloc)],
     Int64.add totalAllocatedCPU additionalCPU,
     Int64.add totalAllocatedMemory additionalMemory)
  else (allocations ++ [alloc], totalAllocatedCPU, totalAllocatedMemory).

Definition enforceMinimums (st : list allocation * Z * Z) : list allocation * Z * Z :=
  let '(allocations, totalAllocatedCPU, totalAllocatedMemory) := st in
  fold_left enforceMinimumStep allocations ([], totalAllocatedCPU, totalAllocatedMemory).

(** [allocations[j] = *alloc] for the first [j] whose runner set has the
    name of [alloc]'s. *)
Fixpoint updateOriginal (alloc : allocation) (allocations : list allocation)
    : list allocation :=
  match allocations with
  | [] => []
  | a :: rest =>
      if String.eqb (Name (runnerSet a)) (Name (runnerSet alloc))
      then alloc :: rest
      else a :: updateOriginal alloc rest
  end.

(** One iteration of the redistribution loop over the sorted copy.  The
    state is the original slice and the capacity still unclaimed. *)
Definition redistributeStep (st : list allocation * Z * Z) (alloc : allocation)
    : list allocation * Z * Z :=
  let '(allocations, remainingCPU, remainingMemory) := st in
  let rs := runnerSet alloc in
  if (0 <? ConfiguredMax rs) && (ConfiguredMax rs <=? maxRunners alloc) then st
  else
    let additionalRunners := calculateMaxRunners rs remainingCPU remainingMemory in
    if additionalRunners =? 0 then st
    else
      let maxAdditional :=
        if 0 <? ConfiguredMax rs
        then Z.min additionalRunners (Int64.sub (ConfiguredMax rs) (maxRunners alloc))
        else additionalRunners in
      if 0 <? maxAdditional then
        let additionalCPU := Int64.mul maxAdditional (CPUMillis rs) in
        let additionalMemory := Int64.mul maxAdditional (MemoryBytes rs) in
        let alloc' :=
          mkAllocation rs (Int64.add (maxRunners alloc) maxAdditional)
            (Int64.add (allocatedCPU alloc) additionalCPU)
            (Int64.add (allocatedMemory alloc) additionalMemory)
            (cappedByMax alloc) in
        (updateOriginal alloc' allocations,
         Int64.sub remainingCPU additionalCPU,
         Int64.sub remainingMemory additionalMemory)
      else st.

Definition byAllocationPriority (a b : allocation) : bool :=
  byPriorityThenName (runnerSet a) (runnerSet b).

Definition redistribute (allocations : list allocation)
    (remainingCPU remainingMemory : Z) : list allocation :=
  if (0 <? remainingCPU) || (0 <? remainingMemory) then
    fst (fst (fold_left redistributeStep (sortSlice byAllocationPriority allocations)
                (allocations, remainingCPU, remainingMemory)))
  else allocations.

Definition toResult (alloc : allocation) : RunnerSetAllocation :=
  mkRunnerSetAllocation (Name (runnerSet alloc)) (maxRunners alloc).

Definition AllocateFairShare (runnerSets : list RunnerSetResources)
    (availableCPUMillis availableMemoryBytes : Z)
    : outcome (list RunnerSetAllocation) :=
  match runnerSets with
  | [] => Returns []
  | _ =>
      let total := totalPriorityWeight runnerSets in
      obind (firstPass availableCPUMillis availableMemoryBytes total runnerSets ([], 0, 0))
        (fun first =>
          let '(allocations, totalAllocatedCPU, totalAllocatedMemory) :=
            enforceMinimums first in
          let remainingCPU := Int64.sub availableCPUMillis totalAllocatedCPU in
          let remainingMemory := Int64.sub availableMemoryBytes totalAllocatedMemory in
          Returns (map toResult (redistribute allocations remainingCPU remainingMemory)))
  end.

Definition Gi : Z := 1024 * 1024 * 1024.

(** ** Errors *)

(** The controller builds its errors with [fmt.Errorf]; one constructor per
    call site, the wrapped cause kept where [%w] wraps one. *)
Inductive error : Type :=
  | ErrNotEnabled                          (* autoscaling not enabled *)
  | ErrInvalidPriority                     (* invalid priority annotation *)
  | ErrInvalidResourceValue (value : string) (* invalid resource value %q *)
  | ErrInvalidCPUAnnotation (cause : error)
  | ErrNoCPURequest                        (* no CPU request found in runner container *)
  | ErrCPUNotSpecified (cause : error)
  | ErrInvalidMemoryAnnotation (cause : error)
  | ErrNoMemoryRequest
  | ErrMemoryNotSpecified (cause : error)
  | ErrListNodes
  | ErrListPods
  | ErrListRunnerSets
  | ErrClusterCapacity (cause : error)     (* failed to get cluster capacity *)
  | ErrCurrentUsage (cause : error)        (* failed to get current usage *)
  | ErrCalculateCapacity (cause : error)   (* failed to calculate capacity *)
  | ErrListingRunnerSets (cause : error)   (* failed to list runner sets *)
  | ErrPatch.                              (* failed to patch AutoscalingRunnerSet *)

Inductive result (A : Type) : Type :=
  | Ok (a : A)
  | Err (e : error).
Arguments Ok {A} a.
Arguments Err {A} e.

(** ** Library parsers (strconv, k8s.io/apimachinery resource) *)

Definition isDigit (c : ascii) : bool :=
  let n := N_of_ascii c in ((48 <=? n) && (n <=? 57))%N.

Definition digitValue (c : ascii) : Z := Z.of_N (N_of_ascii c) - 48.

(** The value of a string of decimal digits; [None] on any other byte. *)
Fixpoint parseDigits (s : string) (acc : Z) : option Z :=
  match s with
  | EmptyString => Some acc
  | String c s' =>
      if isDigit c then parseDigits s' (10 * acc + digitValue c) else None
  end.

Definition parseUnsigned (s : string) : option Z :=
  match s with
  | EmptyString => None
  | _ => parseDigits s 0
  end.

Definition splitSign (s : string) : bool * string :=
  match s with
  | String "+" rest => (false, rest)
  | String "-" rest => (true, rest)
  | _ => (false, s)
  end.

(** [strconv.ParseInt(s, 10, 64)]: an optional sign and at least one
    decimal digit, nothing else; [None] is any non-nil error, which
    includes a value outside of int64. *)
Definition ParseInt (s : string) : option Z :=
  let '(neg, body) := splitSign s in
  match parseUnsigned body with
  | None => None
  | Some un =>
      let n := if neg then - un else un in
      if (Int64.min_int <=? n) && (n <=? Int64.max_int) then Some n else None
  end.

(** [strconv.Atoi] is [ParseInt(s, 10, 0)] converted to [int]. *)
Definition Atoi (s : string) : option Z := ParseInt s.

(** A [resource.Quantity]: the exact decimal number
    [unscaled / 10 ^ scale]. *)
Record Quantity := mkQuantity {
  unscaled : Z;
  scale : N
}.

Definition zeroQuantity : Quantity := mkQuantity 0 0.

(** Division rounding away from zero, the rounding of [Value] and
    [MilliValue]; [d] is positive. *)
Definition roundUp (n d : Z) : Z :=
  let q := n ÷ d in
  if Z.rem n d =? 0 then q else if 0 <? n then q + 1 else q - 1.

(** [Value] and [MilliValue] give the exact number: the quantity, and a
    thousand times the quantity, rounded away from zero.  This is the
    int64 the library returns whenever that number lies within int64;
    what the library returns beyond (its documentation only says that
    [MilliValue] "could overflow an int64") is outside of this model, and
    the statements below that depend on the value are stated within
    int64. *)
Definition Value (q : Quantity) : Z :=
  roundUp (unscaled q) (10 ^ Z.of_N (scale q)).

Definition MilliValue (q : Quantity) : Z :=
  roundUp (unscaled q * 1000) (10 ^ Z.of_N (scale q)).

(** The leading decimal digits of a string and what follows them. *)
Fixpoint spanDigits (s : string) : string * string :=
  match s with
  | EmptyString => (EmptyString, EmptyString)
  | String c s' =>
      if isDigit c
      then let '(ds, rest) := spanDigits s' in (String c ds, rest)
      else (EmptyString, s)
  end.

(** The factor a suffix stands for, as [(numerator, decimal exponent of
    the denominator)]: binary SI, decimal SI, or a decimal exponent. *)
Definition suffixFactor (suffix : string) : option (Z * N) :=
  match suffix with
  | "" => Some (1, 0%N)
  | "n" => Some (1, 9%N)
  | "u" => Some (1, 6%N)
  | "m" => Some (1, 3%N)
  | "k" => Some (10 ^ 3, 0%N)
  | "M" => Some (10 ^ 6, 0%N)
  | "G" => Some (10 ^ 9, 0%N)
  | "T" => Some (10 ^ 12, 0%N)
  | "P" => Some (10 ^ 15, 0%N)
  | "E" => Some (10 ^ 18, 0%N)
  | "Ki" => Some (1024, 0%N)
  | "Mi" => Some (1024 ^ 2, 0%N)
  | "Gi" => Some (1024 ^ 3, 0%N)
  | "Ti" => Some (1024 ^ 4, 0%N)
  | "Pi" => Some (1024 ^ 5, 0%N)
  | "Ei" => Some (1024 ^ 6, 0%N)
  | String c rest =>
      if (Ascii.eqb c "e" || Ascii.eqb c "E")%bool then
        match ParseInt rest with
        | Some e => if 0 <=? e then Some (10 ^ e, 0%N) else Some (1, Z.to_N (- e))
        | None => None
        end
      else None
  end.

(** [resource.ParseQuantity] on the notation the library documents:
    [<sign>? <digits> (. <digits>?)? <suffix>] with at least one digit.
    The result is exact; the library's rounding of amounts below a nano
    and its cap at the largest int64 are outside of this model. *)
Definition ParseQuantity (s : string) : option Quantity :=
  let '(neg, body) := splitSign s in
  let '(whole, rest) := spanDigits body in
  let '(frac, suffix) :=
    match rest with
    | String "." rest' => spanDigits rest'
    | _ => (EmptyString, rest)
    end in
  match (whole ++ frac)%string with
  | EmptyString => None
  | digits =>
      match parseDigits digits 0, suffixFactor suffix with
      | Some mantissa, Some (factor, e) =>
          let n := mantissa * factor in
          Some (mkQuantity (if neg then - n else n)
                           (N.of_nat (String.length frac) + e))
      | _, _ => None
      end
  end.

(** ** Resource extractor (resources.go) *)

(** config.go *)
Definition AnnotationEnabled : string := "kula.app/gha-runner-autoscaler-enabled".
Definition AnnotationCPU : string := "kula.app/gha-runner-autoscaler-cpu".
Definition AnnotationMemory : string := "kula.app/gha-runner-autoscaler-memory".
Definition AnnotationPriority : string := "kula.app/gha-runner-autoscaler-priority".

Record Container := mkContainer {
  container_Name : string;
  Requests : gmap string Quantity
}.

(** The fields of an [AutoscalingRunnerSet] the controller reads:
    metadata (namespace, name, annotations), [Spec.MaxRunners] (a [*int]),
    the containers of the pod template and [Status.CurrentRunners]. *)
Record AutoscalingRunnerSet := mkAutoscalingRunnerSet {
  ars_Namespace : string;
  ars_Name : string;
  Annotations : gmap string string;
  Spec_MaxRunners : option Z;
  Spec_Containers : list Container;
  Status_CurrentRunners : Z
}.

Definition parseResourceQuantityOrInt (value : string) (isCPU : bool) : result Z :=
  match ParseInt value with
  | Some intVal => Ok intVal
  | None =>
      match ParseQuantity value with
      | None => Err (ErrInvalidResourceValue value)
      | Some q => if isCPU then Ok (MilliValue q) else Ok (Value q)
      end
  end.

Definition parseCPU (q : Quantity) : result Z := Ok (MilliValue q).
Definition parseMemory (q : Quantity) : result Z := Ok (Value q).

Fixpoint extractFromContainers (resourceName : string)
    (parse : Quantity -> result Z) (notFound : error)
    (containers : list Container) : result Z :=
  match containers with
  | [] => Err notFound
  | container :: rest =>
      if String.eqb (container_Name container) "runner" then
        match Requests container !! resourceName with
        | Some q => parse q
        | None => extractFromContainers resourceName parse notFound rest
        end
      else extractFromContainers resourceName parse notFound rest
  end.

Definition extractCPUFromPodSpec (rs : AutoscalingRunnerSet) : result Z :=
  extractFromContainers "cpu" parseCPU ErrNoCPURequest (Spec_Containers rs).

Definition extractMemoryFromPodSpec (rs : AutoscalingRunnerSet) : result Z :=
  extractFromContainers "memory" parseMemory ErrNoMemoryRequest (Spec_Containers rs).

Definition wrapErr {A} (wrapper : error -> error) (r : result A) : result A :=
  match r with
  | Ok a => Ok a
  | Err e => Err (wrapper e)
  end.

Definition rbind {A B} (r : result A) (k : A -> result B) : result B :=
  match r with
  | Ok a => k a
  | Err e => Err e
  end.

(** The struct literal of [ExtractRunnerSetResources] names [Name] and
    [Priority] only and no later statement assigns [MinRunners]: the
    field keeps Go's zero value. *)
Definition ExtractRunnerSetResources (rs : AutoscalingRunnerSet)
    : result RunnerSetResources :=
  if negb (String.eqb (default "" (Annotations rs !! AnnotationEnabled)) "true")
  then Err ErrNotEnabled
  else
    let maxRunners := default 0 (Spec_MaxRunners rs) in
    rbind (match Annotations rs !! AnnotationPriority with
           | Some priorityStr =>
               match Atoi priorityStr with
               | Some priority => Ok priority
               | None => Err ErrInvalidPriority
               end
           | None => Ok 0
           end) (fun priority =>
    rbind (match Annotations rs !! AnnotationCPU with
           | Some cpuStr =>
               wrapErr ErrInvalidCPUAnnotation (parseResourceQuantityOrInt cpuStr true)
           | None => wrapErr ErrCPUNotSpecified (extractCPUFromPodSpec rs)
           end) (fun cpu =>
    rbind (match Annotations rs !! AnnotationMemory with
           | Some memStr =>
               wrapErr ErrInvalidMemoryAnnotation (parseResourceQuantityOrInt memStr false)
           | None => wrapErr ErrMemoryNotSpecified (extractMemoryFromPodSpec rs)
           end) (fun mem =>
    Ok {| Name := ars_Name rs;
          CPUMillis := cpu;
          MemoryBytes := mem;
          Priority := priority;
          MinRunners := 0;
          CurrentMax := maxRunners;
          ConfiguredMax := maxRunners |}))).

(** ** Cluster state and API client *)

Record NodeCondition := mkNodeCondition {
  cond_Type : string;
  cond_Status : string
}.

Record Node := mkNode {
  Allocatable : gmap string Quantity;
  Conditions : list NodeCondition
}.

Record Pod := mkPod {
  Phase : string;
  Labels : gmap string string;
  pod_Containers : list Container
}.

Inductive apiCall : Type :=
  | ListNodes
  | ListPods
  | ListRunnerSets (namespace : option string)
  | PatchRunnerSet (namespace name : string).

(** The API server as the controller sees it: the objects it lists and
    patches, and which of its calls come back with an error. *)
Record Client := mkClient {
  Nodes : list Node;
  Pods : list Pod;
  RunnerSets : list AutoscalingRunnerSet;
  fails : apiCall -> bool
}.

(** ** Capacity calculator (capacity.go) *)

Record ClusterCapacity := mkClusterCapacity {
  TotalCPUMillis : Z;
  TotalMemoryBytes : Z;
  UsedCPUMillis : Z;
  UsedMemoryBytes : Z;
  AvailableCPUMillis : Z;
  AvailableMemoryBytes : Z
}.

(** Indexing a [ResourceList] by a missing name gives the zero quantity. *)
Definition resourceOf (l : gmap string Quantity) (resourceName : string) : Quantity :=
  default zeroQuantity (l !! resourceName).

Fixpoint isNodeReady (conditions : list NodeCondition) : bool :=
  match conditions with
  | [] => false
  | condition :: rest =>
      if String.eqb (cond_Type condition) "Ready"
      then String.eqb (cond_Status condition) "True"
      else isNodeReady rest
  end.

Definition isRunnerPod (pod : Pod) : bool :=
  if negb (String.eqb (default "" (Labels pod !! "actions.github.com/scale-set-name")) "")
  then true
  else String.eqb (default "" (Labels pod !! "app.kubernetes.io/component")) "runner".

(** Loop body of [getClusterCapacity]; the state is
    [(totalCPUMillis, totalMemoryBytes, readyNodes)]. *)
Definition addNode (st : Z * Z * Z) (node : Node) : Z * Z * Z :=
  let '(totalCPUMillis, totalMemoryBytes, readyNodes) := st in
  if negb (isNodeReady (Conditions node)) then st
  else (Int64.add totalCPUMillis (MilliValue (resourceOf (Allocatable node) "cpu")),
        Int64.add totalMemoryBytes (Value (resourceOf (Allocatable node) "memory")),
        Int64.add readyNodes 1).

Definition getClusterCapacity (c : Client) : result (Z * Z * Z) :=
  if fails c ListNodes then Err ErrListNodes
  else Ok (fold_left addNode (Nodes c) (0, 0, 0)).

(** The requests of one pod, summed over its containers. *)
Definition podRequests (pod : Pod) : Z * Z :=
  fold_left (fun acc container =>
               (Int64.add (fst acc) (MilliValue (resourceOf (Requests container) "cpu")),
                Int64.add (snd acc) (Value (resourceOf (Requests container) "memory"))))
            (pod_Containers pod) (0, 0).

Record usage := mkUsage {
  totalCPUMillis : Z;
  totalMemoryBytes : Z;
  excludedCPUMillis : Z;
  excludedMemoryBytes : Z;
  countedPods : Z;
  excludedPods : Z
}.

Definition isTerminated (pod : Pod) : bool :=
  String.eqb (Phase pod) "Succeeded" || String.eqb (Phase pod) "Failed".

(** Loop body of [getCurrentUsage]. *)
Definition addPod (u : usage) (pod : Pod) : usage :=
  if isTerminated pod then u
  else
    let '(podCPU, podMemory) := podRequests pod in
    if isRunnerPod pod then
      mkUsage (totalCPUMillis u) (totalMemoryBytes u)
              (Int64.add (excludedCPUMillis u) podCPU)
              (Int64.add (excludedMemoryBytes u) podMemory)
              (countedPods u) (Int64.add (excludedPods u) 1)
    else
      mkUsage (Int64.add (totalCPUMillis u) podCPU)
              (Int64.add (totalMemoryBytes u) podMemory)
              (excludedCPUMillis u) (excludedMemoryBytes u)
              (Int64.add (countedPods u) 1) (excludedPods u).

Definition getCurrentUsage (c : Client) : result usage :=
  if fails c ListPods then Err ErrListPods
  else Ok (fold_left addPod (Pods c) (mkUsage 0 0 0 0 0 0)).

(** [(raw * int64(100 - bufferPercent)) / 100] *)
Definition applyBuffer (rawAvailable bufferPercent : Z) : Z :=
  Int64.quot (Int64.mul rawAvailable (Int64.sub 100 bufferPercent)) 100.

Definition Calculate (cpuBufferPercent memBufferPercent : Z) (c : Client)
    : result ClusterCapacity :=
  rbind (wrapErr ErrClusterCapacity (getClusterCapacity c)) (fun total =>
  let '(totalCPU, totalMemory, _) := total in
  rbind (wrapErr ErrCurrentUsage (getCurrentUsage c)) (fun u =>
  let usedCPU := totalCPUMillis u in
  let usedMemory := totalMemoryBytes u in
  let rawAvailableCPU := Z.max (Int64.sub totalCPU usedCPU) 0 in
  let rawAvailableMemory := Z.max (Int64.sub totalMemory usedMemory) 0 in
  Ok {| TotalCPUMillis := totalCPU;
        TotalMemoryBytes := totalMemory;
        UsedCPUMillis := usedCPU;
        UsedMemoryBytes := usedMemory;
        AvailableCPUMillis := applyBuffer rawAvailableCPU cpuBufferPercent;
        AvailableMemoryBytes := applyBuffer rawAvailableMemory memBufferPercent |})).

(** ** Reconciler (reconciler.go) *)

(** config.Config without the reconcile interval, which only paces the
    loop around [ReconcileOnce]. *)
Record Config := mkConfig {
  CPUBufferPercent : Z;
  MemoryBufferPercent : Z;
  Namespaces : list string;
  DryRun : bool
}.

Definition DefaultConfig : Config := mkConfig 10 10 [] false.

Definition listRunnerSets (cfg : Config) (c : Client)
    : result (list AutoscalingRunnerSet) :=
  match Namespaces cfg with
  | [] =>
      if fails c (ListRunnerSets None) then Err ErrListRunnerSets
      else Ok (RunnerSets c)
  | namespaces =>
      Ok (flat_map
            (fun namespace =>
               if fails c (ListRunnerSets (Some namespace)) then []
               else List.filter (fun rs => String.eqb (ars_Namespace rs) namespace)
                           (RunnerSets c))
            namespaces)
  end.

Definition setMaxRunners (newMaxRunners : Z) (rs : AutoscalingRunnerSet)
    : AutoscalingRunnerSet :=
  mkAutoscalingRunnerSet (ars_Namespace rs) (ars_Name rs) (Annotations rs)
    (Some newMaxRunners) (Spec_Containers rs) (Status_CurrentRunners rs).

(** The merge patch built from the snapshot and its copy only carries
    [spec.maxRunners]; the server applies it to the object of that
    namespace and name. *)
Definition patchObject (namespace name : string) (newMaxRunners : Z)
    (rs : AutoscalingRunnerSet) : AutoscalingRunnerSet :=
  if String.eqb (ars_Namespace rs) namespace && String.eqb (ars_Name rs) name
  then setMaxRunners newMaxRunners rs else rs.

Definition updateRunnerSet (c : Client) (runnerSet : AutoscalingRunnerSet)
    (newMaxRunners : Z) : result Client :=
  if fails c (PatchRunnerSet (ars_Namespace runnerSet) (ars_Name runnerSet))
  then Err ErrPatch
  else Ok (mkClient (Nodes c) (Pods c)
             (map (patchObject (ars_Namespace runnerSet) (ars_Name runnerSet)
                     newMaxRunners) (RunnerSets c))
             (fails c)).

(** Step 3 of the tick: sets whose extraction fails are skipped. *)
Fixpoint extractEnabled (runnerSets : list AutoscalingRunnerSet)
    : list RunnerSetResources :=
  match runnerSets with
  | [] => []
  | rs :: rest =>
      match ExtractRunnerSetResources rs with
      | Ok resources => resources :: extractEnabled rest
      | Err _ => extractEnabled rest
      end
  end.

Fixpoint findRunnerSet (name : string) (runnerSets : list AutoscalingRunnerSet)
    : option AutoscalingRunnerSet :=
  match runnerSets with
  | [] => None
  | rs :: rest =>
      if String.eqb (ars_Name rs) name then Some rs else findRunnerSet name rest
  end.

(** What step 5 does with one allocation, with the values its log line
    carries. *)
Inductive action : Type :=
  | Unchanged      (* maxRunners unchanged *)
  | WouldUpdate    (* dry run: would update maxRunners *)
  | Patched        (* patch sent and accepted *)
  | PatchFailed.   (* patch sent and refused *)

Record decision := mkDecision {
  d_name : string;
  calculated_max : Z;
  old_max : Z;
  currently_running : Z;
  new_max : Z;
  d_action : action
}.

(** Loop body of step 5.  [runnerSets] is the listing of step 2, which
    the patches of this tick do not change. *)
Definition applyAllocation (cfg : Config) (runnerSets : list AutoscalingRunnerSet)
    (st : Client * list decision) (alloc : RunnerSetAllocation)
    : Client * list decision :=
  let '(c, log) := st in
  match findRunnerSet (alloc_Name alloc) runnerSets with
  | None => st
  | Some runnerSet =>
      let currentMax := default 0 (Spec_MaxRunners runnerSet) in
      let currentlyRunning := Status_CurrentRunners runnerSet in
      let newMax :=
        if alloc_MaxRunners alloc <? currentlyRunning
        then currentlyRunning else alloc_MaxRunners alloc in
      let entry := mkDecision (alloc_Name alloc) (alloc_MaxRunners alloc)
                     currentMax currentlyRunning newMax in
      if currentMax =? newMax then (c, log ++ [entry Unchanged])
      else if DryRun cfg then (c, log ++ [entry WouldUpdate])
      else
        match updateRunnerSet c runnerSet newMax with
        | Err _ => (c, log ++ [entry PatchFailed])
        | Ok c' => (c', log ++ [entry Patched])
        end
  end.

(** One reconciliation tick: the error it returns, if any, the cluster
    after it, and the decisions of step 5 in the order they were taken. *)
Definition ReconcileOnce (cfg : Config) (c : Client)
    : option error * Client * list decision :=
  match wrapErr ErrCalculateCapacity
          (Calculate (CPUBufferPercent cfg) (MemoryBufferPercent cfg) c) with
  | Err e => (Some e, c, [])
  | Ok capacity =>
      match wrapErr ErrListingRunnerSets (listRunnerSets cfg c) with
      | Err e => (Some e, c, [])
      | Ok [] => (None, c, [])
      | Ok runnerSets =>
          match extractEnabled runnerSets with
          | [] => (None, c, [])
          | enabledRunnerSets =>
              let allocations :=
                Allocate enabledRunnerSets (AvailableCPUMillis capacity)
                         (AvailableMemoryBytes capacity) in
              let '(c', log) :=
                fold_left (applyAllocation cfg runnerSets) allocations (c, []) in
              (None, c', log)
          end
      end
  end.

Definition isPatchCall (d : decision) : bool :=
  match d_action d with
  | Patched | PatchFailed => true
  | Unchanged | WouldUpdate => false
  end.

Definition patchCalls (log : list decision) : nat :=
  length (List.filter isPatchCall log).

(** ** Scenarios of the specification and of the repository's tests *)

Definition noFailure : apiCall -> bool := fun _ => false.

Definition quantity (s : string) : Quantity := default zeroQuantity (ParseQuantity s).

Definition resourceList (cpu memory : string) : gmap string Quantity :=
  {[ "cpu" := quantity cpu; "memory" := quantity memory ]}.

Definition readyNode (cpu memory : string) : Node :=
  mkNode (resourceList cpu memory) [mkNodeCondition "Ready" "True"].

Definition runningPod (cpu memory : string) (labels : gmap string string) : Pod :=
  mkPod "Running" labels [mkContainer "container" (resourceList cpu memory)].

Definition scenarioE : Client :=
  mkClient [readyNode "10000m" "20Gi"]
           [runningPod "2000m" "4Gi" ∅;
            runningPod "1000m" "2Gi"
              {[ "actions.github.com/scale-set-name" := "my-runner-set" ]}]
           [] noFailure.

(** Scenario B of the specification, a case of the allocator's tests. *)
Definition scenarioB_high : RunnerSetResources :=
  mkRunnerSetResources "high" 1000 (2 * Gi) 400 0 0 2.
Definition scenarioB_low : RunnerSetResources :=
  mkRunnerSetResources "low" 1000 (2 * Gi) 100 0 0 20.

(** A set whose minimum lies above its configured maximum. *)
Definition minAboveCap : RunnerSetResources :=
  mkRunnerSetResources "build" 1000 Gi 5 5 3 3.

(** Sets with a negative priority. *)
Definition negativePriority : RunnerSetResources :=
  mkRunnerSetResources "batch" 1000 Gi (-1) 0 0 0.
Definition priorityOne : RunnerSetResources :=
  mkRunnerSetResources "ci" 1000 Gi 1 0 0 0.
Definition priorityThree : RunnerSetResources :=
  mkRunnerSetResources "ci" 1000 Gi 3 0 0 0.

(** What an allocation commits of one resource: the sum of
    [slots * unit cost] over the sets, paired in the order emitted. *)
Fixpoint committed (cost : RunnerSetResources -> Z)
    (sets : list RunnerSetResources) (allocations : list RunnerSetAllocation) : Z :=
  match sets, allocations with
  | rs :: sets', a :: allocations' =>
      alloc_MaxRunners a * cost rs + committed cost sets' allocations'
  | _, _ => 0
  end.

(** The slot count of one step, as a function of the fit. *)
Definition slotsOf (rs : RunnerSetResources) (fit : Z) : Z :=
  let promoted :=
    if (0 <? MinRunners rs) && (fit <? MinRunners rs) then MinRunners rs else fit in
  if (0 <? ConfiguredMax rs) && (ConfiguredMax rs <? promoted)
  then ConfiguredMax rs else promoted.

(** The property of one emitted pair stated for strict-priority allocation. *)
Definition capThenMinimum (rs : RunnerSetResources) (a : RunnerSetAllocation) : Prop :=
  alloc_Name a = Name rs /\
  (0 < ConfiguredMax rs -> ConfiguredMax rs < MinRunners rs ->
   alloc_MaxRunners a = ConfiguredMax rs) /\
  (ConfiguredMax rs <= 0 \/ MinRunners rs <= ConfiguredMax rs ->
   MinRunners rs <= alloc_MaxRunners a).

(** Scenario A of the specification, the first case of the allocator's
    tests. *)
Definition scenarioA : list RunnerSetResources :=
  [mkRunnerSetResources "low-priority" 1000 (2 * Gi) 1 0 0 10;
   mkRunnerSetResources "high-priority" 2000 (4 * Gi) 10 0 0 5;
   mkRunnerSetResources "medium-priority" 1000 (2 * Gi) 5 0 0 8].

(** The key of the minimum-runners annotation, as the annotation guide of
    the repository documents it; config.go declares no constant for it. *)
Definition minRunnersAnnotation : string := "kula.app/gha-runner-autoscaler-min-runners".

Definition withAnnotation (key value : string) (rs : AutoscalingRunnerSet)
    : AutoscalingRunnerSet :=
  mkAutoscalingRunnerSet (ars_Namespace rs) (ars_Name rs)
    (<[ key := value ]> (Annotations rs))
    (Spec_MaxRunners rs) (Spec_Containers rs) (Status_CurrentRunners rs).

(** An enabled runner set with raw CPU and memory annotations. *)
Definition annotatedSet (name : string) (priority : string) (maxRunners : option Z)
    (currentRunners : Z) : AutoscalingRunnerSet :=
  mkAutoscalingRunnerSet "github-arc" name
    {[ AnnotationEnabled := "true";
       AnnotationCPU := "1000m";
       AnnotationMemory := "1Gi";
       AnnotationPriority := priority ]}
    maxRunners [] currentRunners.

(** The formula of the specification for the available capacity, in
    unbounded integers. *)
Definition bufferedAvailable (total used bufferPercent : Z) : Z :=
  Z.max (total - used) 0 * (100 - bufferPercent) ÷ 100.

Definition sumZ (l : list Z) : Z := fold_right Z.add 0 l.

(** The pods that count as used: not terminated and not runner pods. *)
Definition countsAsUsed (pod : Pod) : bool :=
  negb (isTerminated pod) && negb (isRunnerPod pod).

Definition scenarioE_capacity : ClusterCapacity :=
  mkClusterCapacity 10000 (20 * Gi) 2000 (4 * Gi) 7200 15461882265.

(** Scenario C: no capacity at all, and a set with 13 active runners. *)
Definition scenarioC_set : AutoscalingRunnerSet := annotatedSet "x" "0" (Some 20) 13.
Definition scenarioC : Client := mkClient [] [] [scenarioC_set] noFailure.

(** Two sets on one node of 10 cores and 100Gi: "first" has priority 10,
    maxRunners 2 and 5 active runners, "second" has priority 1, no
    maxRunners and no active runner. *)
Definition twoSets : Client :=
  mkClient [readyNode "10000m" "100Gi"] []
           [annotatedSet "first" "10" (Some 2) 5;
            annotatedSet "second" "1" None 0]
           noFailure.

(** The listing and the allocations of a tick, as [ReconcileOnce]
    computes them in steps 1 to 4 (empty when the tick ends early). *)
Definition tickListing (cfg : Config) (c : Client) : list AutoscalingRunnerSet :=
  match listRunnerSets cfg c with
  | Ok runnerSets => runnerSets
  | Err _ => []
  end.

Definition tickAllocations (cfg : Config) (c : Client) : list RunnerSetAllocation :=
  match Calculate (CPUBufferPercent cfg) (MemoryBufferPercent cfg) c with
  | Ok capacity =>
      Allocate (extractEnabled (tickListing cfg c))
               (AvailableCPUMillis capacity) (AvailableMemoryBytes capacity)
  | Err _ => []
  end.

(** A decision of step 5 applies the safety floor to the allocation
    [alloc], for the runner set found under its name in [runnerSets]. *)
Definition floored (runnerSets : list AutoscalingRunnerSet)
    (alloc : RunnerSetAllocation) (d : decision) : Prop :=
  exists runnerSet,
    findRunnerSet (alloc_Name alloc) runnerSets = Some runnerSet /\
    d_name d = alloc_Name alloc /\
    calculated_max d = alloc_MaxRunners alloc /\
    currently_running d = Status_CurrentRunners runnerSet /\
    old_max d = default 0 (Spec_MaxRunners runnerSet) /\
    new_max d = Z.max (alloc_MaxRunners alloc) (Status_CurrentRunners runnerSet) /\
    Status_CurrentRunners runnerSet <= new_max d /\
    (old_max d = new_max d -> d_action d = Unchanged).

Definition isFound (runnerSets : list AutoscalingRunnerSet)
    (alloc : RunnerSetAllocation) : bool :=
  match findRunnerSet (alloc_Name alloc) runnerSets with
  | Some _ => true
  | None => false
  end.

(** The allocation of a tick whose only enabled runner set is [r]. *)
Definition singleAllocation (r : RunnerSetResources) (capacity : ClusterCapacity)
    : RunnerSetAllocation :=
  mkRunnerSetAllocation (Name r)
    (slotsOf r (calculateMaxRunners r (AvailableCPUMillis capacity)
                                      (AvailableMemoryBytes capacity))).

(** The hard cap and the safety floor, as step functions on slot counts. *)
Definition capAt (configuredMax slots : Z) : Z :=
  if (0 <? configuredMax) && (configuredMax <? slots) then configuredMax else slots.

Definition floorAt (currentlyRunning slots : Z) : Z :=
  if slots <? currentlyRunning then currentlyRunning else slots.

(** *** Vocabulary of the further properties *)

(** The order in which [Allocate] serves two runner sets: [a] is served
    no later than [b]. *)
Definition servedBefore (a b : RunnerSetResources) : Prop :=
  byPriorityThenName b a = false.

(** The bounds every strict-priority slot count keeps. *)
Definition withinCap (rs : RunnerSetResources) (a : RunnerSetAllocation) : Prop :=
  alloc_Name a = Name rs /\
  0 <= alloc_MaxRunners a /\
  (0 < ConfiguredMax rs -> alloc_MaxRunners a <= ConfiguredMax rs).

(** allocator.go before minimum runners were introduced: the loop of
    [Allocate] without the step that enforces the minimum. *)
Definition allocateStepWithoutMinimum (rs : RunnerSetResources)
    (remainingCPU remainingMemory : Z) : Z * Z * Z :=
  let maxRunners := calculateMaxRunners rs remainingCPU remainingMemory in
  let maxRunners :=
    if (0 <? ConfiguredMax rs) && (ConfiguredMax rs <? maxRunners)
    then ConfiguredMax rs else maxRunners in
  let allocatedCPU := Int64.mul maxRunners (CPUMillis rs) in
  let allocatedMemory := Int64.mul maxRunners (MemoryBytes rs) in
  (maxRunners, Int64.sub remainingCPU allocatedCPU,
               Int64.sub remainingMemory allocatedMemory).

Fixpoint allocateLoopWithoutMinimum (sorted : list RunnerSetResources)
    (remainingCPU remainingMemory : Z) : list RunnerSetAllocation :=
  match sorted with
  | [] => []
  | rs :: rest =>
      let '(maxRunners, remainingCPU', remainingMemory') :=
        allocateStepWithoutMinimum rs remainingCPU remainingMemory in
      mkRunnerSetAllocation (Name rs) maxRunners
        :: allocateLoopWithoutMinimum rest remainingCPU' remainingMemory'
  end.

Definition AllocateWithoutMinimum (runnerSets : list RunnerSetResources)
    (availableCPUMillis availableMemoryBytes : Z) : list RunnerSetAllocation :=
  allocateLoopWithoutMinimum (sortRunnerSets runnerSets)
    availableCPUMillis availableMemoryBytes.

(** A runner set of one core and 2Gi, for the witnesses. *)
Definition oneCore (name : string) (priority minRunners configuredMax : Z)
    : RunnerSetResources :=
  mkRunnerSetResources name 1000 (2 * Gi) priority minRunners 0 configuredMax.

(** The bounds fair share keeps for a runner set with a configured
    maximum: the slot count lies between the minimum and the larger of
    the maximum and the minimum. *)
Definition cappedBounds (rs : RunnerSetResources) (slots : Z) : Prop :=
  0 < ConfiguredMax rs <= Int64.max_int ->
  0 <= slots <= Z.max (ConfiguredMax rs) (MinRunners rs) /\
  MinRunners rs <= slots.

Definition nameOf (alloc : allocation) : string := Name (runnerSet alloc).

Definition entryWithinBounds (sets : list RunnerSetResources) (a : allocation) : Prop :=
  In (runnerSet a) sets /\ cappedBounds (runnerSet a) (maxRunners a).

(** capacity.go, [ParseCPU] and [ParseMemory]: a quantity string to
    millicores and to bytes.  Their errors wrap the library's.  The
    value is that of [MilliValue] and [Value] above: the int64 the Go
    function returns wherever it lies within int64. *)
Inductive quantityError : Type :=
  | ErrParseCPUQuantity (cpuString : string)      (* failed to parse CPU quantity %q *)
  | ErrParseMemoryQuantity (memString : string).  (* failed to parse memory quantity %q *)

Definition ParseCPU (cpuString : string) : quantityError + Z :=
  match ParseQuantity cpuString with
  | None => inl (ErrParseCPUQuantity cpuString)
  | Some q => inr (MilliValue q)
  end.

Definition ParseMemory (memString : string) : quantityError + Z :=
  match ParseQuantity memString with
  | None => inl (ErrParseMemoryQuantity memString)
  | Some q => inr (Value q)
  end.

(** The value of a result, if it has one. *)
Definition valueOf {E A} (r : E + A) : option A :=
  match r with
  | inr a => Some a
  | inl _ => None
  end.

Definition okValue {A} (r : result A) : option A :=
  match r with
  | Ok a => Some a
  | Err _ => None
  end.

Definition withContainers (containers : list Container) (rs : AutoscalingRunnerSet)
    : AutoscalingRunnerSet :=
  mkAutoscalingRunnerSet (ars_Namespace rs) (ars_Name rs) (Annotations rs)
    (Spec_MaxRunners rs) containers (Status_CurrentRunners rs).

(** A container of the pod template named "runner" that requests the
    resource. *)
Definition runnerRequest (resourceName : string) (container : Container) : bool :=
  String.eqb (container_Name container) "runner"
  && match Requests container !! resourceName with
     | Some _ => true
     | None => false
     end.

(** A runner set configured by its pod template only. *)
Definition templateSet (containers : list Container) : AutoscalingRunnerSet :=
  mkAutoscalingRunnerSet "github-arc" "from-template"
    {[ AnnotationEnabled := "true" ]} (Some 4) containers 0.

Definition nodeReady (node : Node) : bool := isNodeReady (Conditions node).

Definition allocatableCPU (node : Node) : Z :=
  MilliValue (resourceOf (Allocatable node) "cpu").

Definition allocatableMemory (node : Node) : Z :=
  Value (resourceOf (Allocatable node) "memory").

(** Nodes and pods of the witnesses: a node that is not ready, a pod that
    has completed. *)
Definition unreadyNode (cpu memory : string) : Node :=
  mkNode (resourceList cpu memory) [mkNodeCondition "Ready" "Unknown"].

Definition completedPod (cpu memory : string) : Pod :=
  mkPod "Succeeded" ∅ [mkContainer "container" (resourceList cpu memory)].

Definition scenarioE_busy : Client :=
  mkClient [unreadyNode "64" "256Gi"; readyNode "10000m" "20Gi"]
           [completedPod "4" "8Gi";
            runningPod "2000m" "4Gi" ∅;
            runningPod "3" "6Gi" {[ "app.kubernetes.io/component" := "runner" ]}]
           [] noFailure.

Definition withDryRun (dryRun : bool) (cfg : Config) : Config :=
  mkConfig (CPUBufferPercent cfg) (MemoryBufferPercent cfg) (Namespaces cfg) dryRun.

(** What a decision reports: everything but whether the change was
    applied, only logged, or refused by the API server. *)
Definition reported (d : decision) : string * Z * Z * Z * Z * bool :=
  (d_name d, calculated_max d, old_max d, currently_running d, new_max d,
   match d_action d with
   | Unchanged => false
   | _ => true
   end).

(** The calls of a tick whose failure ends it. *)
Definition listingFails (cfg : Config) (c : Client) : bool :=
  fails c ListNodes || fails c ListPods
  || match Namespaces cfg with
     | [] => fails c (ListRunnerSets None)
     | _ => false
     end.

(** A decision has taken effect in the cluster [c]: the runner set of its
    name holds the decided maxRunners there, which is not below the
    runners the set has running. *)
Definition inEffect (c : Client) (d : decision) : Prop :=
  exists rs,
    findRunnerSet (d_name d) (RunnerSets c) = Some rs /\
    default 0 (Spec_MaxRunners rs) = new_max d /\
    Status_CurrentRunners rs = currently_running d /\
    Status_CurrentRunners rs <= default 0 (Spec_MaxRunners rs).

(** What the entries of [AllocateFairShare]'s slice commit of one
    resource. *)
Definition committedEntries (cost : RunnerSetResources -> Z) (l : list allocation) : Z :=
  sumZ (map (fun a => maxRunners a * cost (runnerSet a)) l).

(** An entry whose cost terms are not negative. *)
Definition soundEntry (a : allocation) : Prop :=
  0 <= maxRunners a /\
  0 <= maxRunners a * CPUMillis (runnerSet a) /\
  0 <= maxRunners a * MemoryBytes (runnerSet a).

(** The entry a redistribution step writes when it adds [k] runners. *)
Definition raised (alloc : allocation) (k : Z) : allocation :=
  mkAllocation (runnerSet alloc)
    (Int64.add (maxRunners alloc) k)
    (Int64.add (allocatedCPU alloc) (Int64.mul k (CPUMillis (runnerSet alloc))))
    (Int64.add (allocatedMemory alloc) (Int64.mul k (MemoryBytes (runnerSet alloc))))
    (cappedByMax alloc).

(** A cluster with runner sets in two namespaces, one of which cannot be
    listed. *)
Definition inNamespace (namespace name : string) : AutoscalingRunnerSet :=
  mkAutoscalingRunnerSet namespace name {[ AnnotationEnabled := "true" ]} None [] 0.

Definition twoNamespaces : Client :=
  mkClient [] []
    [inNamespace "team-a" "a1"; inNamespace "team-b" "b1"; inNamespace "team-a" "a2"]
    (fun call =>
       match call with
       | ListRunnerSets (Some namespace) => String.eqb namespace "team-b"
       | _ => false
       end).

(** ** The reconciliation loop (reconciler.go, Run) *)

(** The error [ctx.Err()] reports once the context is done. *)
Inductive contextError : Type :=
  | Canceled
  | DeadlineExceeded.

(** What the [select] of the loop receives: the ticker fires, or the
    context is done. *)
Inductive loopEvent : Type :=
  | TickerFired
  | ContextDone (err : contextError).

(** The [for] loop of [Run] on the events its [select] receives, in
    order: a tick runs [ReconcileOnce] and drops the error it returns, the
    end of the context returns the context's error.  On a trace without
    [ContextDone] the loop is still waiting and has returned nothing
    ([None]).  The state holds the cluster, which between the ticks
    changes by the patches of [ReconcileOnce] only, and the decisions
    logged so far, tick by tick. *)
Fixpoint runLoop (cfg : Config) (events : list loopEvent)
    (st : Client * list (list decision))
    : option contextError * Client * list (list decision) :=
  match events with
  | [] => (None, fst st, snd st)
  | ContextDone err :: _ => (Some err, fst st, snd st)
  | TickerFired :: rest =>
      let '(_, c', log) := ReconcileOnce cfg (fst st) in
      runLoop cfg rest (c', snd st ++ [log])
  end.

(** [Run]: a first reconciliation at once, then the loop.  The reconcile
    interval is taken to be positive, as [DefaultConfig] and the command
    line make it ([time.NewTicker] panics on any other). *)
Definition Run (cfg : Config) (events : list loopEvent) (c : Client)
    : option contextError * Client * list (list decision) :=
  let '(_, c', log) := ReconcileOnce cfg c in
  runLoop cfg events (c', [log]).

(** The ticks received before the context is done, and the error the
    context then reports. *)
Fixpoint ticksServed (events : list loopEvent) : nat :=
  match events with
  | TickerFired :: rest => S (ticksServed rest)
  | _ => 0%nat
  end.

Fixpoint contextEnd (events : list loopEvent) : option contextError :=
  match events with
  | [] => None
  | ContextDone err :: _ => Some err
  | TickerFired :: rest => contextEnd rest
  end.

(** A decision that did not change the cluster. *)
Definition notPatched (d : decision) : Prop := d_action d <> Patched.

(** ** Vocabulary of the second tick *)

(** [rs'] is the runner set [rs] up to its [Spec.MaxRunners]. *)
Definition sameButMax (rs rs' : AutoscalingRunnerSet) : Prop :=
  ars_Namespace rs' = ars_Namespace rs /\ ars_Name rs' = ars_Name rs /\
  Annotations rs' = Annotations rs /\ Spec_Containers rs' = Spec_Containers rs /\
  Status_CurrentRunners rs' = Status_CurrentRunners rs.

(** [rs'] is what the decisions [log] have made of the listed set [rs]:
    it holds the final value of the decision taken under its name, and it
    is [rs] itself when no decision bears its name. *)
Definition settledBy (log : list decision) (rs rs' : AutoscalingRunnerSet) : Prop :=
  sameButMax rs rs' /\
  (forall d, In d log -> d_name d = ars_Name rs ->
     default 0 (Spec_MaxRunners rs') = new_max d) /\
  ((forall d, In d log -> d_name d <> ars_Name rs) -> rs' = rs).

(** [r1] is what the next tick extracts for the set of [r]: the same
    name, cost and priority, with the final value of the decision taken
    under its name as the configured maximum. *)
Definition recappedBy (log : list decision) (r r1 : RunnerSetResources) : Prop :=
  Name r1 = Name r /\ CPUMillis r1 = CPUMillis r /\ MemoryBytes r1 = MemoryBytes r /\
  Priority r1 = Priority r /\ MinRunners r = 0 /\ MinRunners r1 = 0 /\
  (forall d, In d log -> d_name d = Name r -> ConfiguredMax r1 = new_max d).

(** The patch of a decision, if one was sent, was accepted. *)
Definition patchAccepted (d : decision) : bool :=
  match d_action d with
  | PatchFailed => false
  | _ => true
  end.

(** The decision of a set that was not, at once, running more runners
    than its positive maxRunners and allocated all of that maxRunners.
    (Where this fails the safety floor raises the set above the cap that
    bounded its allocation, and the next tick, capped at the raised
    value, can allocate more to it.) *)
Definition notCutWhileOver (d : decision) : bool :=
  (old_max d <=? 0) || (currently_running d <=? old_max d)
  || (calculated_max d <? old_max d).

(** What the second tick allocates to the set of decision [d] floors to
    the final value of [d]. *)
Definition floorsTo (d : decision) (alloc : RunnerSetAllocation) : Prop :=
  alloc_Name alloc = d_name d /\
  Z.max (alloc_MaxRunners alloc) (currently_running d) = new_max d.

(** Three sets on one node of 10 cores and 100Gi: "alpha" (priority 10)
    has no maxRunners and no active runner, "beta" (priority 5) has
    maxRunners 3 and 2 active runners, "gamma" (priority 1) has
    maxRunners 2 and 5 active runners. *)
Definition threeSets : Client :=
  mkClient [readyNode "10000m" "100Gi"] []
           [annotatedSet "gamma" "1" (Some 2) 5;
            annotatedSet "alpha" "10" None 0;
            annotatedSet "beta" "5" (Some 3) 2]
           noFailure.

(** * Properties *)

(** ** Machine integers and sorting *)

Lemma wrap_in_range z : Int64.in_range z -> Int64.wrap z = z.
Proof.
  unfold Int64.in_range, Int64.wrap, Int64.min_int, Int64.max_int. intros H.
  rewrite Z.mod_small; lia.
Qed.

Lemma wrap_range z : Int64.in_range (Int64.wrap z).
Proof.
  unfold Int64.in_range, Int64.wrap, Int64.min_int, Int64.max_int.
  pose proof (Z.mod_pos_bound (z + 2 ^ 63) (2 ^ 64) ltac:(lia)). lia.
Qed.

Lemma wrap_add_l a b : Int64.wrap (Int64.wrap a + b) = Int64.wrap (a + b).
Proof.
  unfold Int64.wrap.
  replace ((a + 2 ^ 63) mod 2 ^ 64 - 2 ^ 63 + b + 2 ^ 63)
    with ((a + 2 ^ 63) mod 2 ^ 64 + b) by lia.
  replace (a + b + 2 ^ 63) with ((a + 2 ^ 63) + b) by lia.
  rewrite Zplus_mod_idemp_l. reflexivity.
Qed.

Lemma wrap_nonneg_le z bound :
  0 <= z <= bound -> bound <= Int64.max_int -> Int64.wrap z = z.
Proof.
  intros Hz Hb. apply wrap_in_range.
  unfold Int64.in_range, Int64.min_int, Int64.max_int in *. lia.
Qed.

Section SortFacts.
Context {A : Type} (less : A -> A -> bool).

Lemma insertBy_perm x l : Permutation (x :: l) (insertBy less x l).
Proof.
  induction l as [|y l IH]; simpl; [reflexivity|].
  destruct (less y x); [|reflexivity].
  rewrite perm_swap. apply perm_skip, IH.
Qed.

Lemma sortSlice_perm l : Permutation l (sortSlice less l).
Proof.
  induction l as [|x l IH]; simpl; [constructor|].
  rewrite <- insertBy_perm. apply perm_skip, IH.
Qed.
End SortFacts.

(** ** Strict-priority allocation *)

Lemma calculateMaxRunners_nonneg rs cpu mem : 0 <= calculateMaxRunners rs cpu mem.
Proof.
  unfold calculateMaxRunners.
  destruct ((CPUMillis rs <=? 0) || (MemoryBytes rs <=? 0)); lia.
Qed.

Lemma allocateStep_slots rs cpu mem :
  fst (fst (allocateStep rs cpu mem)) = slotsOf rs (calculateMaxRunners rs cpu mem).
Proof. reflexivity. Qed.

Lemma slotsOf_cap_wins rs fit :
  0 < ConfiguredMax rs -> ConfiguredMax rs < MinRunners rs ->
  slotsOf rs fit = ConfiguredMax rs.
Proof.
  intros Hc Hm. unfold slotsOf.
  destruct (0 <? MinRunners rs) eqn:E1; [|apply Z.ltb_ge in E1; lia].
  destruct (fit <? MinRunners rs) eqn:E2; simpl.
  - destruct (0 <? ConfiguredMax rs) eqn:E3; [|apply Z.ltb_ge in E3; lia].
    destruct (ConfiguredMax rs <? MinRunners rs) eqn:E4; [reflexivity|].
    apply Z.ltb_ge in E4; lia.
  - apply Z.ltb_ge in E2.
    destruct (0 <? ConfiguredMax rs) eqn:E3; [|apply Z.ltb_ge in E3; lia].
    destruct (ConfiguredMax rs <? fit) eqn:E4; [reflexivity|].
    apply Z.ltb_ge in E4; lia.
Qed.

Lemma slotsOf_minimum_kept rs fit :
  0 <= fit ->
  ConfiguredMax rs <= 0 \/ MinRunners rs <= ConfiguredMax rs ->
  MinRunners rs <= slotsOf rs fit.
Proof.
  intros Hf H. unfold slotsOf.
  repeat match goal with
         | |- context [?a <? ?b] =>
             let E := fresh "E" in
             destruct (a <? b) eqn:E;
             [apply Z.ltb_lt in E | apply Z.ltb_ge in E]
         end; simpl; lia.
Qed.

Lemma allocateLoop_capThenMinimum sorted cpu mem :
  Forall2 capThenMinimum sorted (allocateLoop sorted cpu mem).
Proof.
  revert cpu mem. induction sorted as [|rs rest IH]; intros cpu mem; simpl.
  - constructor.
  - destruct (allocateStep rs cpu mem) as [[n cpu'] mem'] eqn:E.
    pose proof (allocateStep_slots rs cpu mem) as Hn. rewrite E in Hn. simpl in Hn.
    constructor; [|apply IH].
    unfold capThenMinimum; simpl. subst n. split; [reflexivity|]. split.
    + apply slotsOf_cap_wins.
    + apply slotsOf_minimum_kept, calculateMaxRunners_nonneg.
Qed.

(** C1, as the code has it: [Allocate] emits one allocation per runner
    set, in sorted order, and for a set with [0 < configured_max <
    min_runners] the slot count is exactly [configured_max], because the
    hard cap is applied after the minimum; the minimum is a lower bound of
    the slot count when there is no cap or the minimum does not exceed it. *)
Theorem Allocate_cap_applies_after_minimum sets cpu mem :
  Permutation sets (sortRunnerSets sets) /\
  Forall2 capThenMinimum (sortRunnerSets sets) (Allocate sets cpu mem).
Proof.
  split.
  - apply sortSlice_perm.
  - apply allocateLoop_capThenMinimum.
Qed.

Lemma Allocate_cap_applies_after_minimum_witness :
  0 < ConfiguredMax minAboveCap /\
  ConfiguredMax minAboveCap < MinRunners minAboveCap /\
  Forall2 capThenMinimum [minAboveCap] (Allocate [minAboveCap] 10000 (10 * Gi)).
Proof.
  split; [reflexivity|]. split; [reflexivity|].
  exact (proj2 (Allocate_cap_applies_after_minimum [minAboveCap] 10000 (10 * Gi))).
Defined.

(** C1 as stated fails: a set with minimum 5 and configured maximum 3 is
    given 3 slots, fewer than its minimum, with capacity for 10. *)
Lemma Allocate_minimum_does_not_win :
  0 < ConfiguredMax minAboveCap /\
  ConfiguredMax minAboveCap < MinRunners minAboveCap /\
  Allocate [minAboveCap] 10000 (10 * Gi) = [mkRunnerSetAllocation "build" 3] /\
  ~ (MinRunners minAboveCap <= 3).
Proof. repeat split; try reflexivity. vm_compute. intros H. apply H. reflexivity. Qed.

(** *** Capacity feasibility without minimums *)

Lemma quot_fit_bound avail cost :
  0 <= avail <= Int64.max_int -> 0 < cost ->
  Int64.quot avail cost = avail / cost /\
  0 <= avail / cost /\ (avail / cost) * cost <= avail.
Proof.
  intros Ha Hc. unfold Int64.quot.
  rewrite Z.quot_div_nonneg by lia.
  assert (0 <= avail / cost) by (apply Z.div_pos; lia).
  assert ((avail / cost) * cost <= avail)
    by (rewrite Z.mul_comm; apply Z.mul_div_le; lia).
  assert (avail / cost <= avail) by nia.
  split; [|split]; try assumption.
  apply wrap_nonneg_le with (bound := avail); lia.
Qed.

(** One step with no minimum: the slot count is not negative, what it
    costs is taken from the remaining capacity without overflow, and the
    remaining capacity stays non-negative. *)
Lemma allocateStep_feasible rs cpu mem :
  MinRunners rs = 0 ->
  0 <= cpu <= Int64.max_int -> 0 <= mem <= Int64.max_int ->
  let '(n, cpu', mem') := allocateStep rs cpu mem in
  0 <= n /\
  cpu' = cpu - n * CPUMillis rs /\ 0 <= cpu' <= cpu /\
  mem' = mem - n * MemoryBytes rs /\ 0 <= mem' <= mem.
Proof.
  intros Hmin Hcpu Hmem. unfold allocateStep.
  rewrite Hmin. simpl (0 <? 0). cbv beta iota. simpl andb.
  set (fit := calculateMaxRunners rs cpu mem).
  set (n := if (0 <? ConfiguredMax rs) && (ConfiguredMax rs <? fit)
            then ConfiguredMax rs else fit).
  assert (Hfit : 0 <= fit /\ fit * CPUMillis rs <= cpu /\ fit * MemoryBytes rs <= mem
                 /\ (fit = 0 \/ (0 < CPUMillis rs /\ 0 < MemoryBytes rs))).
  { unfold fit, calculateMaxRunners.
    destruct (CPUMillis rs <=? 0) eqn:E1; simpl; [lia|].
    destruct (MemoryBytes rs <=? 0) eqn:E2; simpl; [lia|].
    apply Z.leb_gt in E1, E2.
    destruct (quot_fit_bound cpu (CPUMillis rs)) as (-> & ? & ?); [lia..|].
    destruct (quot_fit_bound mem (MemoryBytes rs)) as (-> & ? & ?); [lia..|].
    split; [lia|]. split; [nia|]. split; [nia|]. right; lia. }
  destruct Hfit as (Hf0 & HfC & HfM & Hpos).
  assert (Hn : 0 <= n /\ n * CPUMillis rs <= cpu /\ n * MemoryBytes rs <= mem
               /\ 0 <= n * CPUMillis rs /\ 0 <= n * MemoryBytes rs).
  { unfold n.
    destruct (0 <? ConfiguredMax rs) eqn:E1; simpl;
      [apply Z.ltb_lt in E1 | ].
    - destruct (ConfiguredMax rs <? fit) eqn:E2;
        [apply Z.ltb_lt in E2 | ]; destruct Hpos as [Hz | [Hc Hm]]; nia.
    - destruct Hpos as [Hz | [Hc Hm]]; nia. }
  destruct Hn as (Hn0 & HnC & HnM & HC0 & HM0).
  unfold Int64.mul, Int64.sub.
  rewrite (wrap_nonneg_le (n * CPUMillis rs) cpu) by lia.
  rewrite (wrap_nonneg_le (n * MemoryBytes rs) mem) by lia.
  rewrite (wrap_nonneg_le (cpu - n * CPUMillis rs) cpu) by lia.
  rewrite (wrap_nonneg_le (mem - n * MemoryBytes rs) mem) by lia.
  repeat split; lia.
Qed.

Lemma allocateLoop_feasible sorted : forall cpu mem,
  Forall (fun rs => MinRunners rs = 0) sorted ->
  0 <= cpu <= Int64.max_int -> 0 <= mem <= Int64.max_int ->
  committed CPUMillis sorted (allocateLoop sorted cpu mem) <= cpu /\
  committed MemoryBytes sorted (allocateLoop sorted cpu mem) <= mem.
Proof.
  induction sorted as [|rs rest IH]; intros cpu mem Hall Hcpu Hmem;
    cbn [allocateLoop].
  - simpl. lia.
  - inversion Hall as [|? ? Hrs Hrest]; subst.
    pose proof (allocateStep_feasible rs cpu mem Hrs Hcpu Hmem) as Hstep.
    destruct (allocateStep rs cpu mem) as [[n cpu'] mem'].
    destruct Hstep as (Hn & Hc & Hc0 & Hm & Hm0).
    cbn [committed alloc_MaxRunners].
    destruct (IH cpu' mem' Hrest) as [IHc IHm]; lia.
Qed.

(** C3: when no runner set has a minimum and the available CPU and memory
    are not negative, what strict-priority allocation commits, summed over
    the sets, stays within the available CPU and within the available
    memory. *)
Theorem Allocate_capacity_feasible sets cpu mem :
  Forall (fun rs => MinRunners rs = 0) sets ->
  0 <= cpu <= Int64.max_int -> 0 <= mem <= Int64.max_int ->
  committed CPUMillis (sortRunnerSets sets) (Allocate sets cpu mem) <= cpu /\
  committed MemoryBytes (sortRunnerSets sets) (Allocate sets cpu mem) <= mem.
Proof.
  intros Hall Hcpu Hmem. apply allocateLoop_feasible; try assumption.
  eapply Permutation_Forall; [apply sortSlice_perm | exact Hall].
Qed.

Lemma Allocate_capacity_feasible_witness :
  committed CPUMillis (sortRunnerSets scenarioA) (Allocate scenarioA 20000 (40 * Gi))
    <= 20000 /\
  committed MemoryBytes (sortRunnerSets scenarioA) (Allocate scenarioA 20000 (40 * Gi))
    <= 40 * Gi.
Proof.
  apply (Allocate_capacity_feasible scenarioA 20000 (40 * Gi)).
  - repeat constructor.
  - unfold Int64.max_int. lia.
  - unfold Int64.max_int, Gi. lia.
Defined.

(** ** Weighted fair share *)

(** C7: on Scenario B the first pass gives both sets two slots, HIGH
    being capped at its configured maximum of 2 and LOW fitting 2 in its
    fifth of the capacity; redistribution passes over HIGH, which is at
    its cap, and adds 6 to LOW; the allocator returns HIGH = 2, LOW = 8. *)
Theorem AllocateFairShare_scenario_B :
  totalPriorityWeight [scenarioB_high; scenarioB_low] = 500 /\
  firstPass 10000 (20 * Gi) 500 [scenarioB_high; scenarioB_low] ([], 0, 0)
    = Returns ([mkAllocation scenarioB_high 2 2000 (4 * Gi) true;
                mkAllocation scenarioB_low 2 2000 (4 * Gi) false],
               4000, 8 * Gi) /\
  redistributeStep
    ([mkAllocation scenarioB_high 2 2000 (4 * Gi) true;
      mkAllocation scenarioB_low 2 2000 (4 * Gi) false], 6000, 12 * Gi)
    (mkAllocation scenarioB_high 2 2000 (4 * Gi) true)
    = ([mkAllocation scenarioB_high 2 2000 (4 * Gi) true;
        mkAllocation scenarioB_low 2 2000 (4 * Gi) false], 6000, 12 * Gi) /\
  redistribute
    [mkAllocation scenarioB_high 2 2000 (4 * Gi) true;
     mkAllocation scenarioB_low 2 2000 (4 * Gi) false] 6000 (12 * Gi)
    = [mkAllocation scenarioB_high 2 2000 (4 * Gi) true;
       mkAllocation scenarioB_low 8 8000 (16 * Gi) false] /\
  AllocateFairShare [scenarioB_high; scenarioB_low] 10000 (20 * Gi)
    = Returns [mkRunnerSetAllocation "high" 2; mkRunnerSetAllocation "low" 8].
Proof. repeat split; vm_compute; reflexivity. Qed.

(** The division of the first pass has the total weight as its divisor:
    with a total of zero the first set's share already panics. *)
Lemma firstPass_zero_weight cpu mem rs rest st :
  firstPass cpu mem 0 (rs :: rest) st = PanicDivideByZero.
Proof. destruct st as [[l c] m]. reflexivity. Qed.

(** C10: the guard against a zero weight only rewrites a priority that is
    exactly 0, so a negative priority keeps its value as a weight; two
    sets with priorities -1 and 1 have total weight 0, and so has the
    division of the share computation as its divisor: the call panics.
    The same holds of every non-empty list whose weights sum to 0. *)
Theorem AllocateFairShare_divides_by_zero_total :
  (forall a b cpu mem,
     Priority a = -1 -> Priority b = 1 ->
     priorityWeight a = -1 /\
     totalPriorityWeight [a; b] = 0 /\
     share cpu a (totalPriorityWeight [a; b]) = PanicDivideByZero /\
     AllocateFairShare [a; b] cpu mem = PanicDivideByZero) /\
  (forall sets cpu mem,
     sets <> [] -> totalPriorityWeight sets = 0 ->
     AllocateFairShare sets cpu mem = PanicDivideByZero).
Proof.
  assert (Hgen : forall sets cpu mem,
             sets <> [] -> totalPriorityWeight sets = 0 ->
             AllocateFairShare sets cpu mem = PanicDivideByZero).
  { intros sets cpu mem Hne Hz. destruct sets as [|rs rest]; [congruence|].
    unfold AllocateFairShare. rewrite Hz, firstPass_zero_weight. reflexivity. }
  split; [|exact Hgen].
  intros a b cpu mem Ha Hb.
  assert (Hw : priorityWeight a = -1) by (unfold priorityWeight; rewrite Ha; reflexivity).
  assert (Ht : totalPriorityWeight [a; b] = 0).
  { unfold totalPriorityWeight; simpl. rewrite Hw.
    unfold priorityWeight. rewrite Hb. reflexivity. }
  split; [exact Hw|]. split; [exact Ht|]. split.
  - rewrite Ht. reflexivity.
  - apply Hgen; [discriminate | exact Ht].
Qed.

Lemma AllocateFairShare_divides_by_zero_total_witness :
  Priority negativePriority = -1 /\ Priority priorityOne = 1 /\
  AllocateFairShare [negativePriority; priorityOne] 10000 (20 * Gi)
    = PanicDivideByZero.
Proof.
  split; [reflexivity|]. split; [reflexivity|].
  apply (proj1 AllocateFairShare_divides_by_zero_total
           negativePriority priorityOne 10000 (20 * Gi)); reflexivity.
Defined.

(** C4 at a negative priority: the code keeps -1 as the weight where the
    claim has [max (-1) 1 = 1].  With priorities 3 and -1 the total weight
    is 2, not 4, and the first set's share is 15000 of the 10000
    millicores available, not 7500; it is given 15 slots of one core. *)
Theorem AllocateFairShare_negative_priority_weight :
  priorityWeight negativePriority = -1 /\
  Z.max (Priority negativePriority) 1 = 1 /\
  totalPriorityWeight [priorityThree; negativePriority] = 2 /\
  share 10000 priorityThree (totalPriorityWeight [priorityThree; negativePriority])
    = Returns 15000 /\
  10000 * Z.max (Priority priorityThree) 1
    / (Z.max (Priority priorityThree) 1 + Z.max (Priority negativePriority) 1) = 7500 /\
  AllocateFairShare [priorityThree; negativePriority] 10000 (20 * Gi)
    = Returns [mkRunnerSetAllocation "ci" 15; mkRunnerSetAllocation "batch" 0].
Proof. repeat split; vm_compute; reflexivity. Qed.

(** ** Quantity parser *)

Lemma parseResourceQuantityOrInt_error_iff value isCPU :
  (exists e, parseResourceQuantityOrInt value isCPU = Err e) <->
  ParseInt value = None /\ ParseQuantity value = None.
Proof.
  unfold parseResourceQuantityOrInt. split.
  - intros [e He]. destruct (ParseInt value); [discriminate|].
    destruct (ParseQuantity value); [destruct isCPU; discriminate|]. auto.
  - intros [-> ->]. eauto.
Qed.

(** C5: a string that [ParseInt] accepts is returned as that integer for
    CPU and memory alike, so "2" for CPU is 2, although as a quantity it
    is two cores, 2000 millicores; "2000m" for CPU is 2000 and "4Gi" for
    memory is 4 * 1024^3 = 4294967296; the parser fails exactly on the
    strings that are neither an integer nor a quantity, such as
    "invalid". *)
Theorem parseResourceQuantityOrInt_integer_first :
  (forall value isCPU n,
     ParseInt value = Some n -> parseResourceQuantityOrInt value isCPU = Ok n) /\
  parseResourceQuantityOrInt "2" true = Ok 2 /\
  option_map MilliValue (ParseQuantity "2") = Some 2000 /\
  parseResourceQuantityOrInt "2000m" true = Ok 2000 /\
  parseResourceQuantityOrInt "4Gi" false = Ok (4 * 1024 ^ 3) /\
  4 * 1024 ^ 3 = 4294967296 /\
  (forall value isCPU,
     ParseInt value = None -> ParseQuantity value = None ->
     parseResourceQuantityOrInt value isCPU = Err (ErrInvalidResourceValue value)) /\
  parseResourceQuantityOrInt "invalid" true = Err (ErrInvalidResourceValue "invalid").
Proof.
  split.
  { intros value isCPU n H. unfold parseResourceQuantityOrInt. rewrite H. reflexivity. }
  do 5 (split; [vm_compute; reflexivity|]).
  split; [|vm_compute; reflexivity].
  intros value isCPU H1 H2. unfold parseResourceQuantityOrInt. rewrite H1, H2.
  reflexivity.
Qed.

Lemma parseResourceQuantityOrInt_integer_first_witness :
  parseResourceQuantityOrInt "8589934592" false = Ok 8589934592 /\
  parseResourceQuantityOrInt "two" true = Err (ErrInvalidResourceValue "two").
Proof.
  destruct parseResourceQuantityOrInt_integer_first
    as (Hint & _ & _ & _ & _ & _ & Herr & _).
  split.
  - apply Hint. vm_compute. reflexivity.
  - apply Herr; vm_compute; reflexivity.
Defined.

(** ** Resource extractor *)

Lemma ExtractRunnerSetResources_other_annotation key value rs :
  key <> AnnotationEnabled -> key <> AnnotationPriority ->
  key <> AnnotationCPU -> key <> AnnotationMemory ->
  ExtractRunnerSetResources (withAnnotation key value rs)
    = ExtractRunnerSetResources rs.
Proof.
  intros H1 H2 H3 H4. unfold ExtractRunnerSetResources, withAnnotation.
  unfold extractCPUFromPodSpec, extractMemoryFromPodSpec; simpl.
  rewrite !lookup_insert_ne by assumption. reflexivity.
Qed.

(** C9 on the code: the extractor never reads the minimum-runners
    annotation.  Whatever its value, the result is that of the set without
    it; a malformed value does not fail the extraction and a well-formed
    one is not taken over: [MinRunners] is 0 in every result. *)
Theorem ExtractRunnerSetResources_ignores_min_runners :
  (forall value rs,
     ExtractRunnerSetResources (withAnnotation minRunnersAnnotation value rs)
       = ExtractRunnerSetResources rs) /\
  (forall rs resources,
     ExtractRunnerSetResources rs = Ok resources -> MinRunners resources = 0) /\
  ExtractRunnerSetResources
    (withAnnotation minRunnersAnnotation "abc" (annotatedSet "ci" "100" (Some 10) 0))
    = Ok (mkRunnerSetResources "ci" 1000 Gi 100 0 10 10) /\
  ExtractRunnerSetResources
    (withAnnotation minRunnersAnnotation "3" (annotatedSet "ci" "100" (Some 10) 0))
    = Ok (mkRunnerSetResources "ci" 1000 Gi 100 0 10 10).
Proof.
  split; [|split; [|split]].
  - intros value rs.
    apply ExtractRunnerSetResources_other_annotation; discriminate.
  - intros rs resources. unfold ExtractRunnerSetResources, rbind.
    repeat match goal with
           | |- context [match ?x with _ => _ end] => destruct x; try discriminate
           end;
    intros H; inversion H; reflexivity.
  - vm_compute. reflexivity.
  - vm_compute. reflexivity.
Qed.

Lemma ExtractRunnerSetResources_ignores_min_runners_witness :
  MinRunners (mkRunnerSetResources "ci" 1000 Gi 100 0 10 10) = 0.
Proof.
  apply (proj1 (proj2 ExtractRunnerSetResources_ignores_min_runners)
           (annotatedSet "ci" "100" (Some 10) 0)).
  vm_compute. reflexivity.
Defined.

(** ** Capacity calculator *)

(** The loop of [getCurrentUsage] adds to the used totals the requests of
    exactly the pods that are neither terminated nor runner pods. *)
Lemma fold_addPod_used pods : forall u cpu mem,
  totalCPUMillis u = Int64.wrap cpu ->
  totalMemoryBytes u = Int64.wrap mem ->
  totalCPUMillis (fold_left addPod pods u)
    = Int64.wrap (cpu + sumZ (map (fun p => fst (podRequests p))
                                  (List.filter countsAsUsed pods))) /\
  totalMemoryBytes (fold_left addPod pods u)
    = Int64.wrap (mem + sumZ (map (fun p => snd (podRequests p))
                                  (List.filter countsAsUsed pods))).
Proof.
  induction pods as [|pod rest IH]; intros u cpu mem Hc Hm; simpl.
  - rewrite !Z.add_0_r. auto.
  - destruct (isTerminated pod) eqn:Et.
    { replace (countsAsUsed pod) with false by (unfold countsAsUsed; rewrite Et; reflexivity).
      replace (addPod u pod) with u by (unfold addPod; rewrite Et; reflexivity).
      apply IH; assumption. }
    destruct (isRunnerPod pod) eqn:Er.
    { replace (countsAsUsed pod) with false
        by (unfold countsAsUsed; rewrite Et, Er; reflexivity).
      apply IH; unfold addPod; rewrite Et, Er;
        destruct (podRequests pod); simpl; assumption. }
    replace (countsAsUsed pod) with true
      by (unfold countsAsUsed; rewrite Et, Er; reflexivity).
    simpl. rewrite !Z.add_assoc.
    apply IH; unfold addPod; rewrite Et, Er;
      destruct (podRequests pod); simpl; unfold Int64.add.
    + rewrite Hc. apply wrap_add_l.
    + rewrite Hm. apply wrap_add_l.
Qed.

Lemma applyBuffer_exact raw bufferPercent :
  0 <= bufferPercent <= 100 -> 0 <= raw -> 100 * raw <= Int64.max_int ->
  applyBuffer raw bufferPercent = raw * (100 - bufferPercent) ÷ 100.
Proof.
  intros Hb Hr Hmax. unfold applyBuffer, Int64.quot, Int64.mul, Int64.sub.
  rewrite (wrap_nonneg_le (100 - bufferPercent) 100)
    by (unfold Int64.max_int; lia).
  assert (0 <= raw * (100 - bufferPercent) <= 100 * raw) by nia.
  rewrite (wrap_nonneg_le (raw * (100 - bufferPercent)) (100 * raw)) by lia.
  apply (wrap_nonneg_le _ (100 * raw)); [|lia].
  rewrite Z.quot_div_nonneg by lia. split.
  - apply Z.div_pos; lia.
  - transitivity (raw * (100 - bufferPercent)); [|lia].
    apply Z.div_le_upper_bound; lia.
Qed.

Lemma Calculate_shape cpuBuf memBuf c cap :
  Calculate cpuBuf memBuf c = Ok cap ->
  fails c ListPods = false /\
  UsedCPUMillis cap = totalCPUMillis (fold_left addPod (Pods c) (mkUsage 0 0 0 0 0 0)) /\
  UsedMemoryBytes cap = totalMemoryBytes (fold_left addPod (Pods c) (mkUsage 0 0 0 0 0 0)) /\
  AvailableCPUMillis cap
    = applyBuffer (Z.max (Int64.sub (TotalCPUMillis cap) (UsedCPUMillis cap)) 0) cpuBuf /\
  AvailableMemoryBytes cap
    = applyBuffer (Z.max (Int64.sub (TotalMemoryBytes cap) (UsedMemoryBytes cap)) 0) memBuf.
Proof.
  unfold Calculate, getClusterCapacity, getCurrentUsage.
  destruct (fails c ListNodes); simpl; [discriminate|].
  destruct (fold_left addNode (Nodes c) (0, 0, 0)) as [[totalCPU totalMemory] ready].
  destruct (fails c ListPods); simpl; [discriminate|].
  intros H. inversion H; subst; simpl. repeat split; reflexivity.
Qed.

(** C6: [used] is the sum of the requests of the pods that are neither
    terminated nor runner pods; when the totals are in the range where
    the 64-bit arithmetic is exact, the available capacity is
    [max (total - used) 0 * (100 - buffer) / 100] with truncating
    division; on Scenario E the calculator returns 7200 millicores and
    15461882265 bytes, with used = (2000, 4Gi): the runner pod is not
    counted. *)
Theorem Calculate_available cpuBuf memBuf c cap :
  Calculate cpuBuf memBuf c = Ok cap ->
  0 <= cpuBuf <= 100 -> 0 <= memBuf <= 100 ->
  0 <= UsedCPUMillis cap -> 0 <= UsedMemoryBytes cap ->
  0 <= TotalCPUMillis cap -> 0 <= TotalMemoryBytes cap ->
  100 * TotalCPUMillis cap <= Int64.max_int ->
  100 * TotalMemoryBytes cap <= Int64.max_int ->
  UsedCPUMillis cap
    = Int64.wrap (sumZ (map (fun p => fst (podRequests p)) (List.filter countsAsUsed (Pods c)))) /\
  UsedMemoryBytes cap
    = Int64.wrap (sumZ (map (fun p => snd (podRequests p)) (List.filter countsAsUsed (Pods c)))) /\
  AvailableCPUMillis cap
    = bufferedAvailable (TotalCPUMillis cap) (UsedCPUMillis cap) cpuBuf /\
  AvailableMemoryBytes cap
    = bufferedAvailable (TotalMemoryBytes cap) (UsedMemoryBytes cap) memBuf /\
  Calculate 10 10 scenarioE
    = Ok (mkClusterCapacity 10000 (20 * Gi) 2000 (4 * Gi) 7200 15461882265).
Proof.
  intros Hcalc Hcb Hmb Huc Hum Htc Htm Hc100 Hm100.
  destruct (Calculate_shape _ _ _ _ Hcalc) as (_ & HuC & HuM & HaC & HaM).
  destruct (fold_addPod_used (Pods c) (mkUsage 0 0 0 0 0 0) 0 0) as [Hsc Hsm];
    [reflexivity | reflexivity |].
  rewrite Z.add_0_l in Hsc, Hsm.
  split; [congruence|]. split; [congruence|].
  assert (Hsub : forall total used, 0 <= used -> 0 <= total ->
             100 * total <= Int64.max_int -> Int64.in_range used ->
             Z.max (Int64.sub total used) 0 = Z.max (total - used) 0).
  { intros total used H0 H1 H2 H3. unfold Int64.sub.
    destruct (Z_le_gt_dec used total) as [Hle | Hgt].
    - rewrite (wrap_nonneg_le (total - used) total) by lia. reflexivity.
    - assert (Int64.wrap (total - used) = total - used) as ->; [|lia].
      apply wrap_in_range. unfold Int64.in_range, Int64.min_int, Int64.max_int in *. lia. }
  split; [|split].
  - rewrite HaC, Hsub; try assumption.
    + unfold bufferedAvailable. apply applyBuffer_exact; lia.
    + rewrite HuC, Hsc. apply wrap_range.
  - rewrite HaM, Hsub; try assumption.
    + unfold bufferedAvailable. apply applyBuffer_exact; lia.
    + rewrite HuM, Hsm. apply wrap_range.
  - vm_compute. reflexivity.
Qed.

Lemma Calculate_available_witness :
  AvailableCPUMillis scenarioE_capacity = bufferedAvailable 10000 2000 10 /\
  AvailableMemoryBytes scenarioE_capacity = bufferedAvailable (20 * Gi) (4 * Gi) 10.
Proof.
  destruct (Calculate_available 10 10 scenarioE scenarioE_capacity)
    as (_ & _ & Hcpu & Hmem & _).
  - vm_compute. reflexivity.
  - lia.
  - lia.
  - simpl. lia.
  - simpl. unfold Gi. lia.
  - simpl. lia.
  - simpl. unfold Gi. lia.
  - simpl. unfold Int64.max_int. lia.
  - simpl. unfold Int64.max_int, Gi. lia.
  - split; [exact Hcpu | exact Hmem].
Defined.

(** ** Reconciler *)

(** Step 5 on one allocation either skips it, when no runner set has its
    name, or appends one decision that applies the safety floor. *)
Lemma applyAllocation_spec cfg runnerSets c log alloc :
  let '(c', log') := applyAllocation cfg runnerSets (c, log) alloc in
  (isFound runnerSets alloc = false /\ c' = c /\ log' = log) \/
  (isFound runnerSets alloc = true /\
   exists d, log' = log ++ [d] /\ floored runnerSets alloc d /\
             (isPatchCall d = false -> c' = c)).
Proof.
  unfold applyAllocation, isFound.
  destruct (findRunnerSet (alloc_Name alloc) runnerSets) as [rs|] eqn:Efind;
    [|left; auto].
  set (running := Status_CurrentRunners rs).
  set (newMax := if alloc_MaxRunners alloc <? running
                 then running else alloc_MaxRunners alloc).
  assert (HnewMax : newMax = Z.max (alloc_MaxRunners alloc) running /\ running <= newMax).
  { unfold newMax. destruct (alloc_MaxRunners alloc <? running) eqn:E;
      [apply Z.ltb_lt in E | apply Z.ltb_ge in E]; lia. }
  destruct HnewMax as [Hmax Hfloor].
  assert (Hfl : forall act,
             (default 0 (Spec_MaxRunners rs) = newMax -> act = Unchanged) ->
             floored runnerSets alloc
               (mkDecision (alloc_Name alloc) (alloc_MaxRunners alloc)
                  (default 0 (Spec_MaxRunners rs)) running newMax act)).
  { intros act Hact. exists rs. simpl. repeat split; auto. }
  destruct (default 0 (Spec_MaxRunners rs) =? newMax) eqn:Eeq.
  { right. split; [reflexivity|]. eexists. split; [reflexivity|]. split; auto. }
  apply Z.eqb_neq in Eeq.
  destruct (DryRun cfg).
  { right. split; [reflexivity|]. eexists. split; [reflexivity|].
    split; [apply Hfl; intros; contradiction | auto]. }
  destruct (updateRunnerSet c rs newMax) as [c1|e].
  - right. split; [reflexivity|]. eexists. split; [reflexivity|].
    split; [apply Hfl; intros; contradiction | simpl; discriminate].
  - right. split; [reflexivity|]. eexists. split; [reflexivity|].
    split; [apply Hfl; intros; contradiction | auto].
Qed.

(** The log of step 5 lists, in order, one decision for each allocation
    whose runner set is found. *)
Lemma applyAllocations_log cfg runnerSets allocations : forall c log,
  exists ds,
    snd (fold_left (applyAllocation cfg runnerSets) allocations (c, log)) = log ++ ds /\
    Forall2 (floored runnerSets) (List.filter (isFound runnerSets) allocations) ds.
Proof.
  induction allocations as [|alloc rest IH]; intros c log;
    cbn [fold_left List.filter].
  - exists []. rewrite app_nil_r. split; [reflexivity | constructor].
  - pose proof (applyAllocation_spec cfg runnerSets c log alloc) as Hstep.
    destruct (applyAllocation cfg runnerSets (c, log) alloc) as [c' log'].
    destruct Hstep as [(Hnf & -> & ->) | (Hf & d & -> & Hd & _)]; rewrite ?Hnf, ?Hf.
    + apply IH.
    + destruct (IH c' (log ++ [d])) as (ds & Hlog & Hds).
      exists (d :: ds). rewrite Hlog, <- app_assoc. split; [reflexivity|].
      constructor; assumption.
Qed.

Lemma ReconcileOnce_fold cfg c :
  (snd (fst (ReconcileOnce cfg c)), snd (ReconcileOnce cfg c))
    = fold_left (applyAllocation cfg (tickListing cfg c)) (tickAllocations cfg c) (c, []).
Proof.
  unfold ReconcileOnce, tickAllocations, tickListing.
  destruct (Calculate (CPUBufferPercent cfg) (MemoryBufferPercent cfg) c)
    as [capacity|e]; simpl; [|reflexivity].
  destruct (listRunnerSets cfg c) as [[|rs0 rest]|e]; simpl; try reflexivity.
  destruct (ExtractRunnerSetResources rs0) as [r0|e0].
  - destruct (fold_left _ _ _) as [c' log]. reflexivity.
  - destruct (extractEnabled rest) as [|r1 more]; [reflexivity|].
    destruct (fold_left _ _ _) as [c' log]. reflexivity.
Qed.

Lemma ExtractRunnerSetResources_fields rs r :
  ExtractRunnerSetResources rs = Ok r ->
  Name r = ars_Name rs /\ MinRunners r = 0 /\
  CurrentMax r = default 0 (Spec_MaxRunners rs) /\
  ConfiguredMax r = default 0 (Spec_MaxRunners rs).
Proof.
  unfold ExtractRunnerSetResources, rbind.
  repeat match goal with
         | |- context [match ?x with _ => _ end] => destruct x; try discriminate
         end;
  intros H; inversion H; simpl; auto.
Qed.

Lemma extractEnabled_name runnerSets r :
  In r (extractEnabled runnerSets) ->
  exists rs, In rs runnerSets /\ ars_Name rs = Name r.
Proof.
  induction runnerSets as [|rs rest IH]; simpl; [contradiction|].
  destruct (ExtractRunnerSetResources rs) as [r0|e] eqn:E.
  - intros [<- | Hin].
    + exists rs. split; [auto|]. symmetry. apply (ExtractRunnerSetResources_fields _ _ E).
    + destruct (IH Hin) as (rs' & ? & ?). eauto.
  - intros Hin. destruct (IH Hin) as (rs' & ? & ?). eauto.
Qed.

Lemma findRunnerSet_In name runnerSets rs :
  findRunnerSet name runnerSets = Some rs -> In rs runnerSets /\ ars_Name rs = name.
Proof.
  induction runnerSets as [|rs0 rest IH]; simpl; [discriminate|].
  destruct (String.eqb (ars_Name rs0) name) eqn:E.
  - intros H; inversion H; subst. apply String.eqb_eq in E. auto.
  - intros H. destruct (IH H). auto.
Qed.

Lemma findRunnerSet_named name runnerSets rs :
  In rs runnerSets -> ars_Name rs = name ->
  findRunnerSet name runnerSets <> None.
Proof.
  induction runnerSets as [|rs0 rest IH]; simpl; [contradiction|].
  intros [-> | Hin] Hname.
  - rewrite Hname, String.eqb_refl. discriminate.
  - destruct (String.eqb (ars_Name rs0) name); [discriminate | auto].
Qed.

Lemma Allocate_names sets cpu mem a :
  In a (Allocate sets cpu mem) -> exists rs, In rs sets /\ Name rs = alloc_Name a.
Proof.
  intros Hin.
  pose proof (allocateLoop_capThenMinimum (sortRunnerSets sets) cpu mem) as HF.
  fold (Allocate sets cpu mem) in HF.
  assert (Hex : exists rs, In rs (sortRunnerSets sets) /\ Name rs = alloc_Name a).
  { induction HF as [|rs a' l l' [Hname _] _ IH]; [contradiction|].
    destruct Hin as [<- | Hin].
    - exists rs. split; [left; reflexivity | auto].
    - destruct (IH Hin) as (rs' & ? & ?). exists rs'. split; [right|]; assumption. }
  destruct Hex as (rs & Hrs & Hname). exists rs. split; [|exact Hname].
  eapply Permutation_in; [symmetry; apply sortSlice_perm | exact Hrs].
Qed.

(** Every allocation of a tick bears the name of a listed runner set. *)
Lemma tickAllocations_found cfg c :
  List.filter (isFound (tickListing cfg c)) (tickAllocations cfg c)
    = tickAllocations cfg c.
Proof.
  assert (H : forall a, In a (tickAllocations cfg c) ->
                        isFound (tickListing cfg c) a = true).
  { intros a Hin. unfold tickAllocations in Hin.
    destruct (Calculate _ _ c) as [capacity|e]; [|contradiction].
    destruct (Allocate_names _ _ _ _ Hin) as (r & Hr & Hname).
    destruct (extractEnabled_name _ _ Hr) as (rs & Hrs & Hrsname).
    unfold isFound.
    pose proof (findRunnerSet_named (alloc_Name a) _ rs Hrs ltac:(congruence)).
    destruct (findRunnerSet (alloc_Name a) (tickListing cfg c)); congruence. }
  induction (tickAllocations cfg c) as [|a l IH]; simpl; [reflexivity|].
  rewrite (H a) by (left; reflexivity). f_equal. apply IH.
  intros a' Ha'. apply H. right. exact Ha'.
Qed.

Lemma ReconcileOnce_log cfg c :
  Forall2 (floored (tickListing cfg c)) (tickAllocations cfg c)
          (snd (ReconcileOnce cfg c)).
Proof.
  pose proof (ReconcileOnce_fold cfg c) as Hfold.
  destruct (applyAllocations_log cfg (tickListing cfg c) (tickAllocations cfg c) c [])
    as (ds & Hlog & Hds).
  rewrite <- Hfold in Hlog. simpl in Hlog. rewrite Hlog.
  rewrite tickAllocations_found in Hds. exact Hds.
Qed.

(** C2: a tick takes one decision for each allocation it computed, in
    order, and in each the final value is the larger of the allocation and
    the set's currently running count, hence never below that count; on
    Scenario C the capacity is zero, the allocation is 0 and the set with
    13 running runners is patched to 13. *)
Theorem ReconcileOnce_safety_floor cfg c :
  Forall2 (floored (tickListing cfg c)) (tickAllocations cfg c)
          (snd (ReconcileOnce cfg c)) /\
  (forall d, In d (snd (ReconcileOnce cfg c)) ->
     new_max d = Z.max (calculated_max d) (currently_running d) /\
     currently_running d <= new_max d) /\
  Calculate 10 10 scenarioC = Ok (mkClusterCapacity 0 0 0 0 0 0) /\
  ReconcileOnce DefaultConfig scenarioC
    = (None,
       mkClient [] [] [setMaxRunners 13 scenarioC_set] noFailure,
       [mkDecision "x" 0 20 13 13 Patched]).
Proof.
  pose proof (ReconcileOnce_log cfg c) as Hlog.
  split; [exact Hlog|]. split.
  - intros d Hin.
    induction Hlog as [|a d' l l' Hd _ IH]; [contradiction|].
    destruct Hin as [<- | Hin]; [|exact (IH Hin)].
    destruct Hd as (rs & _ & _ & Hcalc & Hrun & _ & Hnew & Hfloor & _).
    rewrite Hcalc, Hrun. auto.
  - split; vm_compute; reflexivity.
Qed.

Lemma ReconcileOnce_safety_floor_witness :
  new_max (mkDecision "x" 0 20 13 13 Patched)
    = Z.max (calculated_max (mkDecision "x" 0 20 13 13 Patched))
            (currently_running (mkDecision "x" 0 20 13 13 Patched)) /\
  currently_running (mkDecision "x" 0 20 13 13 Patched)
    <= new_max (mkDecision "x" 0 20 13 13 Patched).
Proof.
  apply (proj1 (proj2 (ReconcileOnce_safety_floor DefaultConfig scenarioC))).
  vm_compute. left. reflexivity.
Defined.

(** *** Running the tick twice *)

(** Capping at the floored value of a first round and flooring again
    gives the first round's value: what the second tick computes for a
    lone set is what the first tick wrote. *)
Lemma capAt_spec configuredMax slots :
  (0 < configuredMax < slots /\ capAt configuredMax slots = configuredMax) \/
  ((configuredMax <= 0 \/ slots <= configuredMax) /\ capAt configuredMax slots = slots).
Proof.
  unfold capAt.
  destruct (0 <? configuredMax) eqn:E1; [apply Z.ltb_lt in E1 | apply Z.ltb_ge in E1];
    simpl; [|right; lia].
  destruct (configuredMax <? slots) eqn:E2;
    [apply Z.ltb_lt in E2 | apply Z.ltb_ge in E2]; [left | right]; lia.
Qed.

Lemma floorAt_max running slots : floorAt running slots = Z.max slots running.
Proof.
  unfold floorAt.
  destruct (slots <? running) eqn:E; [apply Z.ltb_lt in E | apply Z.ltb_ge in E]; lia.
Qed.

Lemma cap_floor_stable configuredMax running fit :
  0 <= fit ->
  floorAt running (capAt (floorAt running (capAt configuredMax fit)) fit)
    = floorAt running (capAt configuredMax fit).
Proof.
  intros Hfit. rewrite !floorAt_max.
  destruct (capAt_spec configuredMax fit) as [[H1 ->] | [H1 ->]];
  match goal with
  | |- Z.max (capAt ?m ?x) _ = _ =>
      destruct (capAt_spec m x) as [[H2 ->] | [H2 ->]]
  end; lia.
Qed.

Lemma slotsOf_no_minimum r fit :
  MinRunners r = 0 -> slotsOf r fit = capAt (ConfiguredMax r) fit.
Proof. intros H. unfold slotsOf, capAt. rewrite H. reflexivity. Qed.

Lemma ReconcileOnce_single cfg c rs capacity r :
  Calculate (CPUBufferPercent cfg) (MemoryBufferPercent cfg) c = Ok capacity ->
  listRunnerSets cfg c = Ok [rs] ->
  ExtractRunnerSetResources rs = Ok r ->
  ReconcileOnce cfg c =
    let '(c', log) := applyAllocation cfg [rs] (c, []) (singleAllocation r capacity) in
    (None, c', log).
Proof.
  intros Hcap Hlist Hex. unfold ReconcileOnce. rewrite Hcap, Hlist.
  cbn [wrapErr extractEnabled]. rewrite Hex. reflexivity.
Qed.

Lemma patchObject_namespace namespace name m rs :
  ars_Namespace (patchObject namespace name m rs) = ars_Namespace rs.
Proof. unfold patchObject. destruct (_ && _); reflexivity. Qed.

Lemma flat_map_map_filter {A B} (f : A -> A) (keep : B -> A -> bool)
    (skip : B -> bool) (l : list A) (keys : list B) :
  (forall k x, keep k (f x) = keep k x) ->
  flat_map (fun k => if skip k then [] else List.filter (keep k) (map f l)) keys
    = map f (flat_map (fun k => if skip k then [] else List.filter (keep k) l) keys).
Proof.
  intros Hkeep. induction keys as [|k keys IH]; simpl; [reflexivity|].
  rewrite map_app, IH. f_equal.
  destruct (skip k); [reflexivity|].
  clear IH. induction l as [|x l IHl]; simpl; [reflexivity|].
  rewrite Hkeep. destruct (keep k x); simpl; rewrite IHl; reflexivity.
Qed.

(** A patch leaves nodes, pods and failures alone, and the next listing
    is the old one with the patch applied to each object. *)
Lemma updateRunnerSet_listing cfg c rs m c' :
  updateRunnerSet c rs m = Ok c' ->
  (forall cpuBuf memBuf, Calculate cpuBuf memBuf c' = Calculate cpuBuf memBuf c) /\
  listRunnerSets cfg c' =
    match listRunnerSets cfg c with
    | Ok l => Ok (map (patchObject (ars_Namespace rs) (ars_Name rs) m) l)
    | Err e => Err e
    end.
Proof.
  unfold updateRunnerSet.
  destruct (fails c (PatchRunnerSet _ _)); [discriminate|].
  intros H; inversion H; subst; clear H. split; [reflexivity|].
  unfold listRunnerSets; cbn [RunnerSets fails].
  destruct (Namespaces cfg) as [|ns nss].
  - destruct (fails c (ListRunnerSets None)); reflexivity.
  - f_equal.
    apply (flat_map_map_filter
             (patchObject (ars_Namespace rs) (ars_Name rs) m)
             (fun namespace x => String.eqb (ars_Namespace x) namespace)
             (fun namespace => fails c (ListRunnerSets (Some namespace)))).
    intros k x. rewrite patchObject_namespace. reflexivity.
Qed.

Lemma ExtractRunnerSetResources_setMaxRunners m rs r :
  ExtractRunnerSetResources rs = Ok r ->
  ExtractRunnerSetResources (setMaxRunners m rs)
    = Ok (mkRunnerSetResources (Name r) (CPUMillis r) (MemoryBytes r) (Priority r) 0 m m).
Proof.
  unfold ExtractRunnerSetResources, rbind, setMaxRunners.
  unfold extractCPUFromPodSpec, extractMemoryFromPodSpec. simpl.
  repeat match goal with
         | |- context [match ?x with _ => _ end] => destruct x; try discriminate
         end;
  intros H; inversion H; reflexivity.
Qed.

(** The decision of a tick for a lone enabled set. *)
Lemma applyAllocation_single cfg c rs r capacity :
  ExtractRunnerSetResources rs = Ok r ->
  let final :=
    floorAt (Status_CurrentRunners rs)
      (capAt (default 0 (Spec_MaxRunners rs))
         (calculateMaxRunners r (AvailableCPUMillis capacity)
                                (AvailableMemoryBytes capacity))) in
  let entry :=
    mkDecision (Name r) (alloc_MaxRunners (singleAllocation r capacity))
      (default 0 (Spec_MaxRunners rs)) (Status_CurrentRunners rs) final in
  applyAllocation cfg [rs] (c, []) (singleAllocation r capacity) =
    if default 0 (Spec_MaxRunners rs) =? final then (c, [entry Unchanged])
    else if DryRun cfg then (c, [entry WouldUpdate])
    else match updateRunnerSet c rs final with
         | Err _ => (c, [entry PatchFailed])
         | Ok c' => (c', [entry Patched])
         end.
Proof.
  intros Hex.
  destruct (ExtractRunnerSetResources_fields _ _ Hex) as (Hname & Hmin & _ & Hmax).
  unfold applyAllocation, singleAllocation. cbn [alloc_Name alloc_MaxRunners findRunnerSet].
  rewrite Hname, String.eqb_refl.
  rewrite (slotsOf_no_minimum r _ Hmin), Hmax. reflexivity.
Qed.

Lemma ReconcileOnce_unchanged_no_patch cfg c d :
  In d (snd (ReconcileOnce cfg c)) -> old_max d = new_max d -> isPatchCall d = false.
Proof.
  intros Hin Heq. pose proof (ReconcileOnce_log cfg c) as Hlog.
  induction Hlog as [|a d' l l' Hd _ IH]; [contradiction|].
  destruct Hin as [<- | Hin]; [|exact (IH Hin)].
  destruct Hd as (rs & _ & _ & _ & _ & _ & _ & _ & Hact).
  unfold isPatchCall. rewrite (Hact Heq). reflexivity.
Qed.

Lemma ReconcileOnce_second_run_single cfg c rs :
  listRunnerSets cfg c = Ok [rs] ->
  fails c (PatchRunnerSet (ars_Namespace rs) (ars_Name rs)) = false ->
  patchCalls (snd (ReconcileOnce cfg (snd (fst (ReconcileOnce cfg c))))) = 0%nat.
Proof.
  intros Hlist Hpatch.
  destruct (Calculate (CPUBufferPercent cfg) (MemoryBufferPercent cfg) c)
    as [capacity|e] eqn:Hcap.
  2: { assert (H : ReconcileOnce cfg c = (Some (ErrCalculateCapacity e), c, []))
         by (unfold ReconcileOnce; rewrite Hcap; reflexivity).
       rewrite H; simpl. rewrite H. reflexivity. }
  destruct (ExtractRunnerSetResources rs) as [r|e] eqn:Hex.
  2: { assert (H : ReconcileOnce cfg c = (None, c, [])).
       { unfold ReconcileOnce. rewrite Hcap, Hlist. cbn [wrapErr extractEnabled].
         rewrite Hex. reflexivity. }
       rewrite H; simpl. rewrite H. reflexivity. }
  pose proof (ReconcileOnce_single cfg c rs capacity r Hcap Hlist Hex) as Hfirst.
  pose proof (applyAllocation_single cfg c rs r capacity Hex) as Hstep.
  cbv zeta in Hstep.
  set (fit := calculateMaxRunners r (AvailableCPUMillis capacity)
                (AvailableMemoryBytes capacity)) in *.
  set (running := Status_CurrentRunners rs) in *.
  set (final := floorAt running (capAt (default 0 (Spec_MaxRunners rs)) fit)) in *.
  rewrite Hstep in Hfirst. clear Hstep.
  destruct (default 0 (Spec_MaxRunners rs) =? final) eqn:Esame.
  { (* nothing to write: the second tick repeats the first *)
    rewrite Hfirst; simpl. rewrite Hfirst. reflexivity. }
  destruct (DryRun cfg) eqn:Edry.
  { rewrite Hfirst; simpl. rewrite Hfirst. reflexivity. }
  destruct (updateRunnerSet c rs final) as [c1|e] eqn:Hupd.
  2: { unfold updateRunnerSet in Hupd. rewrite Hpatch in Hupd. discriminate. }
  rewrite Hfirst; cbn [fst snd].
  (* the second tick sees the same capacity and the patched set *)
  destruct (updateRunnerSet_listing cfg c rs final c1 Hupd) as [Hcalc1 Hlist1].
  rewrite Hlist in Hlist1. cbn [map] in Hlist1.
  assert (Hpatched : patchObject (ars_Namespace rs) (ars_Name rs) final rs
                     = setMaxRunners final rs).
  { unfold patchObject. rewrite !String.eqb_refl. reflexivity. }
  rewrite Hpatched in Hlist1.
  pose proof (ExtractRunnerSetResources_setMaxRunners final rs r Hex) as Hex1.
  set (r1 := mkRunnerSetResources (Name r) (CPUMillis r) (MemoryBytes r)
               (Priority r) 0 final final) in *.
  assert (Hcap1 : Calculate (CPUBufferPercent cfg) (MemoryBufferPercent cfg) c1
                  = Ok capacity) by (rewrite Hcalc1; exact Hcap).
  rewrite (ReconcileOnce_single cfg c1 (setMaxRunners final rs) capacity r1
             Hcap1 Hlist1 Hex1).
  rewrite (applyAllocation_single cfg c1 (setMaxRunners final rs) r1 capacity Hex1).
  cbv zeta. cbn [setMaxRunners Spec_MaxRunners Status_CurrentRunners].
  change (default 0 (Some final)) with final.
  change (calculateMaxRunners r1 (AvailableCPUMillis capacity)
            (AvailableMemoryBytes capacity)) with fit.
  fold running.
  assert (Hstable : floorAt running (capAt final fit) = final).
  { unfold final. apply cap_floor_stable. apply calculateMaxRunners_nonneg. }
  rewrite Hstable, Z.eqb_refl. reflexivity.
Qed.

(** C8 as stated fails with two sets.  The first tick raises "first" from
    2 to its 5 running runners and gives "second" the 7 slots left beside
    the 2 allocated; the second tick, with nodes, pods and statuses as
    before, finds "first" capped at 5, has 4 slots left for "second" and
    patches it from 7 to 4. *)
Lemma ReconcileOnce_second_run_patches :
  snd (ReconcileOnce DefaultConfig twoSets)
    = [mkDecision "first" 2 2 5 5 Patched; mkDecision "second" 7 0 0 7 Patched] /\
  snd (ReconcileOnce DefaultConfig (snd (fst (ReconcileOnce DefaultConfig twoSets))))
    = [mkDecision "first" 5 5 5 5 Unchanged; mkDecision "second" 4 7 0 4 Patched] /\
  patchCalls
    (snd (ReconcileOnce DefaultConfig (snd (fst (ReconcileOnce DefaultConfig twoSets)))))
    = 1%nat.
Proof. repeat split; vm_compute; reflexivity. Qed.

(** * Further properties of the code *)

(** ** The fit primitive *)

Lemma quot_in_range avail cost :
  Int64.in_range avail -> 0 < cost -> Int64.quot avail cost = avail ÷ cost.
Proof.
  intros Ha Hc. unfold Int64.quot. apply wrap_in_range.
  unfold Int64.in_range, Int64.min_int, Int64.max_int in *.
  destruct (Z_le_gt_dec 0 avail) as [Hpos | Hneg].
  - rewrite Z.quot_div_nonneg by lia.
    assert (0 <= avail / cost) by (apply Z.div_pos; lia).
    assert (avail / cost <= avail) by (apply Z.div_le_upper_bound; nia).
    lia.
  - assert (avail ÷ cost = - ((- avail) ÷ cost)) as ->
      by (rewrite Z.quot_opp_l by lia; lia).
    rewrite Z.quot_div_nonneg by lia.
    assert (0 <= (- avail) / cost) by (apply Z.div_pos; lia).
    assert ((- avail) / cost <= - avail) by (apply Z.div_le_upper_bound; nia).
    lia.
Qed.

(** X1: [calculateMaxRunners] returns the largest number of runners whose
    CPU and memory both fit: that many fit, one more does not. *)
Theorem calculateMaxRunners_largest_fit rs cpu mem :
  0 < CPUMillis rs -> 0 < MemoryBytes rs ->
  0 <= cpu <= Int64.max_int -> 0 <= mem <= Int64.max_int ->
  let n := calculateMaxRunners rs cpu mem in
  0 <= n /\
  n * CPUMillis rs <= cpu /\ n * MemoryBytes rs <= mem /\
  (cpu < (n + 1) * CPUMillis rs \/ mem < (n + 1) * MemoryBytes rs).
Proof.
  intros Hc Hm Hcpu Hmem. unfold calculateMaxRunners.
  destruct (CPUMillis rs <=? 0) eqn:E1; [apply Z.leb_le in E1; lia|].
  destruct (MemoryBytes rs <=? 0) eqn:E2; [apply Z.leb_le in E2; lia|].
  cbn [orb].
  destruct (quot_fit_bound cpu (CPUMillis rs)) as (-> & ? & ?); [lia..|].
  destruct (quot_fit_bound mem (MemoryBytes rs)) as (-> & ? & ?); [lia..|].
  pose proof (Z.mul_succ_div_gt cpu (CPUMillis rs) Hc).
  pose proof (Z.mul_succ_div_gt mem (MemoryBytes rs) Hm).
  cbv zeta.
  destruct (Z.min_spec (mem / MemoryBytes rs) (cpu / CPUMillis rs)) as [[Hlt ->] | [Hle ->]];
    rewrite Z.max_r by lia; repeat split; try lia; try nia.
Qed.

Lemma calculateMaxRunners_largest_fit_witness :
  let n := calculateMaxRunners (oneCore "ci" 0 0 0) 8500 (20 * Gi) in
  0 <= n /\
  n * 1000 <= 8500 /\ n * (2 * Gi) <= 20 * Gi /\
  (8500 < (n + 1) * 1000 \/ 20 * Gi < (n + 1) * (2 * Gi)).
Proof.
  apply (calculateMaxRunners_largest_fit (oneCore "ci" 0 0 0) 8500 (20 * Gi)).
  - reflexivity.
  - reflexivity.
  - unfold Int64.max_int. lia.
  - unfold Int64.max_int, Gi. lia.
Defined.

(** X2: [calculateMaxRunners] is 0 for a set without a positive CPU or memory
    cost, and 0 when the available CPU or memory, negative values
    included, is less than one runner needs. *)
Theorem calculateMaxRunners_zero rs cpu mem :
  Int64.in_range cpu -> Int64.in_range mem ->
  CPUMillis rs <= 0 \/ MemoryBytes rs <= 0 \/
  cpu < CPUMillis rs \/ mem < MemoryBytes rs ->
  calculateMaxRunners rs cpu mem = 0.
Proof.
  intros Hcpu Hmem H. unfold calculateMaxRunners.
  destruct (CPUMillis rs <=? 0) eqn:E1; [reflexivity|].
  destruct (MemoryBytes rs <=? 0) eqn:E2; [reflexivity|].
  apply Z.leb_gt in E1, E2. cbn [orb]. cbv zeta.
  rewrite !quot_in_range by (assumption || lia).
  assert (Hsmall : forall avail cost, 0 < cost -> avail < cost -> avail ÷ cost <= 0).
  { intros avail cost Hcost Hlt.
    destruct (Z_le_gt_dec 0 avail).
    - rewrite Z.quot_small; lia.
    - assert (avail ÷ cost = - ((- avail) ÷ cost)) as ->
        by (rewrite Z.quot_opp_l by lia; lia).
      assert (0 <= (- avail) ÷ cost) by (apply Z.quot_pos; lia). lia. }
  destruct H as [H | [H | [H | H]]]; try lia.
  - pose proof (Hsmall cpu (CPUMillis rs) E1 H). lia.
  - pose proof (Hsmall mem (MemoryBytes rs) E2 H). lia.
Qed.

Lemma calculateMaxRunners_zero_witness :
  calculateMaxRunners (oneCore "ci" 0 0 0) (-1000) (20 * Gi) = 0.
Proof.
  apply calculateMaxRunners_zero.
  - unfold Int64.in_range, Int64.min_int, Int64.max_int. lia.
  - unfold Int64.in_range, Int64.min_int, Int64.max_int, Gi. lia.
  - right. right. left. simpl. lia.
Defined.

(** ** Strict-priority allocation, further *)

Lemma slotsOf_bounds rs fit :
  0 <= fit ->
  0 <= slotsOf rs fit /\ (0 < ConfiguredMax rs -> slotsOf rs fit <= ConfiguredMax rs).
Proof.
  intros Hfit. unfold slotsOf.
  destruct ((0 <? MinRunners rs) && (fit <? MinRunners rs)) eqn:Emin.
  - apply andb_true_iff in Emin. destruct Emin as [E1 _]. apply Z.ltb_lt in E1.
    destruct (0 <? ConfiguredMax rs) eqn:E2; cbn [andb];
      [apply Z.ltb_lt in E2 | apply Z.ltb_ge in E2; lia].
    destruct (ConfiguredMax rs <? MinRunners rs) eqn:E3;
      [apply Z.ltb_lt in E3 | apply Z.ltb_ge in E3]; lia.
  - destruct (0 <? ConfiguredMax rs) eqn:E2; cbn [andb];
      [apply Z.ltb_lt in E2 | apply Z.ltb_ge in E2; lia].
    destruct (ConfiguredMax rs <? fit) eqn:E3;
      [apply Z.ltb_lt in E3 | apply Z.ltb_ge in E3]; lia.
Qed.

Lemma allocateLoop_withinCap sorted : forall cpu mem,
  Forall2 withinCap sorted (allocateLoop sorted cpu mem).
Proof.
  induction sorted as [|rs rest IH]; intros cpu mem; cbn [allocateLoop].
  - constructor.
  - pose proof (allocateStep_slots rs cpu mem) as Hn.
    destruct (allocateStep rs cpu mem) as [[n cpu'] mem']. cbn [fst] in Hn.
    constructor; [|apply IH].
    unfold withinCap; cbn [alloc_Name alloc_MaxRunners]. subst n.
    split; [reflexivity|].
    apply slotsOf_bounds, calculateMaxRunners_nonneg.
Qed.

(** X3: whatever the capacity and the minimums, [Allocate] emits one
    allocation per runner set, under the set's name, with a slot count
    that is never negative and never above a positive configured
    maximum. *)
Theorem Allocate_within_cap sets cpu mem :
  Permutation sets (sortRunnerSets sets) /\
  Forall2 withinCap (sortRunnerSets sets) (Allocate sets cpu mem).
Proof.
  split; [apply sortSlice_perm | apply allocateLoop_withinCap].
Qed.

(** *** Order of service *)

Lemma byPriorityThenName_asym a b :
  byPriorityThenName a b = true -> byPriorityThenName b a = false.
Proof.
  unfold byPriorityThenName.
  destruct (Priority a =? Priority b) eqn:E; cbn [negb].
  - apply Z.eqb_eq in E. rewrite <- E, Z.eqb_refl. cbn [negb].
    unfold String.ltb. rewrite (String.compare_antisym (Name b) (Name a)).
    destruct (String.compare (Name a) (Name b)); cbn; congruence.
  - apply Z.eqb_neq in E.
    destruct (Priority b =? Priority a) eqn:E'; [apply Z.eqb_eq in E'; lia|].
    cbn [negb]. intros H. apply Z.ltb_lt in H. apply Z.ltb_ge. lia.
Qed.

Lemma insertBy_sorted x l :
  Sorted servedBefore l -> Sorted servedBefore (insertBy byPriorityThenName x l).
Proof.
  induction 1 as [|y l Hl IH Hhd]; cbn [insertBy].
  - repeat constructor.
  - destruct (byPriorityThenName y x) eqn:E.
    + constructor; [exact IH|].
      destruct Hhd as [|z l' Hyz]; cbn [insertBy].
      * constructor. apply byPriorityThenName_asym, E.
      * destruct (byPriorityThenName z x); constructor;
          [exact Hyz | apply byPriorityThenName_asym, E].
    + constructor; [constructor; assumption|]. constructor. exact E.
Qed.

Lemma sortRunnerSets_sorted sets : Sorted servedBefore (sortRunnerSets sets).
Proof.
  induction sets as [|x l IH]; cbn; [constructor|].
  apply insertBy_sorted, IH.
Qed.

Lemma servedBefore_priority a b : servedBefore a b -> Priority b <= Priority a.
Proof.
  unfold servedBefore, byPriorityThenName.
  destruct (Priority b =? Priority a) eqn:E; cbn [negb].
  - apply Z.eqb_eq in E. lia.
  - intros H. apply Z.ltb_ge in H. exact H.
Qed.

(** X4: [Allocate] emits the allocations in the order it serves the sets:
    each set is followed by one that the comparator does not put before
    it, and no set comes after a set of lower priority. *)
Theorem Allocate_serves_by_priority sets cpu mem :
  map alloc_Name (Allocate sets cpu mem) = map Name (sortRunnerSets sets) /\
  Sorted servedBefore (sortRunnerSets sets) /\
  StronglySorted (fun a b => Priority b <= Priority a) (sortRunnerSets sets).
Proof.
  split; [|split].
  - pose proof (allocateLoop_withinCap (sortRunnerSets sets) cpu mem) as H.
    fold (Allocate sets cpu mem) in H.
    induction H as [|rs a l l' [Hname _] _ IH]; cbn; [reflexivity|].
    rewrite Hname, IH. reflexivity.
  - apply sortRunnerSets_sorted.
  - apply Sorted_StronglySorted.
    + intros a b c Hab Hbc. lia.
    + pose proof (sortRunnerSets_sorted sets) as H.
      induction H as [|x l Hl IH Hhd]; constructor; [exact IH|].
      destruct Hhd; constructor. apply servedBefore_priority. assumption.
Qed.

(** *** No capacity, no minimum *)

Lemma allocateLoop_no_cpu sorted : forall mem,
  Forall (fun rs => MinRunners rs = 0) sorted ->
  allocateLoop sorted 0 mem = map (fun rs => mkRunnerSetAllocation (Name rs) 0) sorted.
Proof.
  induction sorted as [|rs rest IH]; intros mem Hall; cbn [allocateLoop map];
    [reflexivity|].
  inversion Hall as [|? ? Hrs Hrest]; subst.
  assert (Hfit : calculateMaxRunners rs 0 mem = 0).
  { unfold calculateMaxRunners.
    destruct ((CPUMillis rs <=? 0) || (MemoryBytes rs <=? 0)); [reflexivity|].
    cbv zeta. replace (Int64.quot 0 (CPUMillis rs)) with 0
      by (unfold Int64.quot; change (0 ÷ CPUMillis rs) with 0; reflexivity). lia. }
  unfold allocateStep. rewrite Hfit, Hrs. cbn [Z.ltb Z.compare andb].
  replace ((0 <? ConfiguredMax rs) && (ConfiguredMax rs <? 0)) with false
    by (destruct (0 <? ConfiguredMax rs) eqn:E1; cbn [andb]; [|reflexivity];
        apply Z.ltb_lt in E1; symmetry; apply Z.ltb_ge; lia).
  unfold Int64.mul, Int64.sub. rewrite Z.mul_0_l.
  change (Int64.wrap 0) with 0. rewrite Z.sub_0_r.
  change (Int64.wrap 0) with 0. f_equal. apply IH, Hrest.
Qed.

(** X5: with no available CPU and no minimums, every runner set is
    allocated 0 slots, whatever memory is available. *)
Theorem Allocate_no_capacity sets mem :
  Forall (fun rs => MinRunners rs = 0) sets ->
  Allocate sets 0 mem
    = map (fun rs => mkRunnerSetAllocation (Name rs) 0) (sortRunnerSets sets).
Proof.
  intros Hall. apply allocateLoop_no_cpu.
  eapply Permutation_Forall; [apply sortSlice_perm | exact Hall].
Qed.

Lemma Allocate_no_capacity_witness :
  Allocate [oneCore "b" 1 0 4; oneCore "a" 7 0 0] 0 (64 * Gi)
    = [mkRunnerSetAllocation "a" 0; mkRunnerSetAllocation "b" 0].
Proof.
  apply (Allocate_no_capacity [oneCore "b" 1 0 4; oneCore "a" 7 0 0] (64 * Gi)).
  repeat constructor.
Defined.

(** *** Sets without a minimum are allocated as before minimums existed *)

Lemma allocateLoop_without_minimum sorted : forall cpu mem,
  Forall (fun rs => MinRunners rs <= 0) sorted ->
  allocateLoop sorted cpu mem = allocateLoopWithoutMinimum sorted cpu mem.
Proof.
  induction sorted as [|rs rest IH]; intros cpu mem Hall;
    cbn [allocateLoop allocateLoopWithoutMinimum]; [reflexivity|].
  inversion Hall as [|? ? Hrs Hrest]; subst.
  assert (Hstep : allocateStep rs cpu mem = allocateStepWithoutMinimum rs cpu mem).
  { unfold allocateStep, allocateStepWithoutMinimum.
    replace (0 <? MinRunners rs) with false by (symmetry; apply Z.ltb_ge; lia).
    reflexivity. }
  rewrite Hstep. destruct (allocateStepWithoutMinimum rs cpu mem) as [[n cpu'] mem'].
  f_equal. apply IH, Hrest.
Qed.

(** X6: on runner sets none of which has a positive minimum, [Allocate]
    returns what the allocator returned before the minimum was
    introduced. *)
Theorem Allocate_without_minimum sets cpu mem :
  Forall (fun rs => MinRunners rs <= 0) sets ->
  Allocate sets cpu mem = AllocateWithoutMinimum sets cpu mem.
Proof.
  intros Hall. apply allocateLoop_without_minimum.
  eapply Permutation_Forall; [apply sortSlice_perm | exact Hall].
Qed.

Lemma Allocate_without_minimum_witness :
  Allocate scenarioA 20000 (40 * Gi) = AllocateWithoutMinimum scenarioA 20000 (40 * Gi).
Proof.
  apply (Allocate_without_minimum scenarioA 20000 (40 * Gi)).
  repeat constructor; simpl; lia.
Defined.

(** ** Weighted fair share, further *)

Lemma fold_add_wrap {A} (f : A -> Z) (l : list A) : forall acc,
  fold_left (fun t x => Int64.add t (f x)) l (Int64.wrap acc)
    = Int64.wrap (acc + sumZ (map f l)).
Proof.
  induction l as [|x l IH]; intros acc; cbn [fold_left map sumZ fold_right].
  - rewrite Z.add_0_r. reflexivity.
  - unfold Int64.add at 2. rewrite wrap_add_l, IH.
    f_equal. fold (sumZ (map f l)). lia.
Qed.

Lemma totalPriorityWeight_sum sets :
  totalPriorityWeight sets = Int64.wrap (sumZ (map priorityWeight sets)).
Proof.
  unfold totalPriorityWeight. change 0 with (Int64.wrap 0) at 1.
  rewrite fold_add_wrap. reflexivity.
Qed.

Lemma priorityWeight_positive rs : 0 <= Priority rs -> 1 <= priorityWeight rs.
Proof.
  intros H. unfold priorityWeight.
  destruct (Priority rs =? 0) eqn:E; [lia | apply Z.eqb_neq in E; lia].
Qed.

Lemma firstPass_returns cpu mem total sets : forall st,
  total <> 0 -> exists st', firstPass cpu mem total sets st = Returns st'.
Proof.
  induction sets as [|rs rest IH]; intros st Hne; cbn [firstPass].
  - eauto.
  - destruct st as [[l c] m]. unfold firstPassStep, share, checkedDiv, Int64.div.
    destruct (total =? 0) eqn:E; [apply Z.eqb_eq in E; contradiction|].
    cbn [obind]. apply IH, Hne.
Qed.

(** X7: [AllocateFairShare] returns, without a division by zero, on every
    list of runner sets whose priorities are not negative, as long as the
    sum of their weights is an int. *)
Theorem AllocateFairShare_returns sets cpu mem :
  Forall (fun rs => 0 <= Priority rs) sets ->
  sumZ (map priorityWeight sets) <= Int64.max_int ->
  exists result, AllocateFairShare sets cpu mem = Returns result.
Proof.
  intros Hall Hsum. destruct sets as [|rs rest]; [cbn; eauto|].
  assert (Hpos : 1 <= sumZ (map priorityWeight (rs :: rest))).
  { inversion Hall as [|? ? Hrs Hrest]; subst.
    cbn [map sumZ fold_right]. fold (sumZ (map priorityWeight rest)).
    pose proof (priorityWeight_positive rs Hrs).
    assert (0 <= sumZ (map priorityWeight rest)).
    { clear -Hrest. induction Hrest as [|x l Hx _ IH]; cbn; [lia|].
      pose proof (priorityWeight_positive x Hx).
      fold (sumZ (map priorityWeight l)). lia. }
    lia. }
  assert (Htotal : totalPriorityWeight (rs :: rest) <> 0).
  { rewrite totalPriorityWeight_sum.
    rewrite (wrap_nonneg_le _ (sumZ (map priorityWeight (rs :: rest)))); lia. }
  unfold AllocateFairShare.
  destruct (firstPass_returns cpu mem _ (rs :: rest) ([], 0, 0) Htotal) as [st' ->].
  cbn [obind]. destruct (enforceMinimums st') as [[l c] m]. eauto.
Qed.

Lemma AllocateFairShare_returns_witness :
  exists result,
    AllocateFairShare [oneCore "zero" 0 0 10; oneCore "one" 1 0 10] 6000 (12 * Gi)
      = Returns result.
Proof.
  apply (AllocateFairShare_returns [oneCore "zero" 0 0 10; oneCore "one" 1 0 10]).
  - repeat constructor; simpl; lia.
  - unfold Int64.max_int. cbn. lia.
Defined.

(** *** What the three passes keep *)

Lemma firstPass_entries cpu mem total sets : forall l c m l' c' m',
  firstPass cpu mem total sets (l, c, m) = Returns (l', c', m') ->
  exists new,
    l' = l ++ new /\ map runnerSet new = sets /\
    Forall (fun a => 0 <= maxRunners a /\
                     (0 < ConfiguredMax (runnerSet a) ->
                      maxRunners a <= ConfiguredMax (runnerSet a))) new.
Proof.
  induction sets as [|rs rest IH]; intros l c m l' c' m'; cbn [firstPass].
  - intros H; inversion H; subst. exists []. rewrite app_nil_r. auto.
  - unfold firstPassStep.
    destruct (share cpu rs total) as [cpuShare|]; cbn [obind]; [|discriminate].
    destruct (share mem rs total) as [memoryShare|]; cbn [obind]; [|discriminate].
    intros H. apply IH in H. destruct H as (new & -> & Hsets & Hall).
    eexists (_ :: new). rewrite <- app_assoc. split; [reflexivity|].
    split; [cbn; rewrite Hsets; reflexivity|].
    constructor; [|exact Hall]. cbn [maxRunners runnerSet].
    pose proof (calculateMaxRunners_nonneg rs cpuShare memoryShare) as Hfit.
    destruct (0 <? ConfiguredMax rs) eqn:E1; cbn [andb];
      [apply Z.ltb_lt in E1 | apply Z.ltb_ge in E1; lia].
    destruct (ConfiguredMax rs <? calculateMaxRunners rs cpuShare memoryShare) eqn:E2;
      [apply Z.ltb_lt in E2 | apply Z.ltb_ge in E2]; lia.
Qed.

Lemma enforceMinimums_entries first : forall l c m,
  exists c' m',
    fold_left enforceMinimumStep first (l, c, m)
      = (l ++ map (fun a =>
                     if (0 <? MinRunners (runnerSet a))
                        && (maxRunners a <? MinRunners (runnerSet a))
                     then mkAllocation (runnerSet a) (MinRunners (runnerSet a))
                            (Int64.add (allocatedCPU a)
                               (Int64.mul (Int64.sub (MinRunners (runnerSet a)) (maxRunners a))
                                          (CPUMillis (runnerSet a))))
                            (Int64.add (allocatedMemory a)
                               (Int64.mul (Int64.sub (MinRunners (runnerSet a)) (maxRunners a))
                                          (MemoryBytes (runnerSet a))))
                            (cappedByMax a)
                     else a) first, c', m').
Proof.
  induction first as [|a rest IH]; intros l c m; cbn [fold_left map].
  - rewrite app_nil_r. eauto.
  - unfold enforceMinimumStep at 2.
    destruct ((0 <? MinRunners (runnerSet a)) && (maxRunners a <? MinRunners (runnerSet a)));
      match goal with
      | |- context [fold_left _ rest (?l0, ?c0, ?m0)] =>
          destruct (IH l0 c0 m0) as (c' & m' & ->)
      end; rewrite <- app_assoc; eauto.
Qed.

Lemma updateOriginal_Forall (P : allocation -> Prop) alloc l :
  P alloc -> Forall P l -> Forall P (updateOriginal alloc l).
Proof.
  intros Ha. induction 1 as [|a l Hx Hl IH]; cbn [updateOriginal]; [constructor|].
  destruct (String.eqb _ _); constructor; assumption.
Qed.

Lemma updateOriginal_names alloc l :
  map nameOf (updateOriginal alloc l) = map nameOf l.
Proof.
  induction l as [|a l IH]; cbn [updateOriginal map]; [reflexivity|].
  destruct (String.eqb (Name (runnerSet a)) (Name (runnerSet alloc))) eqn:E.
  - apply String.eqb_eq in E. cbn [map]. unfold nameOf at 1 3. rewrite E. reflexivity.
  - cbn [map]. rewrite IH. reflexivity.
Qed.

(** What one redistribution step does to the slice: nothing, or it
    replaces the entry of the step's name by the step's entry with more
    runners. *)
Lemma redistributeStep_cases l cpu mem alloc :
  fst (fst (redistributeStep (l, cpu, mem) alloc)) = l \/
  exists k,
    fst (fst (redistributeStep (l, cpu, mem) alloc))
      = updateOriginal (mkAllocation (runnerSet alloc)
                          (Int64.add (maxRunners alloc) k)
                          (Int64.add (allocatedCPU alloc)
                             (Int64.mul k (CPUMillis (runnerSet alloc))))
                          (Int64.add (allocatedMemory alloc)
                             (Int64.mul k (MemoryBytes (runnerSet alloc))))
                          (cappedByMax alloc)) l /\
    0 < k <= Int64.max_int /\
    (0 < ConfiguredMax (runnerSet alloc) ->
     maxRunners alloc < ConfiguredMax (runnerSet alloc) /\
     k <= Int64.sub (ConfiguredMax (runnerSet alloc)) (maxRunners alloc)).
Proof.
  unfold redistributeStep.
  destruct ((0 <? ConfiguredMax (runnerSet alloc))
            && (ConfiguredMax (runnerSet alloc) <=? maxRunners alloc)) eqn:Eskip;
    [left; reflexivity|].
  set (additional := calculateMaxRunners (runnerSet alloc) cpu mem).
  assert (Hadd : 0 <= additional <= Int64.max_int).
  { pose proof (calculateMaxRunners_nonneg (runnerSet alloc) cpu mem).
    split; [assumption|]. unfold additional, calculateMaxRunners.
    destruct (_ || _); [unfold Int64.max_int; lia|]. cbv zeta.
    pose proof (wrap_range (cpu ÷ CPUMillis (runnerSet alloc))) as [_ Hr].
    unfold Int64.quot, Int64.max_int in *. lia. }
  destruct (additional =? 0); [left; reflexivity|].
  match goal with
  | |- context [if 0 <? ?k then _ else _] => set (maxAdditional := k)
  end.
  destruct (0 <? maxAdditional) eqn:Epos; [|left; reflexivity].
  apply Z.ltb_lt in Epos. right. exists maxAdditional. cbn [fst].
  split; [reflexivity|]. unfold maxAdditional in *.
  destruct (0 <? ConfiguredMax (runnerSet alloc)) eqn:Ecap.
  - apply Z.ltb_lt in Ecap. cbn [andb] in Eskip. apply Z.leb_gt in Eskip.
    split; [lia|]. intros _. split; [exact Eskip | lia].
  - apply Z.ltb_ge in Ecap. split; [lia|]. intros; lia.
Qed.

Lemma redistributeStep_names l cpu mem alloc :
  map nameOf (fst (fst (redistributeStep (l, cpu, mem) alloc))) = map nameOf l.
Proof.
  destruct (redistributeStep_cases l cpu mem alloc) as [-> | (k & -> & _)];
    [reflexivity | apply updateOriginal_names].
Qed.

Lemma redistribute_names l cpu mem :
  map nameOf (redistribute l cpu mem) = map nameOf l.
Proof.
  unfold redistribute. destruct (_ || _); [|reflexivity].
  generalize (sortSlice byAllocationPriority l) as sorted.
  intros sorted. revert l cpu mem.
  induction sorted as [|a rest IH]; intros l cpu mem; cbn [fold_left]; [reflexivity|].
  pose proof (redistributeStep_names l cpu mem a) as Hstep.
  destruct (redistributeStep (l, cpu, mem) a) as [[l1 cpu1] mem1]. cbn [fst] in Hstep.
  rewrite IH, Hstep. reflexivity.
Qed.

(** X8: when [AllocateFairShare] returns, it returns one allocation per
    runner set, under the sets' names in the order of the input (not in
    the order of priority, as [Allocate] does). *)
Theorem AllocateFairShare_names sets cpu mem result :
  AllocateFairShare sets cpu mem = Returns result ->
  map alloc_Name result = map Name sets.
Proof.
  unfold AllocateFairShare. destruct sets as [|rs rest].
  { intros H; inversion H; reflexivity. }
  destruct (firstPass cpu mem _ (rs :: rest) ([], 0, 0)) as [[[first c] m]|] eqn:Hfirst;
    cbn [obind]; [|discriminate].
  destruct (firstPass_entries _ _ _ _ _ _ _ _ _ _ Hfirst) as (new & Hnew & Hsets & _).
  cbn [app] in Hnew. subst first.
  unfold enforceMinimums.
  destruct (enforceMinimums_entries new [] c m) as (c' & m' & ->). cbn [app].
  intros H; inversion H; subst; clear H.
  rewrite map_map.
  change (fun x => alloc_Name (toResult x)) with nameOf.
  rewrite redistribute_names, map_map, <- Hsets, map_map.
  apply map_ext. intros a. unfold nameOf.
  destruct (_ && _); reflexivity.
Qed.

Lemma AllocateFairShare_names_witness :
  map alloc_Name [mkRunnerSetAllocation "high" 2; mkRunnerSetAllocation "low" 8]
    = map Name [scenarioB_high; scenarioB_low].
Proof.
  apply (AllocateFairShare_names [scenarioB_high; scenarioB_low] 10000 (20 * Gi)).
  vm_compute. reflexivity.
Defined.

Lemma redistributeStep_bounds sets l cpu mem alloc :
  entryWithinBounds sets alloc -> Forall (entryWithinBounds sets) l ->
  Forall (entryWithinBounds sets) (fst (fst (redistributeStep (l, cpu, mem) alloc))).
Proof.
  intros [Hin Hb] Hl.
  destruct (redistributeStep_cases l cpu mem alloc) as [-> | (k & -> & Hk & Hcap)];
    [exact Hl|].
  apply updateOriginal_Forall; [|exact Hl].
  split; [exact Hin|]. cbn [runnerSet maxRunners]. intros Hcm.
  destruct (Hb Hcm) as [[Hx0 Hxmax] Hmin].
  destruct (Hcap (proj1 Hcm)) as [Hlt Hle].
  unfold Int64.sub in Hle.
  rewrite (wrap_nonneg_le _ (ConfiguredMax (runnerSet alloc))) in Hle by lia.
  unfold Int64.add.
  rewrite (wrap_nonneg_le _ (ConfiguredMax (runnerSet alloc))) by lia.
  lia.
Qed.

Lemma redistribute_bounds sets l cpu mem :
  Forall (entryWithinBounds sets) l ->
  Forall (entryWithinBounds sets) (redistribute l cpu mem).
Proof.
  intros Hl. unfold redistribute. destruct (_ || _); [|exact Hl].
  assert (Hsorted : Forall (entryWithinBounds sets) (sortSlice byAllocationPriority l))
    by (eapply Permutation_Forall; [apply sortSlice_perm | exact Hl]).
  revert Hsorted. generalize (sortSlice byAllocationPriority l) as sorted.
  intros sorted. revert l cpu mem Hl.
  induction sorted as [|a rest IH]; intros l cpu mem Hl Hsorted; cbn [fold_left];
    [exact Hl|].
  inversion Hsorted as [|? ? Ha Hrest]; subst.
  pose proof (redistributeStep_bounds sets l cpu mem a Ha Hl) as Hstep.
  destruct (redistributeStep (l, cpu, mem) a) as [[l1 cpu1] mem1]. cbn [fst] in Hstep.
  apply IH; assumption.
Qed.

(** X9: every allocation that [AllocateFairShare] returns is that of an input
    set of its name, and if that set has a configured maximum, the slot
    count is at least the set's minimum and at most the larger of the
    maximum and the minimum: only a minimum lifts a set above its cap. *)
Theorem AllocateFairShare_capped_bounds sets cpu mem result a :
  AllocateFairShare sets cpu mem = Returns result ->
  In a result ->
  exists rs, In rs sets /\ Name rs = alloc_Name a /\
             cappedBounds rs (alloc_MaxRunners a).
Proof.
  unfold AllocateFairShare. destruct sets as [|rs0 rest].
  { intros H; inversion H; subst. contradiction. }
  destruct (firstPass cpu mem _ (rs0 :: rest) ([], 0, 0)) as [[[first c] m]|] eqn:Hfirst;
    cbn [obind]; [|discriminate].
  destruct (firstPass_entries _ _ _ _ _ _ _ _ _ _ Hfirst) as (new & Hnew & Hsets & Hall).
  cbn [app] in Hnew. subst first.
  unfold enforceMinimums.
  destruct (enforceMinimums_entries new [] c m) as (c' & m' & ->). cbn [app].
  intros H; inversion H; subst result; clear H.
  intros Hin. apply in_map_iff in Hin. destruct Hin as (e & <- & Hin).
  match type of Hin with
  | In _ (redistribute ?l _ _) =>
      assert (Hbounds : Forall (entryWithinBounds (rs0 :: rest)) l)
  end.
  { rewrite <- Hsets. clear -Hall.
    induction Hall as [|x l [Hx0 Hxcap] _ IH]; cbn [map]; constructor.
    - destruct ((0 <? MinRunners (runnerSet x))
                && (maxRunners x <? MinRunners (runnerSet x))) eqn:E.
      + apply andb_true_iff in E. destruct E as [E1 E2].
        apply Z.ltb_lt in E1, E2.
        split; [left; reflexivity|]. cbn [runnerSet maxRunners]. intros Hcm. lia.
      + split; [left; reflexivity|]. intros Hcm.
        specialize (Hxcap (proj1 Hcm)).
        apply andb_false_iff in E. destruct E as [E | E]; apply Z.ltb_ge in E; lia.
    - eapply List.Forall_impl; [|exact IH].
      intros y [Hy1 Hy2]. split; [right; exact Hy1 | exact Hy2]. }
  pose proof (redistribute_bounds _ _ (Int64.sub cpu c') (Int64.sub mem m') Hbounds) as Hfinal.
  rewrite List.Forall_forall in Hfinal. destruct (Hfinal e Hin) as [He1 He2].
  exists (runnerSet e). auto.
Qed.

Lemma AllocateFairShare_capped_bounds_witness :
  exists rs, In rs [scenarioB_high; scenarioB_low] /\ Name rs = "low" /\
             cappedBounds rs 8.
Proof.
  apply (AllocateFairShare_capped_bounds [scenarioB_high; scenarioB_low]
           10000 (20 * Gi)
           [mkRunnerSetAllocation "high" 2; mkRunnerSetAllocation "low" 8]
           (mkRunnerSetAllocation "low" 8)).
  - vm_compute. reflexivity.
  - right. left. reflexivity.
Defined.

(** ** Quantity parsers, further *)

Lemma append_empty_r s : (s ++ "")%string = s.
Proof.
  induction s as [|c s IH]; [reflexivity|].
  change (String c (s ++ "")%string = String c s). rewrite IH. reflexivity.
Qed.

Lemma spanDigits_all s : forall acc v,
  parseDigits s acc = Some v -> spanDigits s = (s, "").
Proof.
  induction s as [|c s IH]; intros acc v; cbn [parseDigits spanDigits];
    [reflexivity|].
  destruct (isDigit c); [|discriminate].
  intros H. rewrite (IH _ _ H). reflexivity.
Qed.

(** A string that [ParseInt] reads as [n] is, as a quantity, the whole
    number [n]. *)
Lemma ParseQuantity_integer s n :
  ParseInt s = Some n -> ParseQuantity s = Some (mkQuantity n 0).
Proof.
  unfold ParseInt, ParseQuantity.
  destruct (splitSign s) as [neg body].
  unfold parseUnsigned. destruct body as [|c body]; [discriminate|].
  destruct (parseDigits (String c body) 0) as [un|] eqn:Hdigits; [|discriminate].
  rewrite (spanDigits_all _ _ _ Hdigits). cbv beta iota zeta.
  rewrite append_empty_r, Hdigits.
  cbn [suffixFactor String.length N.of_nat N.add].
  destruct ((Int64.min_int <=? (if neg then - un else un))
            && ((if neg then - un else un) <=? Int64.max_int)); [|discriminate].
  intros H; inversion H; subst. rewrite Z.mul_1_r. reflexivity.
Qed.

Lemma Value_integer n : Value (mkQuantity n 0) = n.
Proof.
  unfold Value, roundUp. cbn [unscaled scale Z.of_N Z.pow].
  rewrite Z.quot_1_r, Z.rem_1_r. reflexivity.
Qed.

Lemma MilliValue_integer n : MilliValue (mkQuantity n 0) = n * 1000.
Proof.
  unfold MilliValue, roundUp. cbn [unscaled scale Z.of_N Z.pow].
  rewrite Z.quot_1_r, Z.rem_1_r. reflexivity.
Qed.

(** X11: the annotation parser and the quantity parsers of capacity.go read
    every string alike, except a bare integer [n] given for CPU: the
    annotation is [n] millicores where [ParseCPU] returns [n] cores,
    [1000 * n] millicores, as long as [1000 * n] is an int64.  For memory
    a bare integer is [n] bytes in both. *)
Theorem parseResourceQuantityOrInt_and_quantity_parsers value :
  okValue (parseResourceQuantityOrInt value false) = valueOf (ParseMemory value) /\
  (ParseInt value = None ->
   okValue (parseResourceQuantityOrInt value true) = valueOf (ParseCPU value)) /\
  (forall n, ParseInt value = Some n -> Int64.in_range (n * 1000) ->
     parseResourceQuantityOrInt value true = Ok n /\
     ParseCPU value = inr (n * 1000) /\
     (n <> 0 -> okValue (parseResourceQuantityOrInt value true)
                <> valueOf (ParseCPU value))).
Proof.
  unfold parseResourceQuantityOrInt, ParseMemory, ParseCPU.
  destruct (ParseInt value) as [n|] eqn:Hint.
  - rewrite (ParseQuantity_integer _ _ Hint). cbn [okValue valueOf].
    rewrite Value_integer, MilliValue_integer.
    split; [reflexivity|]. split; [discriminate|].
    intros n' H _; inversion H; subst n'.
    split; [reflexivity|]. split; [reflexivity|].
    intros Hn Heq. inversion Heq. lia.
  - split; [|split; [intros _ | discriminate]];
      destruct (ParseQuantity value); reflexivity.
Qed.

Lemma parseResourceQuantityOrInt_and_quantity_parsers_witness :
  parseResourceQuantityOrInt "4" true = Ok 4 /\
  ParseCPU "4" = inr (4 * 1000) /\
  (4 <> 0 -> okValue (parseResourceQuantityOrInt "4" true) <> valueOf (ParseCPU "4")).
Proof.
  apply (proj2 (proj2 (parseResourceQuantityOrInt_and_quantity_parsers "4"))).
  - vm_compute. reflexivity.
  - unfold Int64.in_range, Int64.min_int, Int64.max_int. lia.
Defined.

(** ** Resource extractor, further *)

(** X12: extraction is refused as not enabled exactly for the sets whose
    enabled annotation is not the string "true"; the refusal comes before
    any look at the other annotations. *)
Theorem ExtractRunnerSetResources_not_enabled rs :
  ExtractRunnerSetResources rs = Err ErrNotEnabled <->
  Annotations rs !! AnnotationEnabled <> Some "true".
Proof.
  unfold ExtractRunnerSetResources.
  destruct (Annotations rs !! AnnotationEnabled) as [v|] eqn:E.
  - change (default "" (Some v)) with v.
    destruct (String.eqb_spec v "true") as [-> | Hne].
    + change (negb true) with false. cbv iota.
      split; [|congruence].
      unfold rbind, wrapErr.
      repeat match goal with
             | |- context [match ?x with _ => _ end] =>
                 lazymatch x with
                 | context [match _ with _ => _ end] => fail
                 | _ => destruct x
                 end
             end; intros H; discriminate H.
    + change (negb false) with true. cbv iota.
      split; [congruence | reflexivity].
  - cbn. split; [congruence | reflexivity].
Qed.

(** X13: a malformed priority annotation on an enabled set fails the
    extraction as an invalid priority, whatever the CPU and memory
    annotations and the pod template hold. *)
Theorem ExtractRunnerSetResources_invalid_priority rs priorityStr :
  Annotations rs !! AnnotationEnabled = Some "true" ->
  Annotations rs !! AnnotationPriority = Some priorityStr ->
  Atoi priorityStr = None ->
  ExtractRunnerSetResources rs = Err ErrInvalidPriority.
Proof.
  intros He Hp Ha. unfold ExtractRunnerSetResources.
  rewrite He, Hp, Ha. reflexivity.
Qed.

Lemma ExtractRunnerSetResources_invalid_priority_witness :
  ExtractRunnerSetResources (annotatedSet "ci" "high" None 0) = Err ErrInvalidPriority.
Proof.
  apply (ExtractRunnerSetResources_invalid_priority _ "high"); vm_compute; reflexivity.
Defined.

(** X14: with both resource annotations present the pod template is never
    consulted: the extraction is the same for every list of containers. *)
Theorem ExtractRunnerSetResources_annotations_win rs containers :
  is_Some (Annotations rs !! AnnotationCPU) ->
  is_Some (Annotations rs !! AnnotationMemory) ->
  ExtractRunnerSetResources (withContainers containers rs)
    = ExtractRunnerSetResources rs.
Proof.
  intros [cpuStr Hc] [memStr Hm].
  unfold ExtractRunnerSetResources, withContainers; cbn.
  rewrite Hc, Hm. reflexivity.
Qed.

Lemma ExtractRunnerSetResources_annotations_win_witness :
  ExtractRunnerSetResources
    (withContainers [mkContainer "runner" (resourceList "7" "64Gi")]
       (annotatedSet "ci" "100" (Some 10) 0))
    = ExtractRunnerSetResources (annotatedSet "ci" "100" (Some 10) 0).
Proof.
  apply ExtractRunnerSetResources_annotations_win; vm_compute; eauto.
Defined.

Lemma extractFromContainers_find resourceName parse notFound containers :
  extractFromContainers resourceName parse notFound containers =
    match find (runnerRequest resourceName) containers with
    | Some container => parse (resourceOf (Requests container) resourceName)
    | None => Err notFound
    end.
Proof.
  induction containers as [|c rest IH]; cbn [extractFromContainers find];
    [reflexivity|].
  unfold runnerRequest at 1.
  destruct (String.eqb (container_Name c) "runner"); cbn [andb]; [|exact IH].
  destruct (Requests c !! resourceName) eqn:E; [|exact IH].
  unfold resourceOf. rewrite E. reflexivity.
Qed.

(** X15: without resource annotations the values come from the pod template:
    the CPU of the first container named "runner" that requests cpu, in
    millicores, and the memory of the first one that requests memory, in
    bytes; other containers are passed over.  When no such container
    exists the extraction fails. *)
Theorem ExtractRunnerSetResources_template_fallback rs :
  Annotations rs !! AnnotationEnabled = Some "true" ->
  Annotations rs !! AnnotationPriority = None ->
  Annotations rs !! AnnotationCPU = None ->
  Annotations rs !! AnnotationMemory = None ->
  ExtractRunnerSetResources rs =
    match find (runnerRequest "cpu") (Spec_Containers rs),
          find (runnerRequest "memory") (Spec_Containers rs) with
    | None, _ => Err (ErrCPUNotSpecified ErrNoCPURequest)
    | Some _, None => Err (ErrMemoryNotSpecified ErrNoMemoryRequest)
    | Some c, Some m =>
        Ok (mkRunnerSetResources (ars_Name rs)
              (MilliValue (resourceOf (Requests c) "cpu"))
              (Value (resourceOf (Requests m) "memory"))
              0 0 (default 0 (Spec_MaxRunners rs)) (default 0 (Spec_MaxRunners rs)))
    end.
Proof.
  intros He Hp Hc Hm. unfold ExtractRunnerSetResources.
  rewrite He, Hp, Hc, Hm. cbn [default String.eqb negb].
  replace (String.eqb "true" "true") with true by reflexivity. cbn [negb rbind].
  unfold extractCPUFromPodSpec, extractMemoryFromPodSpec.
  rewrite !extractFromContainers_find.
  destruct (find (runnerRequest "cpu") (Spec_Containers rs)); [|reflexivity].
  destruct (find (runnerRequest "memory") (Spec_Containers rs)); reflexivity.
Qed.

Lemma ExtractRunnerSetResources_template_fallback_witness :
  ExtractRunnerSetResources
    (templateSet [mkContainer "init" (resourceList "100m" "64Mi");
                  mkContainer "runner" (resourceList "2" "8Gi")])
    = Ok (mkRunnerSetResources "from-template" 2000 (8 * Gi) 0 0 4 4).
Proof.
  rewrite ExtractRunnerSetResources_template_fallback by (vm_compute; reflexivity).
  vm_compute. reflexivity.
Defined.

(** ** Capacity calculator, further *)

Lemma fold_addNode_totals nodes : forall cpu mem count,
  fold_left addNode nodes (Int64.wrap cpu, Int64.wrap mem, Int64.wrap count)
    = (Int64.wrap (cpu + sumZ (map allocatableCPU (List.filter nodeReady nodes))),
       Int64.wrap (mem + sumZ (map allocatableMemory (List.filter nodeReady nodes))),
       Int64.wrap (count + Z.of_nat (length (List.filter nodeReady nodes)))).
Proof.
  induction nodes as [|node rest IH]; intros cpu mem count;
    cbn [fold_left List.filter].
  - cbn. rewrite !Z.add_0_r. reflexivity.
  - unfold addNode at 2. fold (nodeReady node).
    destruct (nodeReady node); cbn [negb]; [|apply IH].
    unfold Int64.add. rewrite !wrap_add_l, IH.
    fold (allocatableCPU node). fold (allocatableMemory node).
    cbn [map length]. rewrite Nat2Z.inj_succ.
    change (sumZ (allocatableCPU node :: ?l)) with (allocatableCPU node + sumZ l).
    unfold sumZ; cbn [fold_right].
    f_equal; [f_equal|]; f_equal; lia.
Qed.

(** X16: [getClusterCapacity] fails when the node listing fails and otherwise
    returns the allocatable CPU and memory summed over the nodes whose
    Ready condition is "True", with their count; nodes in any other state
    add nothing. *)
Theorem getClusterCapacity_ready_nodes c :
  getClusterCapacity c =
    if fails c ListNodes then Err ErrListNodes
    else Ok (Int64.wrap (sumZ (map allocatableCPU (List.filter nodeReady (Nodes c)))),
             Int64.wrap (sumZ (map allocatableMemory (List.filter nodeReady (Nodes c)))),
             Int64.wrap (Z.of_nat (length (List.filter nodeReady (Nodes c))))).
Proof.
  unfold getClusterCapacity. destruct (fails c ListNodes); [reflexivity|].
  change (0, 0, 0) with (Int64.wrap 0, Int64.wrap 0, Int64.wrap 0).
  rewrite fold_addNode_totals. reflexivity.
Qed.

(** X17: the capacity only depends on the ready nodes and on the pods that are
    neither terminated nor runner pods: two clusters that agree on those
    (and on whether the listings fail) get the same result.  Starting,
    finishing or resizing runner pods never changes the capacity the
    allocator is given. *)
Theorem Calculate_counted_only cpuBuf memBuf c1 c2 :
  fails c1 ListNodes = fails c2 ListNodes ->
  fails c1 ListPods = fails c2 ListPods ->
  List.filter nodeReady (Nodes c1) = List.filter nodeReady (Nodes c2) ->
  List.filter countsAsUsed (Pods c1) = List.filter countsAsUsed (Pods c2) ->
  Calculate cpuBuf memBuf c1 = Calculate cpuBuf memBuf c2.
Proof.
  intros Hfn Hfp Hnodes Hpods. unfold Calculate.
  unfold getClusterCapacity. rewrite Hfn.
  destruct (fails c2 ListNodes); cbn [wrapErr rbind]; [reflexivity|].
  change (0, 0, 0) with (Int64.wrap 0, Int64.wrap 0, Int64.wrap 0).
  rewrite !fold_addNode_totals, Hnodes. cbn [wrapErr rbind].
  unfold getCurrentUsage. rewrite Hfp.
  destruct (fails c2 ListPods); cbn [wrapErr rbind]; [reflexivity|].
  destruct (fold_addPod_used (Pods c1) (mkUsage 0 0 0 0 0 0) 0 0) as [H1c H1m];
    [reflexivity | reflexivity |].
  destruct (fold_addPod_used (Pods c2) (mkUsage 0 0 0 0 0 0) 0 0) as [H2c H2m];
    [reflexivity | reflexivity |].
  rewrite H1c, H1m, H2c, H2m, Hpods. reflexivity.
Qed.

Lemma Calculate_counted_only_witness :
  Calculate 10 10 scenarioE_busy = Calculate 10 10 scenarioE.
Proof.
  apply Calculate_counted_only; vm_compute; reflexivity.
Defined.

Lemma applyBuffer_bounds raw bufferPercent :
  0 <= bufferPercent <= 100 -> 0 <= raw -> 100 * raw <= Int64.max_int ->
  0 <= applyBuffer raw bufferPercent <= raw.
Proof.
  intros Hb Hr Hmax. rewrite applyBuffer_exact by assumption.
  rewrite Z.quot_div_nonneg by nia. split.
  - apply Z.div_pos; nia.
  - apply Z.div_le_upper_bound; nia.
Qed.

(** X18: with buffers between 0 and 100 percent and totals a hundred times
    below the int64 limit, the available CPU and memory are never
    negative and never more than what the nodes offer beyond the used
    requests; they are 0 when the used requests reach the total. *)
Theorem Calculate_available_bounds cpuBuf memBuf c cap :
  Calculate cpuBuf memBuf c = Ok cap ->
  0 <= cpuBuf <= 100 -> 0 <= memBuf <= 100 ->
  0 <= UsedCPUMillis cap -> 0 <= UsedMemoryBytes cap ->
  0 <= TotalCPUMillis cap -> 0 <= TotalMemoryBytes cap ->
  100 * TotalCPUMillis cap <= Int64.max_int ->
  100 * TotalMemoryBytes cap <= Int64.max_int ->
  0 <= AvailableCPUMillis cap <= Z.max (TotalCPUMillis cap - UsedCPUMillis cap) 0 /\
  0 <= AvailableMemoryBytes cap
    <= Z.max (TotalMemoryBytes cap - UsedMemoryBytes cap) 0 /\
  (TotalCPUMillis cap <= UsedCPUMillis cap -> AvailableCPUMillis cap = 0) /\
  (TotalMemoryBytes cap <= UsedMemoryBytes cap -> AvailableMemoryBytes cap = 0).
Proof.
  intros Hcalc Hcb Hmb Huc Hum Htc Htm Hc100 Hm100.
  destruct (Calculate_shape _ _ _ _ Hcalc) as (_ & HuC & HuM & HaC & HaM).
  destruct (fold_addPod_used (Pods c) (mkUsage 0 0 0 0 0 0) 0 0) as [Hsc Hsm];
    [reflexivity | reflexivity |].
  assert (Hraw : forall total used, 0 <= used -> 0 <= total ->
             100 * total <= Int64.max_int -> Int64.in_range used ->
             Z.max (Int64.sub total used) 0 = Z.max (total - used) 0).
  { intros total used H0 H1 H2 H3. unfold Int64.sub.
    rewrite wrap_in_range; [reflexivity|].
    unfold Int64.in_range, Int64.min_int, Int64.max_int in *. lia. }
  assert (HrC : Int64.in_range (UsedCPUMillis cap))
    by (rewrite HuC, Hsc; apply wrap_range).
  assert (HrM : Int64.in_range (UsedMemoryBytes cap))
    by (rewrite HuM, Hsm; apply wrap_range).
  rewrite HaC, HaM, !Hraw by assumption.
  pose proof (applyBuffer_bounds (Z.max (TotalCPUMillis cap - UsedCPUMillis cap) 0)
                cpuBuf Hcb ltac:(lia) ltac:(lia)) as HbC.
  pose proof (applyBuffer_bounds (Z.max (TotalMemoryBytes cap - UsedMemoryBytes cap) 0)
                memBuf Hmb ltac:(lia) ltac:(lia)) as HbM.
  repeat split; lia.
Qed.

Lemma Calculate_available_bounds_witness :
  0 <= AvailableCPUMillis scenarioE_capacity <= Z.max (10000 - 2000) 0 /\
  0 <= AvailableMemoryBytes scenarioE_capacity <= Z.max (20 * Gi - 4 * Gi) 0.
Proof.
  destruct (Calculate_available_bounds 10 10 scenarioE scenarioE_capacity)
    as (Hcpu & Hmem & _).
  - vm_compute. reflexivity.
  - lia.
  - lia.
  - simpl. lia.
  - simpl. unfold Gi. lia.
  - simpl. lia.
  - simpl. unfold Gi. lia.
  - simpl. unfold Int64.max_int. lia.
  - simpl. unfold Int64.max_int, Gi. lia.
  - split; [exact Hcpu | exact Hmem].
Defined.

(** ** Reconciler, further *)

(** X19: a tick returns an error exactly when listing the nodes, the pods or,
    cluster-wide, the runner sets fails; it then has taken no decision
    and changed nothing.  Refused patches and namespaces that cannot be
    listed never make the tick fail. *)
Theorem ReconcileOnce_error cfg c :
  (fst (fst (ReconcileOnce cfg c)) <> None <-> listingFails cfg c = true) /\
  (fst (fst (ReconcileOnce cfg c)) <> None ->
   snd (fst (ReconcileOnce cfg c)) = c /\ snd (ReconcileOnce cfg c) = []).
Proof.
  unfold ReconcileOnce, Calculate, getClusterCapacity, getCurrentUsage,
    listRunnerSets, listingFails.
  destruct (fails c ListNodes); cbn [wrapErr rbind orb fst snd];
    [split; [split; [reflexivity | discriminate] | auto]|].
  destruct (fold_left addNode (Nodes c) (0, 0, 0)) as [[totalCPU totalMemory] n].
  destruct (fails c ListPods); cbn [wrapErr rbind orb fst snd];
    [split; [split; [reflexivity | discriminate] | auto]|].
  destruct (Namespaces cfg) as [|ns nss].
  - destruct (fails c (ListRunnerSets None)); cbn [wrapErr fst snd];
      [split; [split; [reflexivity | discriminate] | auto]|].
    destruct (RunnerSets c) as [|rs0 rest]; cbn [fst snd];
      [split; [split; [congruence | discriminate] | congruence]|].
    destruct (extractEnabled (rs0 :: rest)); cbn [fst snd];
      [split; [split; [congruence | discriminate] | congruence]|].
    destruct (fold_left _ _ _) as [c' log]; cbn [fst snd].
    split; [split; [congruence | discriminate] | congruence].
  - cbn [wrapErr].
    destruct (flat_map _ (ns :: nss)) as [|rs0 rest]; cbn [fst snd];
      [split; [split; [congruence | discriminate] | congruence]|].
    destruct (extractEnabled (rs0 :: rest)); cbn [fst snd];
      [split; [split; [congruence | discriminate] | congruence]|].
    destruct (fold_left _ _ _) as [c' log]; cbn [fst snd].
    split; [split; [congruence | discriminate] | congruence].
Qed.

Lemma ReconcileOnce_error_witness :
  snd (fst (ReconcileOnce DefaultConfig
              (mkClient [] [] [scenarioC_set] (fun call => true))))
    = mkClient [] [] [scenarioC_set] (fun call => true) /\
  snd (ReconcileOnce DefaultConfig
         (mkClient [] [] [scenarioC_set] (fun call => true))) = [].
Proof.
  apply (proj2 (ReconcileOnce_error DefaultConfig
                  (mkClient [] [] [scenarioC_set] (fun call => true)))).
  vm_compute. discriminate.
Defined.

(** *** What a tick leaves alone *)

Lemma applyAllocation_frame cfg runnerSets c log alloc :
  let c' := fst (applyAllocation cfg runnerSets (c, log) alloc) in
  Nodes c' = Nodes c /\ Pods c' = Pods c /\ fails c' = fails c /\
  map (setMaxRunners 0) (RunnerSets c') = map (setMaxRunners 0) (RunnerSets c).
Proof.
  unfold applyAllocation.
  destruct (findRunnerSet (alloc_Name alloc) runnerSets) as [rs|]; [|cbn; auto].
  match goal with
  | |- context [if ?b then _ else _] => destruct b; [cbn; auto|]
  end.
  destruct (DryRun cfg); [cbn; auto|].
  unfold updateRunnerSet.
  destruct (fails c (PatchRunnerSet _ _)); cbn [fst]; [auto|].
  cbn [Nodes Pods fails RunnerSets]. repeat split.
  rewrite map_map. apply map_ext. intros x. unfold patchObject.
  destruct (_ && _); reflexivity.
Qed.

Lemma applyAllocations_frame cfg runnerSets allocations : forall c log,
  let c' := fst (fold_left (applyAllocation cfg runnerSets) allocations (c, log)) in
  Nodes c' = Nodes c /\ Pods c' = Pods c /\ fails c' = fails c /\
  map (setMaxRunners 0) (RunnerSets c') = map (setMaxRunners 0) (RunnerSets c).
Proof.
  induction allocations as [|alloc rest IH]; intros c log; cbn [fold_left].
  - cbn. auto.
  - pose proof (applyAllocation_frame cfg runnerSets c log alloc) as Hstep.
    destruct (applyAllocation cfg runnerSets (c, log) alloc) as [c1 log1].
    cbn [fst] in Hstep. cbv zeta in Hstep.
    destruct Hstep as (H1 & H2 & H3 & H4).
    specialize (IH c1 log1). cbv zeta in IH. destruct IH as (I1 & I2 & I3 & I4).
    cbv zeta. rewrite I1, I2, I3, I4. auto.
Qed.

(** X20: a tick changes nothing but the maxRunners of runner sets: nodes, pods
    and the behaviour of the API are as before, and so is every runner
    set once its maxRunners is disregarded.  The capacity computed by the
    next tick is therefore the same. *)
Theorem ReconcileOnce_frame cfg c :
  let c' := snd (fst (ReconcileOnce cfg c)) in
  Nodes c' = Nodes c /\ Pods c' = Pods c /\ fails c' = fails c /\
  map (setMaxRunners 0) (RunnerSets c') = map (setMaxRunners 0) (RunnerSets c) /\
  (forall cpuBuf memBuf, Calculate cpuBuf memBuf c' = Calculate cpuBuf memBuf c).
Proof.
  pose proof (ReconcileOnce_fold cfg c) as Hfold.
  pose proof (applyAllocations_frame cfg (tickListing cfg c) (tickAllocations cfg c) c [])
    as Hframe.
  rewrite <- Hfold in Hframe. cbn [fst] in Hframe. cbv zeta in *.
  destruct Hframe as (H1 & H2 & H3 & H4).
  repeat split; try assumption.
  intros cpuBuf memBuf.
  unfold Calculate, getClusterCapacity, getCurrentUsage. rewrite H1, H2, H3.
  reflexivity.
Qed.

(** *** Dry run *)

Lemma applyAllocation_reported dry live runnerSets c1 log1 c2 log2 alloc :
  map reported log1 = map reported log2 ->
  map reported (snd (applyAllocation dry runnerSets (c1, log1) alloc))
    = map reported (snd (applyAllocation live runnerSets (c2, log2) alloc)).
Proof.
  intros Hlogs. unfold applyAllocation.
  destruct (findRunnerSet (alloc_Name alloc) runnerSets) as [rs|]; [|exact Hlogs].
  match goal with
  | |- context [if ?b then _ else _] => destruct b eqn:Esame
  end.
  { cbn [snd]. rewrite !map_app, Hlogs. reflexivity. }
  destruct (DryRun dry), (DryRun live);
    repeat match goal with
           | |- context [match updateRunnerSet ?c ?rs ?m with _ => _ end] =>
               destruct (updateRunnerSet c rs m)
           end;
    cbn [snd]; rewrite !map_app, Hlogs; reflexivity.
Qed.

Lemma applyAllocations_reported dry live runnerSets allocations :
  forall c1 log1 c2 log2,
  map reported log1 = map reported log2 ->
  map reported (snd (fold_left (applyAllocation dry runnerSets) allocations (c1, log1)))
    = map reported (snd (fold_left (applyAllocation live runnerSets) allocations (c2, log2))).
Proof.
  induction allocations as [|alloc rest IH]; intros c1 log1 c2 log2 Hlogs;
    cbn [fold_left]; [exact Hlogs|].
  pose proof (applyAllocation_reported dry live runnerSets c1 log1 c2 log2 alloc Hlogs)
    as Hstep.
  destruct (applyAllocation dry runnerSets (c1, log1) alloc) as [c1' log1'].
  destruct (applyAllocation live runnerSets (c2, log2) alloc) as [c2' log2'].
  apply IH. exact Hstep.
Qed.

(** X21: a dry run sends no patch and leaves the cluster as it is, and it
    reports the decisions of the live run: the same sets with the same
    calculated, old, running and new values, marked as changes exactly
    where the live run sends a patch. *)
Theorem ReconcileOnce_dry_run cfg c :
  snd (fst (ReconcileOnce (withDryRun true cfg) c)) = c /\
  patchCalls (snd (ReconcileOnce (withDryRun true cfg) c)) = 0%nat /\
  map reported (snd (ReconcileOnce (withDryRun true cfg) c))
    = map reported (snd (ReconcileOnce (withDryRun false cfg) c)).
Proof.
  pose proof (ReconcileOnce_fold (withDryRun true cfg) c) as Hdry.
  pose proof (ReconcileOnce_fold (withDryRun false cfg) c) as Hlive.
  change (tickListing (withDryRun true cfg) c) with (tickListing cfg c) in Hdry.
  change (tickAllocations (withDryRun true cfg) c) with (tickAllocations cfg c) in Hdry.
  change (tickListing (withDryRun false cfg) c) with (tickListing cfg c) in Hlive.
  change (tickAllocations (withDryRun false cfg) c) with (tickAllocations cfg c) in Hlive.
  assert (Hquiet : forall allocations c0 log,
             fst (fold_left (applyAllocation (withDryRun true cfg) (tickListing cfg c))
                    allocations (c0, log)) = c0 /\
             patchCalls (snd (fold_left (applyAllocation (withDryRun true cfg)
                                           (tickListing cfg c))
                                allocations (c0, log))) = patchCalls log).
  { induction allocations as [|alloc rest IH]; intros c0 log; cbn [fold_left];
      [auto|].
    assert (Hstep : exists log',
               applyAllocation (withDryRun true cfg) (tickListing cfg c) (c0, log) alloc
                 = (c0, log') /\ patchCalls log' = patchCalls log).
    { unfold applyAllocation.
      destruct (findRunnerSet (alloc_Name alloc) (tickListing cfg c)); [|eauto].
      match goal with
      | |- context [if ?b then _ else _] => destruct b
      end; cbn [DryRun withDryRun]; eexists; (split; [reflexivity|]);
        unfold patchCalls; rewrite List.filter_app, List.length_app; cbn; lia. }
    destruct Hstep as (log' & -> & Hcalls). rewrite <- Hcalls. apply IH. }
  destruct (Hquiet (tickAllocations cfg c) c []) as [Hc Hp].
  rewrite <- Hdry in Hc, Hp. cbn [fst snd] in Hc, Hp.
  split; [exact Hc|]. split; [exact Hp|].
  pose proof (applyAllocations_reported (withDryRun true cfg) (withDryRun false cfg)
                (tickListing cfg c) (tickAllocations cfg c) c [] c [] eq_refl) as Hrep.
  rewrite <- Hdry, <- Hlive in Hrep. exact Hrep.
Qed.

(** *** Which sets a tick decides on *)

Lemma allocateLoop_names sorted : forall cpu mem,
  map alloc_Name (allocateLoop sorted cpu mem) = map Name sorted.
Proof.
  induction sorted as [|rs rest IH]; intros cpu mem; cbn [allocateLoop map];
    [reflexivity|].
  destruct (allocateStep rs cpu mem) as [[n cpu'] mem']. cbn [map alloc_Name].
  rewrite IH. reflexivity.
Qed.

Lemma floored_names runnerSets allocations log :
  Forall2 (floored runnerSets) allocations log ->
  map d_name log = map alloc_Name allocations.
Proof.
  induction 1 as [|a d l l' Hd _ IH]; cbn [map]; [reflexivity|].
  destruct Hd as (rs & _ & Hname & _). rewrite Hname, IH. reflexivity.
Qed.

(** X22: when its listings succeed, a tick takes its decisions for the runner
    sets whose extraction succeeds and for no other, one decision each,
    in the order in which the allocator serves them. *)
Theorem ReconcileOnce_decides_enabled cfg c :
  listingFails cfg c = false ->
  map d_name (snd (ReconcileOnce cfg c))
    = map Name (sortRunnerSets (extractEnabled (tickListing cfg c))).
Proof.
  intros Hok. rewrite (floored_names _ _ _ (ReconcileOnce_log cfg c)).
  unfold tickAllocations, Calculate, getClusterCapacity, getCurrentUsage.
  unfold listingFails in Hok.
  destruct (fails c ListNodes); [discriminate|].
  destruct (fails c ListPods); [discriminate|].
  cbn [wrapErr rbind].
  destruct (fold_left addNode (Nodes c) (0, 0, 0)) as [[totalCPU totalMemory] n].
  cbn [rbind]. apply allocateLoop_names.
Qed.

Lemma ReconcileOnce_decides_enabled_witness :
  map d_name (snd (ReconcileOnce DefaultConfig twoSets)) = ["first"; "second"].
Proof.
  rewrite (ReconcileOnce_decides_enabled DefaultConfig twoSets) by reflexivity.
  vm_compute. reflexivity.
Defined.

(** *** The cluster after a tick *)

Lemma patchObject_name namespace name m rs :
  ars_Name (patchObject namespace name m rs) = ars_Name rs.
Proof. unfold patchObject. destruct (_ && _); reflexivity. Qed.

Lemma findRunnerSet_patched wanted namespace name m l :
  findRunnerSet wanted (map (patchObject namespace name m) l)
    = option_map (patchObject namespace name m) (findRunnerSet wanted l).
Proof.
  induction l as [|rs rest IH]; cbn [map findRunnerSet]; [reflexivity|].
  rewrite patchObject_name.
  destruct (String.eqb (ars_Name rs) wanted); [reflexivity | exact IH].
Qed.

Lemma findRunnerSet_patched_other wanted namespace name m l :
  wanted <> name ->
  findRunnerSet wanted (map (patchObject namespace name m) l) = findRunnerSet wanted l.
Proof.
  intros Hne. rewrite findRunnerSet_patched.
  destruct (findRunnerSet wanted l) as [rs|] eqn:E; [|reflexivity].
  destruct (findRunnerSet_In _ _ _ E) as [_ Hname]. cbn [option_map].
  unfold patchObject.
  replace (String.eqb (ars_Name rs) name) with false
    by (symmetry; apply String.eqb_neq; congruence).
  rewrite andb_false_r. reflexivity.
Qed.

(** One step of the loop leaves every set of another name as it finds
    it. *)
Lemma applyAllocation_other cfg runnerSets c log alloc wanted :
  wanted <> alloc_Name alloc ->
  findRunnerSet wanted (RunnerSets (fst (applyAllocation cfg runnerSets (c, log) alloc)))
    = findRunnerSet wanted (RunnerSets c).
Proof.
  intros Hne. unfold applyAllocation.
  destruct (findRunnerSet (alloc_Name alloc) runnerSets) as [rs|] eqn:Efind;
    [|reflexivity].
  match goal with
  | |- context [if ?b then _ else _] => destruct b; [reflexivity|]
  end.
  destruct (DryRun cfg); [reflexivity|].
  unfold updateRunnerSet.
  destruct (fails c (PatchRunnerSet _ _)); cbn [fst RunnerSets]; [reflexivity|].
  apply findRunnerSet_patched_other.
  destruct (findRunnerSet_In _ _ _ Efind) as [_ Hname]. congruence.
Qed.

(** One live step on a set that is still as listed: its decision, unless
    the patch was refused, is in effect afterwards. *)
Lemma applyAllocation_effect cfg runnerSets c log alloc :
  DryRun cfg = false ->
  findRunnerSet (alloc_Name alloc) (RunnerSets c)
    = findRunnerSet (alloc_Name alloc) runnerSets ->
  let '(c', log') := applyAllocation cfg runnerSets (c, log) alloc in
  log' = log \/
  exists d, log' = log ++ [d] /\ d_name d = alloc_Name alloc /\
            (d_action d <> PatchFailed -> inEffect c' d).
Proof.
  intros Hlive Hsame. unfold applyAllocation.
  destruct (findRunnerSet (alloc_Name alloc) runnerSets) as [rs|] eqn:Efind;
    [|left; reflexivity].
  set (running := Status_CurrentRunners rs).
  set (newMax := if alloc_MaxRunners alloc <? running
                 then running else alloc_MaxRunners alloc).
  assert (Hfloor : running <= newMax).
  { unfold newMax. destruct (alloc_MaxRunners alloc <? running) eqn:E;
      [apply Z.ltb_lt in E | apply Z.ltb_ge in E]; lia. }
  destruct (default 0 (Spec_MaxRunners rs) =? newMax) eqn:Esame.
  { apply Z.eqb_eq in Esame. right. eexists. split; [reflexivity|].
    split; [reflexivity|]. intros _. exists rs. cbn [d_name new_max currently_running].
    repeat split; [exact Hsame | exact Esame | fold running; lia]. }
  rewrite Hlive. unfold updateRunnerSet.
  destruct (fails c (PatchRunnerSet _ _)); right; eexists;
    (split; [reflexivity|]); (split; [reflexivity|]); cbn [d_action].
  { intros H; contradiction. }
  intros _. exists (setMaxRunners newMax rs).
  cbn [d_name new_max currently_running RunnerSets setMaxRunners
       Spec_MaxRunners Status_CurrentRunners].
  change (default 0 (Some newMax)) with newMax.
  repeat split; [|fold running; lia].
  rewrite findRunnerSet_patched, Hsame. cbn [option_map]. unfold patchObject.
  destruct (findRunnerSet_In _ _ _ Efind) as [_ Hname].
  rewrite !String.eqb_refl. reflexivity.
Qed.

Lemma inEffect_same_lookup c c' d :
  findRunnerSet (d_name d) (RunnerSets c') = findRunnerSet (d_name d) (RunnerSets c) ->
  inEffect c d -> inEffect c' d.
Proof.
  intros Hsame (rs & Hfind & H). exists rs. rewrite Hsame. auto.
Qed.

Lemma applyAllocations_effect cfg runnerSets allocations : forall c log,
  DryRun cfg = false ->
  List.NoDup (map alloc_Name allocations) ->
  (forall alloc, In alloc allocations ->
     findRunnerSet (alloc_Name alloc) (RunnerSets c)
       = findRunnerSet (alloc_Name alloc) runnerSets) ->
  (forall d, In d log -> ~ In (d_name d) (map alloc_Name allocations)) ->
  (forall d, In d log -> d_action d <> PatchFailed -> inEffect c d) ->
  let '(c', log') := fold_left (applyAllocation cfg runnerSets) allocations (c, log) in
  forall d, In d log' -> d_action d <> PatchFailed -> inEffect c' d.
Proof.
  induction allocations as [|alloc rest IH]; intros c log Hlive Hnodup Hsame Hfresh Hdone;
    cbn [fold_left]; [exact Hdone|].
  inversion Hnodup as [|? ? Hnotin Hnodup']; subst.
  pose proof (applyAllocation_effect cfg runnerSets c log alloc Hlive
                (Hsame alloc (or_introl eq_refl))) as Hstep.
  assert (Hother : forall wanted, wanted <> alloc_Name alloc ->
             findRunnerSet wanted
               (RunnerSets (fst (applyAllocation cfg runnerSets (c, log) alloc)))
               = findRunnerSet wanted (RunnerSets c))
    by (intros; apply applyAllocation_other; assumption).
  destruct (applyAllocation cfg runnerSets (c, log) alloc) as [c1 log1].
  cbn [fst] in Hother.
  assert (Hold : forall d, In d log -> d_action d <> PatchFailed -> inEffect c1 d).
  { intros d Hd Hact. apply (inEffect_same_lookup c); [|auto].
    apply Hother. intros Heq. apply (Hfresh d Hd). left. congruence. }
  apply IH; try assumption.
  - intros a Ha. rewrite Hother; [apply Hsame; right; exact Ha|].
    intros Heq. apply Hnotin. rewrite <- Heq. apply in_map. exact Ha.
  - intros d Hd Hin.
    destruct Hstep as [-> | (d0 & -> & Hname & _)].
    + apply (Hfresh d Hd). right. exact Hin.
    + apply in_app_or in Hd. destruct Hd as [Hd | [<- | []]].
      * apply (Hfresh d Hd). right. exact Hin.
      * apply Hnotin. rewrite <- Hname. exact Hin.
  - intros d Hd Hact.
    destruct Hstep as [-> | (d0 & -> & Hname & Heff)]; [auto|].
    apply in_app_or in Hd. destruct Hd as [Hd | [<- | []]]; auto.
Qed.

Lemma extractEnabled_NoDup runnerSets :
  List.NoDup (map ars_Name runnerSets) -> List.NoDup (map Name (extractEnabled runnerSets)).
Proof.
  induction runnerSets as [|rs rest IH]; cbn [map extractEnabled]; [constructor|].
  intros Hnd. inversion Hnd as [|? ? Hnotin Hrest]; subst.
  destruct (ExtractRunnerSetResources rs) as [r|e] eqn:E; [|auto].
  cbn [map]. constructor; [|auto].
  intros Hin. apply in_map_iff in Hin. destruct Hin as (r' & Hname & Hr').
  destruct (extractEnabled_name _ _ Hr') as (rs' & Hrs' & Hn').
  apply Hnotin. destruct (ExtractRunnerSetResources_fields _ _ E) as [Hn _].
  rewrite <- Hn, <- Hname, <- Hn'. apply in_map. exact Hrs'.
Qed.

(** X23: after a live tick over the whole cluster (no namespace filter) whose
    runner sets have distinct names, every decision whose patch was not
    refused is in effect: the set holds the decided maxRunners, and that
    is not below the runners it has running. *)
Theorem ReconcileOnce_decisions_in_effect cfg c d :
  Namespaces cfg = [] -> DryRun cfg = false ->
  List.NoDup (map ars_Name (RunnerSets c)) ->
  In d (snd (ReconcileOnce cfg c)) -> d_action d <> PatchFailed ->
  inEffect (snd (fst (ReconcileOnce cfg c))) d.
Proof.
  intros Hns Hlive Hnodup Hin Hact.
  pose proof (ReconcileOnce_fold cfg c) as Hfold.
  assert (Hlisting : tickListing cfg c = RunnerSets c \/ tickListing cfg c = []).
  { unfold tickListing, listRunnerSets. rewrite Hns.
    destruct (fails c (ListRunnerSets None)); auto. }
  assert (Hallocs : List.NoDup (map alloc_Name (tickAllocations cfg c))).
  { unfold tickAllocations. destruct (Calculate _ _ c); [|constructor].
    unfold Allocate. rewrite allocateLoop_names.
    eapply Permutation_NoDup;
      [apply Permutation_map, sortSlice_perm|].
    apply extractEnabled_NoDup.
    destruct Hlisting as [-> | ->]; [exact Hnodup | constructor]. }
  destruct Hlisting as [Hl | Hl].
  - pose proof (applyAllocations_effect cfg (tickListing cfg c) (tickAllocations cfg c)
                  c [] Hlive Hallocs) as Heff.
    rewrite <- Hfold in Heff. apply Heff; try assumption.
    + intros a _. rewrite Hl. reflexivity.
    + intros d0 [].
    + intros d0 [].
  - assert (Hempty : tickAllocations cfg c = []).
    { unfold tickAllocations. rewrite Hl. destruct (Calculate _ _ c); reflexivity. }
    rewrite Hempty in Hfold. cbn [fold_left] in Hfold.
    apply (f_equal snd) in Hfold. cbn [snd] in Hfold.
    rewrite Hfold in Hin. contradiction.
Qed.

Lemma ReconcileOnce_decisions_in_effect_witness :
  inEffect (snd (fst (ReconcileOnce DefaultConfig twoSets)))
           (mkDecision "first" 2 2 5 5 Patched).
Proof.
  apply (ReconcileOnce_decisions_in_effect DefaultConfig twoSets).
  - reflexivity.
  - reflexivity.
  - repeat constructor; cbn; intuition discriminate.
  - vm_compute. left. reflexivity.
  - discriminate.
Defined.

(** *** What a tick computes *)

Lemma extractEnabled_source runnerSets r :
  In r (extractEnabled runnerSets) ->
  exists rs, In rs runnerSets /\ ExtractRunnerSetResources rs = Ok r.
Proof.
  induction runnerSets as [|rs rest IH]; cbn [extractEnabled]; [contradiction|].
  destruct (ExtractRunnerSetResources rs) as [r0|e] eqn:E.
  - intros [<- | Hin].
    + exists rs. split; [left; reflexivity | exact E].
    + destruct (IH Hin) as (rs' & ? & ?). exists rs'. split; [right|]; assumption.
  - intros Hin. destruct (IH Hin) as (rs' & ? & ?). exists rs'. split; [right|]; assumption.
Qed.

Lemma extractEnabled_no_minimum runnerSets :
  Forall (fun r => MinRunners r = 0) (extractEnabled runnerSets).
Proof.
  apply List.Forall_forall. intros r Hr.
  destruct (extractEnabled_source _ _ Hr) as (rs & _ & Hex).
  apply (ExtractRunnerSetResources_fields _ _ Hex).
Qed.

(** X24: the allocations a tick computes never commit more CPU or memory than
    the capacity the tick computed, when that capacity is not negative:
    what the reconciler extracts carries no minimum, so only the safety
    floor can take a set beyond the capacity. *)
Theorem ReconcileOnce_allocations_feasible cfg c cap :
  Calculate (CPUBufferPercent cfg) (MemoryBufferPercent cfg) c = Ok cap ->
  0 <= AvailableCPUMillis cap -> 0 <= AvailableMemoryBytes cap ->
  committed CPUMillis (sortRunnerSets (extractEnabled (tickListing cfg c)))
            (tickAllocations cfg c) <= AvailableCPUMillis cap /\
  committed MemoryBytes (sortRunnerSets (extractEnabled (tickListing cfg c)))
            (tickAllocations cfg c) <= AvailableMemoryBytes cap.
Proof.
  intros Hcalc Hcpu Hmem. unfold tickAllocations. rewrite Hcalc.
  destruct (Calculate_shape _ _ _ _ Hcalc) as (_ & _ & _ & HaC & HaM).
  assert (HrC : AvailableCPUMillis cap <= Int64.max_int)
    by (rewrite HaC; unfold applyBuffer, Int64.quot; apply wrap_range).
  assert (HrM : AvailableMemoryBytes cap <= Int64.max_int)
    by (rewrite HaM; unfold applyBuffer, Int64.quot; apply wrap_range).
  apply allocateLoop_feasible; [|lia|lia].
  eapply Permutation_Forall; [apply sortSlice_perm | apply extractEnabled_no_minimum].
Qed.

Lemma ReconcileOnce_allocations_feasible_witness :
  committed CPUMillis
    (sortRunnerSets (extractEnabled (tickListing DefaultConfig twoSets)))
    (tickAllocations DefaultConfig twoSets) <= 9000.
Proof.
  apply (ReconcileOnce_allocations_feasible DefaultConfig twoSets
           (mkClusterCapacity 10000 (100 * Gi) 0 0 9000 96636764160)).
  - vm_compute. reflexivity.
  - simpl. lia.
  - simpl. lia.
Defined.

Lemma findRunnerSet_unique runnerSets rs found :
  List.NoDup (map ars_Name runnerSets) -> In rs runnerSets ->
  findRunnerSet (ars_Name rs) runnerSets = Some found -> found = rs.
Proof.
  induction runnerSets as [|rs0 rest IH]; cbn [map findRunnerSet]; [contradiction|].
  intros Hnd Hin. inversion Hnd as [|? ? Hnotin Hrest]; subst.
  destruct (String.eqb (ars_Name rs0) (ars_Name rs)) eqn:E.
  - apply String.eqb_eq in E. intros H; inversion H; subst found.
    destruct Hin as [-> | Hin]; [reflexivity|].
    exfalso. apply Hnotin. rewrite E. apply in_map. exact Hin.
  - apply String.eqb_neq in E. destruct Hin as [-> | Hin]; [congruence|].
    apply IH; assumption.
Qed.

Lemma Allocate_withinCap_In sets cpu mem a :
  In a (Allocate sets cpu mem) -> exists r, In r sets /\ withinCap r a.
Proof.
  intros Hin.
  pose proof (allocateLoop_withinCap (sortRunnerSets sets) cpu mem) as HF.
  fold (Allocate sets cpu mem) in HF.
  assert (Hex : exists r, In r (sortRunnerSets sets) /\ withinCap r a).
  { induction HF as [|r a' l l' Hra _ IH]; [contradiction|].
    destruct Hin as [<- | Hin].
    - exists r. split; [left; reflexivity | exact Hra].
    - destruct (IH Hin) as (r' & ? & ?). exists r'. split; [right|]; assumption. }
  destruct Hex as (r & Hr & Hw). exists r. split; [|exact Hw].
  eapply Permutation_in; [symmetry; apply sortSlice_perm | exact Hr].
Qed.

(** X25: a tick never raises the maxRunners of a runner set that has one: the
    set's own maxRunners is the allocator's cap, so the decided value is
    at most the old one, or the running count where the safety floor
    lifts it.  (For listings with distinct names.) *)
Theorem ReconcileOnce_never_raises cfg c d :
  List.NoDup (map ars_Name (tickListing cfg c)) ->
  In d (snd (ReconcileOnce cfg c)) -> 0 < old_max d ->
  calculated_max d <= old_max d /\
  new_max d <= Z.max (old_max d) (currently_running d).
Proof.
  intros Hnodup Hin Hold.
  pose proof (ReconcileOnce_log cfg c) as Hlog.
  assert (Hd : exists alloc, In alloc (tickAllocations cfg c) /\
                             floored (tickListing cfg c) alloc d).
  { clear -Hin Hlog. induction Hlog as [|a d' l l' Hd _ IH]; [contradiction|].
    destruct Hin as [<- | Hin].
    - exists a. split; [left; reflexivity | exact Hd].
    - destruct (IH Hin) as (a' & ? & ?). exists a'. split; [right|]; assumption. }
  destruct Hd as (alloc & Halloc & rs & Hfind & _ & Hcalc & Hrun & Hmax & Hnew & _).
  assert (Hcap : alloc_MaxRunners alloc <= default 0 (Spec_MaxRunners rs)).
  { unfold tickAllocations in Halloc.
    destruct (Calculate _ _ c) as [cap|e]; [|contradiction].
    destruct (Allocate_withinCap_In _ _ _ _ Halloc) as (r & Hr & Hname & _ & Hle).
    destruct (extractEnabled_source _ _ Hr) as (rs0 & Hrs0 & Hex).
    destruct (ExtractRunnerSetResources_fields _ _ Hex) as (Hn & _ & _ & Hcm).
    assert (rs = rs0).
    { apply (findRunnerSet_unique (tickListing cfg c)); try assumption.
      rewrite <- Hn, <- Hname. exact Hfind. }
    subst rs0. rewrite <- Hcm. apply Hle. rewrite Hcm, <- Hmax. exact Hold. }
  rewrite Hcalc, Hmax, Hnew, Hrun. lia.
Qed.

Lemma ReconcileOnce_never_raises_witness :
  calculated_max (mkDecision "first" 2 2 5 5 Patched)
    <= old_max (mkDecision "first" 2 2 5 5 Patched) /\
  new_max (mkDecision "first" 2 2 5 5 Patched)
    <= Z.max (old_max (mkDecision "first" 2 2 5 5 Patched))
             (currently_running (mkDecision "first" 2 2 5 5 Patched)).
Proof.
  apply (ReconcileOnce_never_raises DefaultConfig twoSets).
  - repeat constructor; cbn; intuition discriminate.
  - vm_compute. left. reflexivity.
  - reflexivity.
Defined.

(** ** Weighted fair share without minimums stays within the capacity *)

Lemma fit_bounds rs cpu mem :
  0 <= cpu <= Int64.max_int -> 0 <= mem <= Int64.max_int ->
  let fit := calculateMaxRunners rs cpu mem in
  0 <= fit /\
  (fit = 0 \/ (0 < CPUMillis rs /\ 0 < MemoryBytes rs /\
               fit * CPUMillis rs <= cpu /\ fit * MemoryBytes rs <= mem)).
Proof.
  intros Hcpu Hmem. cbv zeta. unfold calculateMaxRunners.
  destruct (CPUMillis rs <=? 0) eqn:E1; cbn [orb]; [lia|].
  destruct (MemoryBytes rs <=? 0) eqn:E2; cbn [orb]; [lia|].
  apply Z.leb_gt in E1, E2.
  destruct (quot_fit_bound cpu (CPUMillis rs)) as (-> & ? & ?); [lia..|].
  destruct (quot_fit_bound mem (MemoryBytes rs)) as (-> & ? & ?); [lia..|].
  split; [lia|]. right. repeat split; try lia; nia.
Qed.

(** Any number of runners up to the fit costs no more than what is
    available, and the 64-bit products are exact. *)
Lemma within_fit_cost rs cpu mem k :
  0 <= cpu <= Int64.max_int -> 0 <= mem <= Int64.max_int ->
  0 <= k <= calculateMaxRunners rs cpu mem ->
  Int64.mul k (CPUMillis rs) = k * CPUMillis rs /\
  Int64.mul k (MemoryBytes rs) = k * MemoryBytes rs /\
  0 <= k * CPUMillis rs <= cpu /\ 0 <= k * MemoryBytes rs <= mem /\
  (k = 0 \/ (0 < CPUMillis rs /\ 0 < MemoryBytes rs)).
Proof.
  intros Hcpu Hmem Hk.
  destruct (fit_bounds rs cpu mem Hcpu Hmem) as [Hfit0 Hfit]. cbv zeta in *.
  assert (Hb : 0 <= k * CPUMillis rs <= cpu /\ 0 <= k * MemoryBytes rs <= mem /\
               (k = 0 \/ (0 < CPUMillis rs /\ 0 < MemoryBytes rs))).
  { destruct Hfit as [Hz | (Hc & Hm & HfC & HfM)].
    - assert (k = 0) by lia. subst k. lia.
    - split; [nia|]. split; [nia|]. right. lia. }
  destruct Hb as (HbC & HbM & Hpos). unfold Int64.mul.
  rewrite (wrap_nonneg_le (k * CPUMillis rs) cpu) by lia.
  rewrite (wrap_nonneg_le (k * MemoryBytes rs) mem) by lia.
  auto.
Qed.

Lemma share_exact avail rs W :
  0 <= avail -> 1 <= priorityWeight rs <= W -> avail * W <= Int64.max_int ->
  share avail rs W = Returns (avail * priorityWeight rs / W) /\
  0 <= avail * priorityWeight rs / W <= avail /\
  avail <= Int64.max_int /\
  W * (avail * priorityWeight rs / W) <= avail * priorityWeight rs.
Proof.
  intros Ha Hw Hmax. set (w := priorityWeight rs) in *.
  assert (Hprod : 0 <= avail * w <= avail * W) by nia.
  assert (Havail : avail <= Int64.max_int) by nia.
  assert (Hdiv : 0 <= avail * w / W <= avail).
  { split; [apply Z.div_pos; lia|].
    apply Z.div_le_upper_bound; nia. }
  unfold share, checkedDiv, Int64.div, Int64.quot, Int64.mul. fold w.
  destruct (W =? 0) eqn:E; [apply Z.eqb_eq in E; lia|].
  rewrite (wrap_nonneg_le (avail * w) (avail * W)) by lia.
  rewrite Z.quot_div_nonneg by lia.
  rewrite (wrap_nonneg_le (avail * w / W) avail) by lia.
  repeat split; try lia.
  apply Z.mul_div_le. lia.
Qed.

Lemma sumZ_app l1 l2 : sumZ (l1 ++ l2) = sumZ l1 + sumZ l2.
Proof.
  induction l1 as [|x l1 IH]; cbn [app]; [reflexivity|].
  change (sumZ (x :: l1 ++ l2)) with (x + sumZ (l1 ++ l2)).
  change (sumZ (x :: l1)) with (x + sumZ l1). lia.
Qed.

Lemma committedEntries_snoc cost l a :
  committedEntries cost (l ++ [a])
    = committedEntries cost l + maxRunners a * cost (runnerSet a).
Proof.
  unfold committedEntries. rewrite map_app, sumZ_app. cbn. lia.
Qed.

Lemma weights_nonneg sets :
  Forall (fun rs => 0 <= Priority rs) sets -> 0 <= sumZ (map priorityWeight sets).
Proof.
  induction 1 as [|rs l Hrs _ IH]; cbn [map]; [cbn; lia|].
  change (sumZ (priorityWeight rs :: map priorityWeight l))
    with (priorityWeight rs + sumZ (map priorityWeight l)).
  pose proof (priorityWeight_positive rs Hrs). lia.
Qed.

(** The first pass keeps the running totals exact and within the weight
    share of the sets served so far. *)
Lemma firstPass_feasible cpu mem W sets : forall l tc tm Wp l' tc' tm',
  0 <= cpu -> 0 <= mem ->
  cpu * W <= Int64.max_int -> mem * W <= Int64.max_int ->
  Forall (fun rs => 0 <= Priority rs) sets ->
  0 <= Wp -> Wp + sumZ (map priorityWeight sets) = W ->
  committedEntries CPUMillis l = tc -> committedEntries MemoryBytes l = tm ->
  0 <= tc -> W * tc <= cpu * Wp -> 0 <= tm -> W * tm <= mem * Wp ->
  Forall soundEntry l ->
  firstPass cpu mem W sets (l, tc, tm) = Returns (l', tc', tm') ->
  committedEntries CPUMillis l' = tc' /\ committedEntries MemoryBytes l' = tm' /\
  0 <= tc' /\ W * tc' <= cpu * W /\ 0 <= tm' /\ W * tm' <= mem * W /\
  Forall soundEntry l'.
Proof.
  induction sets as [|rs rest IH];
    intros l tc tm Wp l' tc' tm' Hcpu Hmem HcW HmW Hprio HWp HW Hlc Hlm Htc HtcW Htm HtmW Hnn;
    cbn [firstPass].
  - intros H; inversion H; subst l' tc' tm'. cbn in HW. rewrite Z.add_0_r in HW.
    subst Wp. auto 10.
  - pose proof (List.Forall_inv Hprio) as Hrs.
    pose proof (List.Forall_inv_tail Hprio) as Hrest. cbv beta in Hrs.
    cbn [map] in HW.
    change (sumZ (priorityWeight rs :: map priorityWeight rest))
      with (priorityWeight rs + sumZ (map priorityWeight rest)) in HW.
    pose proof (priorityWeight_positive rs Hrs) as Hw.
    pose proof (weights_nonneg rest Hrest) as Hrestw.
    assert (HwW : 1 <= priorityWeight rs <= W) by lia.
    destruct (share_exact cpu rs W Hcpu HwW HcW) as (Hsc & Hscb & Hcmax & HscW).
    destruct (share_exact mem rs W Hmem HwW HmW) as (Hsm & Hsmb & Hmmax & HsmW).
    unfold firstPassStep. rewrite Hsc, Hsm. cbn [obind].
    set (sc := cpu * priorityWeight rs / W) in *.
    set (sm := mem * priorityWeight rs / W) in *.
    set (fit := calculateMaxRunners rs sc sm).
    set (n := if (0 <? ConfiguredMax rs) && (ConfiguredMax rs <? fit)
              then ConfiguredMax rs else fit).
    assert (Hn : 0 <= n <= fit).
    { pose proof (calculateMaxRunners_nonneg rs sc sm). fold fit in H. unfold n.
      destruct (0 <? ConfiguredMax rs) eqn:E1; cbn [andb];
        [apply Z.ltb_lt in E1 | lia].
      destruct (ConfiguredMax rs <? fit) eqn:E2;
        [apply Z.ltb_lt in E2 | apply Z.ltb_ge in E2]; lia. }
    destruct (within_fit_cost rs sc sm n ltac:(lia) ltac:(lia) Hn)
      as (HmC & HmM & HbC & HbM & _).
    rewrite HmC, HmM.
    assert (HtcNew : W * (tc + n * CPUMillis rs) <= cpu * (Wp + priorityWeight rs)) by nia.
    assert (HtmNew : W * (tm + n * MemoryBytes rs) <= mem * (Wp + priorityWeight rs)) by nia.
    assert (HaddC : Int64.add tc (n * CPUMillis rs) = tc + n * CPUMillis rs).
    { unfold Int64.add. apply (wrap_nonneg_le _ (cpu * W)); [|lia]. nia. }
    assert (HaddM : Int64.add tm (n * MemoryBytes rs) = tm + n * MemoryBytes rs).
    { unfold Int64.add. apply (wrap_nonneg_le _ (mem * W)); [|lia]. nia. }
    rewrite HaddC, HaddM.
    apply (IH _ _ _ (Wp + priorityWeight rs)); try assumption; try lia.
    + rewrite committedEntries_snoc. cbn [maxRunners runnerSet]. lia.
    + rewrite committedEntries_snoc. cbn [maxRunners runnerSet]. lia.
    + apply Forall_app. split; [exact Hnn|]. constructor; [|constructor].
      unfold soundEntry. cbn [maxRunners runnerSet]. lia.
Qed.

Lemma enforceMinimums_none first : forall l c m,
  Forall (fun a => MinRunners (runnerSet a) <= 0) first ->
  fold_left enforceMinimumStep first (l, c, m) = (l ++ first, c, m).
Proof.
  induction first as [|a rest IH]; intros l c m Hall; cbn [fold_left].
  - rewrite app_nil_r. reflexivity.
  - inversion Hall as [|? ? Ha Hrest]; subst.
    unfold enforceMinimumStep at 2.
    replace (0 <? MinRunners (runnerSet a)) with false
      by (symmetry; apply Z.ltb_ge; exact Ha).
    cbn [andb]. rewrite IH by assumption. rewrite <- app_assoc. reflexivity.
Qed.

Lemma redistributeStep_full l cpu mem alloc :
  redistributeStep (l, cpu, mem) alloc = (l, cpu, mem) \/
  exists k,
    0 < k <= calculateMaxRunners (runnerSet alloc) cpu mem /\
    redistributeStep (l, cpu, mem) alloc
      = (updateOriginal (raised alloc k) l,
         Int64.sub cpu (Int64.mul k (CPUMillis (runnerSet alloc))),
         Int64.sub mem (Int64.mul k (MemoryBytes (runnerSet alloc)))).
Proof.
  unfold redistributeStep.
  destruct ((0 <? ConfiguredMax (runnerSet alloc))
            && (ConfiguredMax (runnerSet alloc) <=? maxRunners alloc));
    [left; reflexivity|].
  set (additional := calculateMaxRunners (runnerSet alloc) cpu mem).
  destruct (additional =? 0); [left; reflexivity|].
  match goal with
  | |- context [if 0 <? ?k then _ else _] => set (maxAdditional := k)
  end.
  destruct (0 <? maxAdditional) eqn:Epos; [|left; reflexivity].
  apply Z.ltb_lt in Epos. right. exists maxAdditional.
  split; [|reflexivity]. split; [exact Epos|]. unfold maxAdditional.
  destruct (0 <? ConfiguredMax (runnerSet alloc)); lia.
Qed.

Lemma updateOriginal_replace (cost : RunnerSetResources -> Z) alloc alloc' l :
  List.NoDup (map nameOf l) -> In alloc l ->
  runnerSet alloc' = runnerSet alloc ->
  map runnerSet (updateOriginal alloc' l) = map runnerSet l /\
  committedEntries cost (updateOriginal alloc' l)
    = committedEntries cost l
      + (maxRunners alloc' - maxRunners alloc) * cost (runnerSet alloc) /\
  (forall b, In b l -> nameOf b <> nameOf alloc -> In b (updateOriginal alloc' l)).
Proof.
  intros Hnd Hin Hrs. induction l as [|a l IH]; [contradiction|].
  cbn [map] in Hnd. inversion Hnd as [|? ? Hnotin Hnd']; subst.
  cbn [updateOriginal]. rewrite Hrs.
  destruct (String.eqb (Name (runnerSet a)) (Name (runnerSet alloc))) eqn:E.
  - apply String.eqb_eq in E.
    assert (a = alloc).
    { destruct Hin as [-> | Hin]; [reflexivity|].
      exfalso. apply Hnotin. unfold nameOf at 1. rewrite E.
      apply (in_map nameOf _ _ Hin). }
    subst a. split; [cbn [map]; rewrite Hrs; reflexivity|]. split.
    + unfold committedEntries. cbn [map].
      change (sumZ (?x :: ?l)) with (x + sumZ l). rewrite Hrs. lia.
    + intros b [-> | Hb] Hne; [contradiction | right; exact Hb].
  - apply String.eqb_neq in E.
    destruct Hin as [-> | Hin]; [congruence|].
    destruct (IH Hnd' Hin) as (IH1 & IH2 & IH3).
    split; [cbn [map]; rewrite IH1; reflexivity|]. split.
    + unfold committedEntries in *. cbn [map].
      change (sumZ (?x :: ?l)) with (x + sumZ l). rewrite IH2. lia.
    + intros b [-> | Hb] Hne; [left; reflexivity | right; apply IH3; assumption].
Qed.

Lemma committedEntries_member cost alloc l :
  Forall (fun a => 0 <= maxRunners a * cost (runnerSet a)) l -> In alloc l ->
  maxRunners alloc * cost (runnerSet alloc) <= committedEntries cost l.
Proof.
  intros Hall Hin. induction Hall as [|a l Ha Hl IH]; [contradiction|].
  unfold committedEntries in *. cbn [map].
  change (sumZ (?x :: ?l)) with (x + sumZ l).
  assert (0 <= sumZ (map (fun a0 => maxRunners a0 * cost (runnerSet a0)) l)).
  { clear -Hl. induction Hl as [|b l Hb _ IHl]; cbn [map]; [cbn; lia|].
    change (sumZ (?x :: ?l)) with (x + sumZ l). lia. }
  destruct Hin as [-> | Hin]; [lia|]. specialize (IH Hin). lia.
Qed.

(** One redistribution step moves capacity from what remains to one
    entry, exactly and without overdrawing. *)
Lemma redistributeStep_feasible cpu mem l rc rm alloc :
  cpu <= Int64.max_int -> mem <= Int64.max_int ->
  List.NoDup (map nameOf l) -> In alloc l -> Forall soundEntry l ->
  committedEntries CPUMillis l + rc = cpu -> 0 <= rc ->
  committedEntries MemoryBytes l + rm = mem -> 0 <= rm ->
  let '(l', rc', rm') := redistributeStep (l, rc, rm) alloc in
  map runnerSet l' = map runnerSet l /\ Forall soundEntry l' /\
  committedEntries CPUMillis l' + rc' = cpu /\ 0 <= rc' /\
  committedEntries MemoryBytes l' + rm' = mem /\ 0 <= rm' /\
  (forall b, In b l -> nameOf b <> nameOf alloc -> In b l').
Proof.
  intros Hcmax Hmmax Hnd Hin Hsound HC Hrc HM Hrm.
  destruct (redistributeStep_full l rc rm alloc) as [-> | (k & Hk & ->)].
  { repeat split; auto. }
  assert (HsoundC : Forall (fun a => 0 <= maxRunners a * CPUMillis (runnerSet a)) l)
    by (eapply List.Forall_impl; [|exact Hsound]; intros a (_ & H & _); exact H).
  assert (HsoundM : Forall (fun a => 0 <= maxRunners a * MemoryBytes (runnerSet a)) l)
    by (eapply List.Forall_impl; [|exact Hsound]; intros a (_ & _ & H); exact H).
  pose proof (committedEntries_member CPUMillis alloc l HsoundC Hin) as HxC.
  pose proof (committedEntries_member MemoryBytes alloc l HsoundM Hin) as HxM.
  assert (Hx : soundEntry alloc)
    by (rewrite List.Forall_forall in Hsound; apply Hsound; exact Hin).
  destruct Hx as (Hx0 & _ & _).
  assert (HcommC : 0 <= committedEntries CPUMillis l).
  { destruct (proj1 (List.Forall_forall _ _) Hsound alloc Hin) as (_ & H & _). lia. }
  assert (HcommM : 0 <= committedEntries MemoryBytes l).
  { destruct (proj1 (List.Forall_forall _ _) Hsound alloc Hin) as (_ & _ & H). lia. }
  destruct (within_fit_cost (runnerSet alloc) rc rm k ltac:(lia) ltac:(lia) ltac:(lia))
    as (HmC & HmM & HbC & HbM & [Hk0 | [HcPos HmPos]]); [lia|].
  rewrite HmC, HmM.
  assert (Hsum : Int64.add (maxRunners alloc) k = maxRunners alloc + k).
  { unfold Int64.add. apply (wrap_nonneg_le _ cpu); [|lia]. nia. }
  destruct (updateOriginal_replace CPUMillis alloc (raised alloc k) l Hnd Hin eq_refl)
    as (Hmap & HrepC & Hkeep).
  destruct (updateOriginal_replace MemoryBytes alloc (raised alloc k) l Hnd Hin eq_refl)
    as (_ & HrepM & _).
  cbn [raised maxRunners] in HrepC, HrepM. rewrite Hsum in HrepC, HrepM.
  unfold Int64.sub.
  rewrite (wrap_nonneg_le (rc - k * CPUMillis (runnerSet alloc)) cpu) by lia.
  rewrite (wrap_nonneg_le (rm - k * MemoryBytes (runnerSet alloc)) mem) by lia.
  split; [exact Hmap|]. split.
  { apply updateOriginal_Forall; [|exact Hsound].
    unfold soundEntry, raised. cbn [maxRunners runnerSet]. rewrite Hsum. nia. }
  rewrite HrepC, HrepM. repeat split; try lia. exact Hkeep.
Qed.

Lemma redistribute_fold_feasible cpu mem sorted : forall l rc rm,
  cpu <= Int64.max_int -> mem <= Int64.max_int ->
  List.NoDup (map nameOf l) -> List.NoDup (map nameOf sorted) ->
  (forall a, In a sorted -> In a l) -> Forall soundEntry l ->
  committedEntries CPUMillis l + rc = cpu -> 0 <= rc ->
  committedEntries MemoryBytes l + rm = mem -> 0 <= rm ->
  let l' := fst (fst (fold_left redistributeStep sorted (l, rc, rm))) in
  map runnerSet l' = map runnerSet l /\
  committedEntries CPUMillis l' <= cpu /\ committedEntries MemoryBytes l' <= mem.
Proof.
  induction sorted as [|alloc rest IH];
    intros l rc rm Hcmax Hmmax Hnd Hnds Hsub Hsound HC Hrc HM Hrm; cbn [fold_left].
  - cbn [fst]. repeat split; lia.
  - cbn [map] in Hnds. apply List.NoDup_cons_iff in Hnds.
    destruct Hnds as [Hnotin Hnds'].
    pose proof (redistributeStep_feasible cpu mem l rc rm alloc Hcmax Hmmax Hnd
                  (Hsub alloc (or_introl eq_refl)) Hsound HC Hrc HM Hrm) as Hstep.
    pose proof (redistributeStep_names l rc rm alloc) as Hnames.
    destruct (redistributeStep (l, rc, rm) alloc) as [[l1 rc1] rm1].
    cbn [fst] in Hnames.
    destruct Hstep as (Hmap & Hsound1 & HC1 & Hrc1 & HM1 & Hrm1 & Hkeep).
    destruct (IH l1 rc1 rm1) as (IH1 & IH2 & IH3); try assumption.
    + rewrite Hnames. exact Hnd.
    + intros a Ha. apply Hkeep; [apply Hsub; right; exact Ha|].
      intros Heq. apply Hnotin. rewrite <- Heq. apply (in_map nameOf _ _ Ha).
    + cbv zeta. rewrite IH1, Hmap. auto.
Qed.

Lemma committed_entries cost l :
  committed cost (map runnerSet l) (map toResult l) = committedEntries cost l.
Proof.
  induction l as [|a l IH]; cbn [map committed]; [reflexivity|].
  unfold committedEntries in *. cbn [map].
  change (sumZ (?x :: ?l)) with (x + sumZ l). rewrite IH. reflexivity.
Qed.

(** X10: absent minimums, with priorities that are not negative, distinct
    names and a capacity whose product with the total weight fits an
    int64, [AllocateFairShare] never commits more CPU or memory than is
    available: the first pass stays within the shares and redistribution
    only hands out what is left. *)
Theorem AllocateFairShare_feasible sets cpu mem result :
  Forall (fun rs => MinRunners rs <= 0) sets ->
  Forall (fun rs => 0 <= Priority rs) sets ->
  List.NoDup (map Name sets) ->
  0 <= cpu -> 0 <= mem ->
  sumZ (map priorityWeight sets) <= Int64.max_int ->
  cpu * sumZ (map priorityWeight sets) <= Int64.max_int ->
  mem * sumZ (map priorityWeight sets) <= Int64.max_int ->
  AllocateFairShare sets cpu mem = Returns result ->
  committed CPUMillis sets result <= cpu /\
  committed MemoryBytes sets result <= mem.
Proof.
  intros Hmin Hprio Hnd Hcpu Hmem HW HcW HmW.
  unfold AllocateFairShare. destruct sets as [|rs0 rest].
  { intros H; inversion H; subst. cbn. lia. }
  set (sets := rs0 :: rest) in *.
  set (W := sumZ (map priorityWeight sets)) in *.
  assert (HW1 : 1 <= W).
  { unfold W, sets. cbn [map].
    change (sumZ (?x :: ?l)) with (x + sumZ l).
    pose proof (priorityWeight_positive rs0 (List.Forall_inv Hprio)).
    pose proof (weights_nonneg rest (List.Forall_inv_tail Hprio)). lia. }
  assert (Htotal : totalPriorityWeight sets = W).
  { rewrite totalPriorityWeight_sum. apply (wrap_nonneg_le _ W); lia. }
  rewrite Htotal.
  destruct (firstPass cpu mem W sets ([], 0, 0)) as [[[first tc] tm]|] eqn:Hfirst;
    cbn [obind]; [|discriminate].
  destruct (firstPass_entries _ _ _ _ _ _ _ _ _ _ Hfirst) as (new & Hnew & Hsets & _).
  cbn [app] in Hnew. subst new.
  destruct (firstPass_feasible cpu mem W sets [] 0 0 0 first tc tm)
    as (HC & HM & Htc & HtcW & Htm & HtmW & Hsound);
    try assumption; try reflexivity; try lia; [constructor|].
  assert (Htcb : tc <= cpu) by nia.
  assert (Htmb : tm <= mem) by nia.
  assert (Hcmax : cpu <= Int64.max_int) by nia.
  assert (Hmmax : mem <= Int64.max_int) by nia.
  unfold enforceMinimums. rewrite enforceMinimums_none.
  2: { apply List.Forall_forall. intros a Ha.
       rewrite List.Forall_forall in Hmin. apply Hmin.
       rewrite <- Hsets. apply in_map. exact Ha. }
  cbn [app]. intros H; inversion H; subst result; clear H.
  unfold Int64.sub.
  rewrite (wrap_nonneg_le (cpu - tc) cpu) by lia.
  rewrite (wrap_nonneg_le (mem - tm) mem) by lia.
  assert (Hnames : List.NoDup (map nameOf first)).
  { replace (map nameOf first) with (map Name (map runnerSet first))
      by (rewrite map_map; reflexivity).
    rewrite Hsets. exact Hnd. }
  assert (Hfinal : map runnerSet (redistribute first (cpu - tc) (mem - tm)) = sets /\
                   committedEntries CPUMillis (redistribute first (cpu - tc) (mem - tm)) <= cpu /\
                   committedEntries MemoryBytes (redistribute first (cpu - tc) (mem - tm)) <= mem).
  { unfold redistribute. destruct (_ || _); [|repeat split; [exact Hsets | lia | lia]].
    destruct (redistribute_fold_feasible cpu mem (sortSlice byAllocationPriority first)
                first (cpu - tc) (mem - tm)) as (H1 & H2 & H3);
      try assumption; try lia.
    - eapply Permutation_NoDup; [apply Permutation_map, sortSlice_perm | exact Hnames].
    - intros a Ha. eapply Permutation_in; [symmetry; apply sortSlice_perm | exact Ha].
    - rewrite H1. auto. }
  destruct Hfinal as (Hmap & HfC & HfM).
  rewrite <- Hmap at 1 2. rewrite !committed_entries. auto.
Qed.

Lemma AllocateFairShare_feasible_witness :
  committed CPUMillis [scenarioB_high; scenarioB_low]
    [mkRunnerSetAllocation "high" 2; mkRunnerSetAllocation "low" 8] <= 10000 /\
  committed MemoryBytes [scenarioB_high; scenarioB_low]
    [mkRunnerSetAllocation "high" 2; mkRunnerSetAllocation "low" 8] <= 20 * Gi.
Proof.
  apply (AllocateFairShare_feasible [scenarioB_high; scenarioB_low] 10000 (20 * Gi)).
  - repeat constructor; cbn; lia.
  - repeat constructor; cbn; lia.
  - repeat constructor; cbn; intuition discriminate.
  - lia.
  - unfold Gi. lia.
  - unfold Int64.max_int. cbn. lia.
  - unfold Int64.max_int. cbn. lia.
  - unfold Int64.max_int, Gi. cbn. lia.
  - vm_compute. reflexivity.
Defined.

(** ** Listing runner sets *)

(** X26: with namespaces configured, listing never fails: it returns the
    runner sets of the configured namespaces that could be listed, and a
    namespace whose listing fails is passed over without an error. *)
Theorem listRunnerSets_namespaces cfg c :
  Namespaces cfg <> [] ->
  exists listed,
    listRunnerSets cfg c = Ok listed /\
    forall rs, In rs listed <->
      In rs (RunnerSets c) /\
      In (ars_Namespace rs) (Namespaces cfg) /\
      fails c (ListRunnerSets (Some (ars_Namespace rs))) = false.
Proof.
  intros Hne. unfold listRunnerSets.
  destruct (Namespaces cfg) as [|ns nss]; [contradiction|].
  eexists. split; [reflexivity|].
  intros rs. rewrite in_flat_map. split.
  - intros (namespace & Hns & Hin).
    destruct (fails c (ListRunnerSets (Some namespace))) eqn:Ef; [contradiction|].
    apply filter_In in Hin. destruct Hin as [Hin Heq].
    apply String.eqb_eq in Heq. subst namespace. auto.
  - intros (Hin & Hns & Hf). exists (ars_Namespace rs). split; [exact Hns|].
    rewrite Hf. apply filter_In. split; [exact Hin | apply String.eqb_refl].
Qed.

Lemma listRunnerSets_namespaces_witness :
  exists listed,
    listRunnerSets (mkConfig 10 10 ["team-a"; "team-b"] false) twoNamespaces = Ok listed /\
    forall rs, In rs listed <->
      In rs (RunnerSets twoNamespaces) /\
      In (ars_Namespace rs) ["team-a"; "team-b"] /\
      fails twoNamespaces (ListRunnerSets (Some (ars_Namespace rs))) = false.
Proof.
  apply (listRunnerSets_namespaces (mkConfig 10 10 ["team-a"; "team-b"] false)
           twoNamespaces).
  discriminate.
Defined.

(** ** The reconciliation loop *)

Lemma applyAllocation_settled cfg runnerSets c log alloc :
  exists ds,
    snd (applyAllocation cfg runnerSets (c, log) alloc) = log ++ ds /\
    (Forall notPatched ds ->
     fst (applyAllocation cfg runnerSets (c, log) alloc) = c).
Proof.
  unfold applyAllocation.
  destruct (findRunnerSet (alloc_Name alloc) runnerSets) as [rs|].
  2: { exists []. rewrite app_nil_r. split; reflexivity. }
  cbv zeta.
  destruct (_ =? _).
  { eexists [_]. split; reflexivity. }
  destruct (DryRun cfg).
  { eexists [_]. split; reflexivity. }
  destruct (updateRunnerSet c rs _) as [c1|e].
  - eexists [_]. split; [reflexivity|].
    intros H. apply List.Forall_inv in H. exfalso. apply H. reflexivity.
  - eexists [_]. split; reflexivity.
Qed.

Lemma applyAllocations_settled cfg runnerSets allocations : forall c log,
  exists ds,
    snd (fold_left (applyAllocation cfg runnerSets) allocations (c, log)) = log ++ ds /\
    (Forall notPatched ds ->
     fst (fold_left (applyAllocation cfg runnerSets) allocations (c, log)) = c).
Proof.
  induction allocations as [|alloc rest IH]; intros c log; cbn [fold_left].
  - exists []. rewrite app_nil_r. split; reflexivity.
  - destruct (applyAllocation_settled cfg runnerSets c log alloc) as (ds1 & Hlog1 & Hc1).
    destruct (applyAllocation cfg runnerSets (c, log) alloc) as [c1 log1].
    cbn [fst snd] in Hlog1, Hc1. rewrite Hlog1.
    destruct (IH c1 (log ++ ds1)) as (ds2 & Hlog2 & Hc2).
    exists (ds1 ++ ds2). rewrite Hlog2, app_assoc. split; [reflexivity|].
    intros H. apply Forall_app in H. destruct H as [H1 H2].
    rewrite (Hc2 H2). exact (Hc1 H1).
Qed.

(** A tick none of whose decisions was an accepted patch leaves the
    cluster as it found it. *)
Lemma ReconcileOnce_settled cfg c :
  Forall notPatched (snd (ReconcileOnce cfg c)) ->
  snd (fst (ReconcileOnce cfg c)) = c.
Proof.
  pose proof (ReconcileOnce_fold cfg c) as Hfold.
  destruct (applyAllocations_settled cfg (tickListing cfg c) (tickAllocations cfg c) c [])
    as (ds & Hlog & Hc).
  rewrite <- Hfold in Hlog, Hc. cbn [fst snd app] in Hlog, Hc.
  rewrite Hlog. exact Hc.
Qed.

Lemma patchCalls_notPatched log :
  patchCalls log = 0%nat -> Forall notPatched log.
Proof.
  unfold patchCalls, notPatched, isPatchCall.
  induction log as [|d log IH]; cbn [List.filter]; [constructor|].
  destruct (d_action d) eqn:E; cbn [length]; try discriminate;
    intros H; constructor; auto; rewrite E; discriminate.
Qed.

(** On a cluster that a tick leaves as it is, the loop repeats that tick. *)
Lemma runLoop_settled cfg c events :
  snd (fst (ReconcileOnce cfg c)) = c ->
  forall logs,
    runLoop cfg events (c, logs)
      = (contextEnd events, c,
         logs ++ repeat (snd (ReconcileOnce cfg c)) (ticksServed events)).
Proof.
  intros Hfix.
  induction events as [|[|err] rest IH]; intros logs;
    cbn [runLoop contextEnd ticksServed repeat fst snd].
  - rewrite app_nil_r. reflexivity.
  - destruct (ReconcileOnce cfg c) as [[e c'] log] eqn:E.
    cbn [fst snd] in Hfix |- *. rewrite Hfix.
    rewrite IH, <- app_assoc. reflexivity.
  - rewrite app_nil_r. reflexivity.
Qed.

(** X27: when the first reconciliation of [Run] changes nothing (each
    decision is unchanged, a dry run, or a refused patch), every tick
    repeats it: the cluster stays as it is, each tick logs the same
    decisions, a refused patch is sent again at every tick, and [Run]
    returns the context's error once the context is done, not before. *)
Theorem Run_repeats_settled_tick cfg c events :
  Forall notPatched (snd (ReconcileOnce cfg c)) ->
  Run cfg events c
    = (contextEnd events, c,
       repeat (snd (ReconcileOnce cfg c)) (S (ticksServed events))).
Proof.
  intros Hsettled. pose proof (ReconcileOnce_settled cfg c Hsettled) as Hfix.
  unfold Run.
  pose proof (runLoop_settled cfg c events Hfix [snd (ReconcileOnce cfg c)]) as Hloop.
  destruct (ReconcileOnce cfg c) as [[e c'] log].
  cbn [fst snd] in Hfix, Hloop |- *. rewrite Hfix. exact Hloop.
Qed.

Lemma Run_repeats_settled_tick_witness :
  Run (withDryRun true DefaultConfig)
      [TickerFired; TickerFired; ContextDone Canceled; TickerFired] scenarioC
    = (Some Canceled, scenarioC,
       repeat (snd (ReconcileOnce (withDryRun true DefaultConfig) scenarioC)) 3).
Proof.
  apply (Run_repeats_settled_tick (withDryRun true DefaultConfig) scenarioC
           [TickerFired; TickerFired; ContextDone Canceled; TickerFired]).
  vm_compute. repeat constructor. discriminate.
Defined.

(** X28: with a single runner set listed and its patch accepted, [Run]
    settles after its first reconciliation: the cluster stays as that
    reconciliation left it, and every tick takes the same decisions and
    sends no patch. *)
Theorem Run_single_set_settles cfg c rs events :
  listRunnerSets cfg c = Ok [rs] ->
  fails c (PatchRunnerSet (ars_Namespace rs) (ars_Name rs)) = false ->
  exists settled,
    patchCalls settled = 0%nat /\
    Run cfg events c
      = (contextEnd events, snd (fst (ReconcileOnce cfg c)),
         snd (ReconcileOnce cfg c) :: repeat settled (ticksServed events)).
Proof.
  intros Hlist Hpatch.
  pose proof (ReconcileOnce_second_run_single cfg c rs Hlist Hpatch) as Hquiet.
  exists (snd (ReconcileOnce cfg (snd (fst (ReconcileOnce cfg c))))).
  split; [exact Hquiet|].
  pose proof (ReconcileOnce_settled cfg _ (patchCalls_notPatched _ Hquiet)) as Hfix.
  unfold Run.
  pose proof (runLoop_settled cfg _ events Hfix [snd (ReconcileOnce cfg c)]) as Hloop.
  destruct (ReconcileOnce cfg c) as [[e c1] log].
  cbn [fst snd app] in Hloop |- *. exact Hloop.
Qed.

Lemma Run_single_set_settles_witness :
  exists settled,
    patchCalls settled = 0%nat /\
    Run DefaultConfig [TickerFired; TickerFired; ContextDone DeadlineExceeded] scenarioC
      = (contextEnd [TickerFired; TickerFired; ContextDone DeadlineExceeded],
         snd (fst (ReconcileOnce DefaultConfig scenarioC)),
         snd (ReconcileOnce DefaultConfig scenarioC)
           :: repeat settled
                (ticksServed [TickerFired; TickerFired; ContextDone DeadlineExceeded])).
Proof.
  apply (Run_single_set_settles DefaultConfig scenarioC scenarioC_set
           [TickerFired; TickerFired; ContextDone DeadlineExceeded]).
  - reflexivity.
  - reflexivity.
Defined.

(** ** Running the tick twice, on several runner sets *)

Lemma Forall2_impl_In {A B} (R R' : A -> B -> Prop) l l' :
  Forall2 R l l' ->
  (forall x y, In x l -> R x y -> R' x y) ->
  Forall2 R' l l'.
Proof.
  induction 1 as [|x y l l' Hxy _ IH]; intros Himpl; constructor.
  - apply Himpl; [left; reflexivity | exact Hxy].
  - apply IH. intros x' y' Hin. apply Himpl. right. exact Hin.
Qed.

Lemma Forall2_map_r {A B C} (R : A -> C -> Prop) (f : B -> C) l l' :
  Forall2 (fun x y => R x (f y)) l l' -> Forall2 R l (map f l').
Proof. induction 1; cbn [map]; constructor; assumption. Qed.

Lemma sameButMax_refl rs : sameButMax rs rs.
Proof. unfold sameButMax. auto. Qed.

Lemma settledBy_nil l : Forall2 (settledBy []) l l.
Proof.
  induction l as [|rs l IH]; constructor; [|exact IH].
  split; [apply sameButMax_refl|]. split; [intros d []|reflexivity].
Qed.

Lemma tickListing_patched cfg c rs m c' :
  updateRunnerSet c rs m = Ok c' ->
  tickListing cfg c'
    = map (patchObject (ars_Namespace rs) (ars_Name rs) m) (tickListing cfg c).
Proof.
  intros H. unfold tickListing.
  rewrite (proj2 (updateRunnerSet_listing cfg c rs m c' H)).
  destruct (listRunnerSets cfg c); reflexivity.
Qed.

(** A decision that changes nothing settles the set of its name at the
    value the set holds. *)
Lemma settledBy_unchanged L log rs0 d rs rs' :
  List.NoDup (map ars_Name L) -> In rs L ->
  findRunnerSet (d_name d) L = Some rs0 ->
  (forall d', In d' log -> d_name d' <> d_name d) ->
  default 0 (Spec_MaxRunners rs0) = new_max d ->
  settledBy log rs rs' -> settledBy (log ++ [d]) rs rs'.
Proof.
  intros Hnodup Hin Hfind Hfresh Hsame (Hfields & Hfinal & Hkept).
  split; [exact Hfields|]. split.
  - intros d' Hd' Hname. apply in_app_or in Hd'.
    destruct Hd' as [Hd' | [<- | []]]; [exact (Hfinal d' Hd' Hname)|].
    rewrite Hname in Hfind.
    rewrite (findRunnerSet_unique L rs rs0 Hnodup Hin Hfind) in Hsame.
    rewrite Hkept; [exact Hsame|].
    intros d' Hd'. rewrite <- Hname. apply Hfresh. exact Hd'.
  - intros Hnone. apply Hkept. intros d' Hd'. apply Hnone.
    apply in_or_app. left. exact Hd'.
Qed.

(** An accepted patch settles the set of its name at the patched value
    and leaves the other sets of the listing alone. *)
Lemma settledBy_patched L log rs0 d rs rs' :
  List.NoDup (map ars_Name L) -> In rs L ->
  findRunnerSet (d_name d) L = Some rs0 ->
  (forall d', In d' log -> d_name d' <> d_name d) ->
  settledBy log rs rs' ->
  settledBy (log ++ [d]) rs
    (patchObject (ars_Namespace rs0) (ars_Name rs0) (new_max d) rs').
Proof.
  intros Hnodup Hin Hfind Hfresh (Hfields & Hfinal & Hkept).
  destruct (findRunnerSet_In _ _ _ Hfind) as [_ Hname0].
  destruct (String.eqb_spec (ars_Name rs) (d_name d)) as [Hname | Hname].
  - rewrite Hname in Hkept. rewrite <- Hname in Hfind.
    pose proof (findRunnerSet_unique L rs rs0 Hnodup Hin Hfind) as ->.
    rewrite (Hkept Hfresh).
    unfold patchObject. rewrite !String.eqb_refl. cbn [andb].
    split; [unfold sameButMax, setMaxRunners; cbn; auto|]. split.
    + intros d' Hd' Hname'. apply in_app_or in Hd'.
      destruct Hd' as [Hd' | [<- | []]]; [|reflexivity].
      exfalso. apply (Hfresh d' Hd'). congruence.
    + intros Hnone. exfalso. apply (Hnone d); [|symmetry; exact Hname].
      apply in_or_app. right. left. reflexivity.
  - destruct Hfields as (Hns & Hn & Hrest).
    unfold patchObject.
    replace (String.eqb (ars_Name rs') (ars_Name rs0)) with false
      by (symmetry; apply String.eqb_neq; congruence).
    rewrite andb_false_r.
    split; [unfold sameButMax; auto|]. split.
    + intros d' Hd' Hname'. apply in_app_or in Hd'.
      destruct Hd' as [Hd' | [<- | []]]; [exact (Hfinal d' Hd' Hname')|].
      congruence.
    + intros Hnone. apply Hkept. intros d' Hd'. apply Hnone.
      apply in_or_app. left. exact Hd'.
Qed.

(** One live step of the loop keeps the listing settled by the decisions
    taken so far, as long as its patch is accepted. *)
Lemma applyAllocation_settles cfg L c log alloc :
  DryRun cfg = false ->
  List.NoDup (map ars_Name L) ->
  (forall d, In d log -> d_name d <> alloc_Name alloc) ->
  Forall2 (settledBy log) L (tickListing cfg c) ->
  forallb patchAccepted (snd (applyAllocation cfg L (c, log) alloc)) = true ->
  Forall2 (settledBy (snd (applyAllocation cfg L (c, log) alloc))) L
          (tickListing cfg (fst (applyAllocation cfg L (c, log) alloc))).
Proof.
  intros Hlive Hnodup Hfresh Hinv. unfold applyAllocation.
  destruct (findRunnerSet (alloc_Name alloc) L) as [rs0|] eqn:Efind;
    [|intros _; exact Hinv].
  set (running := Status_CurrentRunners rs0).
  set (newMax := if alloc_MaxRunners alloc <? running
                 then running else alloc_MaxRunners alloc).
  destruct (default 0 (Spec_MaxRunners rs0) =? newMax) eqn:Esame.
  { intros _. cbn [fst snd]. apply Z.eqb_eq in Esame.
    apply (Forall2_impl_In _ _ _ _ Hinv). intros rs rs' Hin Hset.
    apply (settledBy_unchanged L log rs0 _ rs rs' Hnodup Hin); auto. }
  rewrite Hlive.
  destruct (updateRunnerSet c rs0 newMax) as [c'|e] eqn:Hupd; cbn [fst snd].
  2: { rewrite forallb_app. cbn. rewrite andb_false_r. discriminate. }
  intros _. rewrite (tickListing_patched cfg c rs0 newMax c' Hupd).
  apply Forall2_map_r.
  apply (Forall2_impl_In _ _ _ _ Hinv). intros rs rs' Hin Hset.
  apply (settledBy_patched L log rs0
           (mkDecision (alloc_Name alloc) (alloc_MaxRunners alloc)
              (default 0 (Spec_MaxRunners rs0)) running newMax Patched)
           rs rs' Hnodup Hin); auto.
Qed.

Lemma applyAllocation_log_names cfg L c log alloc d :
  In d (snd (applyAllocation cfg L (c, log) alloc)) ->
  In d log \/ d_name d = alloc_Name alloc.
Proof.
  pose proof (applyAllocation_spec cfg L c log alloc) as Hstep.
  destruct (applyAllocation cfg L (c, log) alloc) as [c' log']. cbn [snd].
  destruct Hstep as [(_ & _ & ->) | (_ & d' & -> & (rs & _ & Hname & _) & _)];
    [auto|].
  intros Hin. apply in_app_or in Hin. destruct Hin as [Hin | [<- | []]]; auto.
Qed.

Lemma applyAllocation_log_prefix cfg L c log alloc :
  forallb patchAccepted (snd (applyAllocation cfg L (c, log) alloc)) = true ->
  forallb patchAccepted log = true.
Proof.
  pose proof (applyAllocation_spec cfg L c log alloc) as Hstep.
  destruct (applyAllocation cfg L (c, log) alloc) as [c' log']. cbn [snd].
  destruct Hstep as [(_ & _ & ->) | (_ & d' & -> & _)]; [auto|].
  rewrite forallb_app. intros H. apply andb_true_iff in H. apply H.
Qed.

(** The loop of step 5, live, with every patch accepted: afterwards the
    listing is settled by the decisions of the tick. *)
Lemma applyAllocations_settle cfg L allocations : forall c log,
  DryRun cfg = false ->
  List.NoDup (map ars_Name L) ->
  List.NoDup (map alloc_Name allocations) ->
  (forall d, In d log -> ~ In (d_name d) (map alloc_Name allocations)) ->
  (forallb patchAccepted log = true -> Forall2 (settledBy log) L (tickListing cfg c)) ->
  forallb patchAccepted
    (snd (fold_left (applyAllocation cfg L) allocations (c, log))) = true ->
  Forall2 (settledBy (snd (fold_left (applyAllocation cfg L) allocations (c, log))))
          L (tickListing cfg (fst (fold_left (applyAllocation cfg L) allocations (c, log)))).
Proof.
  induction allocations as [|alloc rest IH]; intros c log Hlive Hnodup Hnames Hfresh Hinv;
    cbn [fold_left fst snd]; [exact Hinv|].
  apply List.NoDup_cons_iff in Hnames. destruct Hnames as [Hnotin Hnames].
  assert (Hfresh0 : forall d, In d log -> d_name d <> alloc_Name alloc).
  { intros d Hd Heq. apply (Hfresh d Hd). left. symmetry. exact Heq. }
  pose proof (applyAllocation_settles cfg L c log alloc Hlive Hnodup Hfresh0) as Hstep.
  pose proof (applyAllocation_log_names cfg L c log alloc) as Hlognames.
  pose proof (applyAllocation_log_prefix cfg L c log alloc) as Hprefix.
  destruct (applyAllocation cfg L (c, log) alloc) as [c1 log1].
  cbn [fst snd] in Hstep, Hlognames, Hprefix.
  apply IH; [exact Hlive | exact Hnodup | exact Hnames | | ].
  - intros d Hd Hin. destruct (Hlognames d Hd) as [Hold | Hname].
    + apply (Hfresh d Hold). right. exact Hin.
    + apply Hnotin. rewrite <- Hname. exact Hin.
  - intros Hacc. apply Hstep; [|exact Hacc]. apply Hinv. apply Hprefix. exact Hacc.
Qed.

Lemma tickAllocations_NoDup cfg c :
  List.NoDup (map ars_Name (tickListing cfg c)) ->
  List.NoDup (map alloc_Name (tickAllocations cfg c)).
Proof.
  intros Hnodup. unfold tickAllocations.
  destruct (Calculate _ _ c) as [capacity|e]; [|constructor].
  unfold Allocate. rewrite allocateLoop_names.
  eapply Permutation_NoDup; [|apply extractEnabled_NoDup; exact Hnodup].
  apply Permutation_map. apply sortSlice_perm.
Qed.

(** After a live tick whose patches were all accepted, the next listing
    is the listing of the tick settled by its decisions. *)
Lemma ReconcileOnce_settles cfg c :
  DryRun cfg = false ->
  List.NoDup (map ars_Name (tickListing cfg c)) ->
  forallb patchAccepted (snd (ReconcileOnce cfg c)) = true ->
  Forall2 (settledBy (snd (ReconcileOnce cfg c))) (tickListing cfg c)
          (tickListing cfg (snd (fst (ReconcileOnce cfg c)))).
Proof.
  intros Hlive Hnodup Hacc.
  pose proof (ReconcileOnce_fold cfg c) as Hfold.
  pose proof (applyAllocations_settle cfg (tickListing cfg c) (tickAllocations cfg c)
                c [] Hlive Hnodup (tickAllocations_NoDup cfg c Hnodup)) as Hsettle.
  rewrite <- Hfold in Hsettle. cbn [fst snd] in Hsettle.
  apply Hsettle; [intros d [] | intros _; apply settledBy_nil | exact Hacc].
Qed.

(** *** What the second tick extracts, sorts and allocates *)

Lemma ExtractRunnerSetResources_sameButMax rs rs' :
  sameButMax rs rs' ->
  ExtractRunnerSetResources rs' =
    match ExtractRunnerSetResources rs with
    | Ok r =>
        Ok (mkRunnerSetResources (Name r) (CPUMillis r) (MemoryBytes r) (Priority r) 0
              (default 0 (Spec_MaxRunners rs')) (default 0 (Spec_MaxRunners rs')))
    | Err e => Err e
    end.
Proof.
  destruct rs as [ns name ann mx containers running].
  destruct rs' as [ns' name' ann' mx' containers' running'].
  unfold sameButMax. cbn. intros (-> & -> & -> & -> & ->).
  unfold ExtractRunnerSetResources, rbind, extractCPUFromPodSpec,
    extractMemoryFromPodSpec. cbn.
  repeat match goal with
         | |- context [match ?x with _ => _ end] =>
             lazymatch x with
             | context [match _ with _ => _ end] => fail
             | _ => destruct x
             end
         end; reflexivity.
Qed.

Lemma extractEnabled_settled log L L1 :
  Forall2 (settledBy log) L L1 ->
  Forall2 (recappedBy log) (extractEnabled L) (extractEnabled L1).
Proof.
  induction 1 as [|rs rs' L L1 (Hfields & Hfinal & _) _ IH];
    cbn [extractEnabled]; [constructor|].
  rewrite (ExtractRunnerSetResources_sameButMax rs rs' Hfields).
  destruct (ExtractRunnerSetResources rs) as [r|e] eqn:Hex; [|exact IH].
  destruct (ExtractRunnerSetResources_fields rs r Hex) as (Hname & Hmin & _).
  constructor; [|exact IH].
  unfold recappedBy. cbn. repeat split; auto.
  intros d Hd Hdname. apply (Hfinal d Hd). congruence.
Qed.

Lemma insertBy_Forall2 {A} (less : A -> A -> bool) (R : A -> A -> Prop) :
  (forall a a1 b b1, R a a1 -> R b b1 -> less a1 b1 = less a b) ->
  forall x x1 l l1, R x x1 -> Forall2 R l l1 ->
  Forall2 R (insertBy less x l) (insertBy less x1 l1).
Proof.
  intros Hless x x1 l l1 Hx Hl.
  induction Hl as [|y y1 l l1 Hy Hl IH]; cbn [insertBy].
  - constructor; [exact Hx | constructor].
  - rewrite (Hless y y1 x x1 Hy Hx).
    destruct (less y x);
      [constructor; [exact Hy | exact IH]
      |constructor; [exact Hx | constructor; [exact Hy | exact Hl]]].
Qed.

Lemma sortSlice_Forall2 {A} (less : A -> A -> bool) (R : A -> A -> Prop) :
  (forall a a1 b b1, R a a1 -> R b b1 -> less a1 b1 = less a b) ->
  forall l l1, Forall2 R l l1 -> Forall2 R (sortSlice less l) (sortSlice less l1).
Proof.
  intros Hless l l1 Hl. unfold sortSlice.
  induction Hl as [|x x1 l l1 Hx Hl IH]; cbn [fold_right]; [constructor|].
  apply insertBy_Forall2; assumption.
Qed.

Lemma sortRunnerSets_recapped log sets sets1 :
  Forall2 (recappedBy log) sets sets1 ->
  Forall2 (recappedBy log) (sortRunnerSets sets) (sortRunnerSets sets1).
Proof.
  apply sortSlice_Forall2.
  intros a a1 b b1 (Ha1 & _ & _ & Ha2 & _) (Hb1 & _ & _ & Hb2 & _).
  unfold byPriorityThenName. rewrite Ha1, Ha2, Hb1, Hb2. reflexivity.
Qed.

Lemma allocateLoop_cons rs rest cpu mem :
  allocateLoop (rs :: rest) cpu mem =
    let slots := slotsOf rs (calculateMaxRunners rs cpu mem) in
    mkRunnerSetAllocation (Name rs) slots
      :: allocateLoop rest (Int64.sub cpu (Int64.mul slots (CPUMillis rs)))
                      (Int64.sub mem (Int64.mul slots (MemoryBytes rs))).
Proof. reflexivity. Qed.

Lemma calculateMaxRunners_costs r r1 cpu mem :
  CPUMillis r1 = CPUMillis r -> MemoryBytes r1 = MemoryBytes r ->
  calculateMaxRunners r1 cpu mem = calculateMaxRunners r cpu mem.
Proof. intros H1 H2. unfold calculateMaxRunners. rewrite H1, H2. reflexivity. Qed.

(** Capping at the floored value of the first round gives the first
    round's allocation again, unless the set was running more than the
    maxRunners that bounded its allocation. *)
Lemma cap_unchanged configuredMax running fit :
  0 <= fit ->
  configuredMax <= 0 \/ running <= configuredMax \/
    capAt configuredMax fit < configuredMax ->
  capAt (Z.max (capAt configuredMax fit) running) fit = capAt configuredMax fit.
Proof.
  intros Hfit H.
  destruct (capAt_spec configuredMax fit) as [[H1 E1] | [H1 E1]]; rewrite E1 in *;
  match goal with
  | |- capAt ?m ?x = _ => destruct (capAt_spec m x) as [[H2 ->] | [H2 ->]]
  end; lia.
Qed.

(** The decision of a tick for an enabled set reports the set's
    configured maximum as the old value. *)
Lemma floored_old_max L r alloc d :
  List.NoDup (map ars_Name L) -> In r (extractEnabled L) ->
  alloc_Name alloc = Name r -> floored L alloc d ->
  old_max d = ConfiguredMax r.
Proof.
  intros Hnodup Hin Hname (rs & Hfind & _ & _ & _ & Hold & _).
  destruct (extractEnabled_source L r Hin) as (rs' & Hrs' & Hex).
  destruct (ExtractRunnerSetResources_fields rs' r Hex) as (Hn & _ & _ & Hmax).
  rewrite Hname, Hn in Hfind.
  rewrite (findRunnerSet_unique L rs' rs Hnodup Hrs' Hfind) in Hold. congruence.
Qed.

(** The allocator on the recapped sets: what it gives each set floors to
    the final value of the first tick, as long as no set before the last
    was cut by its maxRunners while running more than it. *)
Lemma allocateLoop_second_run L LOG sorted sorted1 :
  List.NoDup (map ars_Name L) ->
  Forall2 (recappedBy LOG) sorted sorted1 ->
  forall log cpu mem,
  (forall r, In r sorted -> In r (extractEnabled L)) ->
  (forall d, In d log -> In d LOG) ->
  Forall2 (floored L) (allocateLoop sorted cpu mem) log ->
  forallb notCutWhileOver (removelast log) = true ->
  Forall2 floorsTo log (allocateLoop sorted1 cpu mem).
Proof.
  intros Hnodup Hsorted.
  induction Hsorted as [|r r1 rest rest1 Hr Hrest IH]; intros log cpu mem Hsrc Hlog Hfl Hcut.
  - cbn [allocateLoop] in Hfl |- *. inversion Hfl. constructor.
  - rewrite allocateLoop_cons in Hfl |- *. cbv zeta in Hfl |- *.
    destruct Hr as (Hname & Hcpu & Hmem & _ & Hmin & Hmin1 & Hcap).
    rewrite (calculateMaxRunners_costs r r1 cpu mem Hcpu Hmem), Hcpu, Hmem, Hname.
    rewrite (slotsOf_no_minimum r1 _ Hmin1).
    rewrite (slotsOf_no_minimum r _ Hmin) in Hfl.
    set (fit := calculateMaxRunners r cpu mem) in *.
    assert (Hfit : 0 <= fit) by apply calculateMaxRunners_nonneg.
    inversion Hfl as [|a d allocs log' Hd Htail]; subst a allocs log.
    pose proof (floored_old_max L r
                  (mkRunnerSetAllocation (Name r) (capAt (ConfiguredMax r) fit)) d
                  Hnodup (Hsrc r (or_introl eq_refl)) eq_refl Hd) as Hold.
    destruct Hd as (rs & _ & Hdname & Hcalc & Hrun & _ & Hnew & _).
    cbn [alloc_Name alloc_MaxRunners] in Hdname, Hcalc, Hnew.
    rewrite <- Hrun in Hnew.
    rewrite (Hcap d (Hlog d (or_introl eq_refl)) Hdname), Hnew.
    assert (Hstable : Z.max (capAt (Z.max (capAt (ConfiguredMax r) fit)
                                          (currently_running d)) fit)
                            (currently_running d)
                      = Z.max (capAt (ConfiguredMax r) fit) (currently_running d)).
    { rewrite <- !floorAt_max. apply cap_floor_stable. exact Hfit. }
    constructor.
    { split; cbn [alloc_Name alloc_MaxRunners];
        [symmetry; exact Hdname | rewrite Hnew; exact Hstable]. }
    destruct log' as [|d' log''].
    { inversion Htail as [Hnil|]. destruct rest as [|r' rest'];
        [|rewrite allocateLoop_cons in Hnil; discriminate].
      inversion Hrest. constructor. }
    change (removelast (d :: d' :: log'')) with (d :: removelast (d' :: log'')) in Hcut.
    cbn [forallb] in Hcut. apply andb_true_iff in Hcut. destruct Hcut as [Hd Hcut].
    assert (Hsame : capAt (Z.max (capAt (ConfiguredMax r) fit) (currently_running d)) fit
                    = capAt (ConfiguredMax r) fit).
    { apply cap_unchanged; [exact Hfit|].
      unfold notCutWhileOver in Hd. rewrite Hold, Hcalc in Hd.
      apply orb_true_iff in Hd. destruct Hd as [Hd | Hd];
        [apply orb_true_iff in Hd; destruct Hd as [Hd | Hd]|];
        [left; apply Z.leb_le, Hd
        | right; left; apply Z.leb_le, Hd
        | right; right; apply Z.ltb_lt, Hd]. }
    rewrite Hsame. apply IH; auto.
    + intros r' Hr'. apply Hsrc. right. exact Hr'.
    + intros d0 Hd0. apply Hlog. right. exact Hd0.
Qed.

(** *** The second tick *)

Lemma findRunnerSet_settled log L L1 name rs :
  Forall2 (settledBy log) L L1 ->
  findRunnerSet name L = Some rs ->
  exists rs1, findRunnerSet name L1 = Some rs1 /\ settledBy log rs rs1.
Proof.
  induction 1 as [|x x1 L L1 Hx _ IH]; cbn [findRunnerSet]; [discriminate|].
  pose proof Hx as ((_ & Hname & _) & _). rewrite Hname.
  destruct (String.eqb (ars_Name x) name); [|exact IH].
  intros Heq. inversion Heq; subst x. exists x1. split; [reflexivity | exact Hx].
Qed.

Lemma Forall2_In_r {A B} (R : A -> B -> Prop) l l' y :
  Forall2 R l l' -> In y l' -> exists x, In x l /\ R x y.
Proof.
  induction 1 as [|x y' l l' Hxy _ IH]; [intros []|].
  intros [<- | Hin].
  - exists x. split; [left; reflexivity | exact Hxy].
  - destruct (IH Hin) as (x' & Hx' & HR). exists x'. split; [right|]; assumption.
Qed.

Lemma Forall2_chain {A B C} (R1 : A -> B -> Prop) (R2 : B -> C -> Prop)
    (Q : C -> Prop) l1 l2 l3 :
  Forall2 R1 l1 l2 -> Forall2 R2 l2 l3 ->
  (forall x y z, In x l1 -> R1 x y -> R2 y z -> Q z) ->
  Forall Q l3.
Proof.
  intros H12. revert l3.
  induction H12 as [|x y l1 l2 Hxy _ IH]; intros l3 H23 HQ;
    inversion H23 as [|y' z l2' l3' Hyz Htail]; subst; constructor.
  - apply (HQ x y z); [left; reflexivity | exact Hxy | exact Hyz].
  - apply IH; [exact Htail|]. intros x' y' z' Hin. apply HQ. right. exact Hin.
Qed.

Lemma patchCalls_none log :
  Forall (fun d => isPatchCall d = false) log -> patchCalls log = 0%nat.
Proof.
  unfold patchCalls. induction 1 as [|d log Hd _ IH]; cbn [List.filter]; [reflexivity|].
  rewrite Hd. exact IH.
Qed.

Lemma applyAllocations_dry cfg L allocations : forall c log,
  DryRun cfg = true ->
  Forall (fun d => isPatchCall d = false) log ->
  Forall (fun d => isPatchCall d = false)
         (snd (fold_left (applyAllocation cfg L) allocations (c, log))).
Proof.
  induction allocations as [|alloc rest IH]; intros c log Hdry Hlog;
    cbn [fold_left snd]; [exact Hlog|].
  unfold applyAllocation at 2.
  destruct (findRunnerSet (alloc_Name alloc) L) as [rs|]; [|apply IH; assumption].
  cbv zeta.
  destruct (_ =? _); [apply IH; [exact Hdry|]; apply Forall_app; split;
                      [exact Hlog | constructor; [reflexivity | constructor]]|].
  rewrite Hdry. apply IH; [exact Hdry|]. apply Forall_app. split;
    [exact Hlog | constructor; [reflexivity | constructor]].
Qed.

Lemma ReconcileOnce_dry_no_patch cfg c :
  DryRun cfg = true -> patchCalls (snd (ReconcileOnce cfg c)) = 0%nat.
Proof.
  intros Hdry. apply patchCalls_none.
  pose proof (ReconcileOnce_fold cfg c) as Hfold.
  pose proof (applyAllocations_dry cfg (tickListing cfg c) (tickAllocations cfg c) c []
                Hdry (List.Forall_nil _)) as H.
  rewrite <- Hfold in H. exact H.
Qed.

Lemma ReconcileOnce_same_capacity cfg c cpuBuf memBuf :
  Calculate cpuBuf memBuf (snd (fst (ReconcileOnce cfg c))) = Calculate cpuBuf memBuf c.
Proof.
  pose proof (ReconcileOnce_fold cfg c) as Hfold.
  pose proof (applyAllocations_frame cfg (tickListing cfg c) (tickAllocations cfg c) c [])
    as Hframe.
  rewrite <- Hfold in Hframe. cbn [fst] in Hframe. cbv zeta in Hframe.
  destruct Hframe as (H1 & H2 & H3 & _).
  unfold Calculate, getClusterCapacity, getCurrentUsage. rewrite H1, H2, H3.
  reflexivity.
Qed.

(** The second of two ticks sends no patch when the listed sets have
    distinct names, the patches of the first were accepted and no set
    served before the last was cut by its maxRunners while running more
    than it. *)
Lemma ReconcileOnce_second_run_settled cfg c :
  List.NoDup (map ars_Name (tickListing cfg c)) ->
  forallb patchAccepted (snd (ReconcileOnce cfg c)) = true ->
  forallb notCutWhileOver (removelast (snd (ReconcileOnce cfg c))) = true ->
  patchCalls (snd (ReconcileOnce cfg (snd (fst (ReconcileOnce cfg c))))) = 0%nat.
Proof.
  intros Hnodup Hacc Hcut.
  destruct (DryRun cfg) eqn:Hlive; [apply ReconcileOnce_dry_no_patch; exact Hlive|].
  pose proof (ReconcileOnce_settles cfg c Hlive Hnodup Hacc) as Hset.
  pose proof (ReconcileOnce_log cfg c) as Hlog1.
  pose proof (ReconcileOnce_log cfg (snd (fst (ReconcileOnce cfg c)))) as Hlog2.
  set (c1 := snd (fst (ReconcileOnce cfg c))) in *.
  set (log1 := snd (ReconcileOnce cfg c)) in *.
  set (log2 := snd (ReconcileOnce cfg c1)) in *.
  set (L := tickListing cfg c) in *.
  set (L1 := tickListing cfg c1) in *.
  apply patchCalls_none.
  unfold tickAllocations in Hlog1, Hlog2. fold L in Hlog1. fold L1 in Hlog2.
  unfold c1 in Hlog2 at 1. rewrite ReconcileOnce_same_capacity in Hlog2.
  destruct (Calculate (CPUBufferPercent cfg) (MemoryBufferPercent cfg) c)
    as [capacity|e]; [|inversion Hlog2; constructor].
  unfold Allocate in Hlog1, Hlog2.
  pose proof (sortRunnerSets_recapped log1 _ _ (extractEnabled_settled log1 L L1 Hset))
    as Hrec.
  assert (Hfloors : Forall2 floorsTo log1
            (allocateLoop (sortRunnerSets (extractEnabled L1))
               (AvailableCPUMillis capacity) (AvailableMemoryBytes capacity))).
  { apply (allocateLoop_second_run L log1 _ _ Hnodup Hrec); auto.
    intros r Hr. eapply Permutation_in; [symmetry; apply sortSlice_perm | exact Hr]. }
  apply (Forall2_chain _ _ _ _ _ _ Hfloors Hlog2).
  intros d1 a1 d2 Hd1 (Ha1name & Ha1max) (rs1 & Hfind1 & _ & _ & _ & Hold2 & Hnew2 & _ & Hact).
  destruct (Forall2_In_r _ _ _ _ Hlog1 Hd1) as (a & _ & rs & Hfind & Hname & _ & Hrun & _).
  rewrite <- Hname in Hfind.
  destruct (findRunnerSet_settled log1 L L1 _ rs Hset Hfind)
    as (rs1' & Hfind1' & (_ & _ & _ & _ & Hrun1) & Hfinal & _).
  rewrite Ha1name, Hfind1' in Hfind1. inversion Hfind1; subst rs1'.
  destruct (findRunnerSet_In _ _ _ Hfind) as [_ Hrsname].
  unfold isPatchCall. rewrite Hact; [reflexivity|].
  rewrite Hold2, Hnew2, Hrun1, <- Hrun, Ha1max.
  apply Hfinal; [exact Hd1 | symmetry; exact Hrsname].
Qed.

(** C8, as the code has it: a decision whose final value equals the set's
    current maxRunners sends no patch.  The second of two ticks on a
    cluster that is otherwise unchanged sends no patch when the listing
    holds a single runner set whose patch is accepted; and, on any
    listing of sets with distinct names, when the patches of the first
    tick were accepted and no set served before the last was, in the
    first tick, running more runners than its positive maxRunners and
    allocated all of that maxRunners. *)
Theorem ReconcileOnce_second_run_idempotent :
  (forall cfg c d,
     In d (snd (ReconcileOnce cfg c)) -> old_max d = new_max d ->
     isPatchCall d = false) /\
  (forall cfg c rs,
     listRunnerSets cfg c = Ok [rs] ->
     fails c (PatchRunnerSet (ars_Namespace rs) (ars_Name rs)) = false ->
     patchCalls (snd (ReconcileOnce cfg (snd (fst (ReconcileOnce cfg c))))) = 0%nat) /\
  (forall cfg c,
     List.NoDup (map ars_Name (tickListing cfg c)) ->
     forallb patchAccepted (snd (ReconcileOnce cfg c)) = true ->
     forallb notCutWhileOver (removelast (snd (ReconcileOnce cfg c))) = true ->
     patchCalls (snd (ReconcileOnce cfg (snd (fst (ReconcileOnce cfg c))))) = 0%nat).
Proof.
  split; [|split].
  - exact ReconcileOnce_unchanged_no_patch.
  - exact ReconcileOnce_second_run_single.
  - exact ReconcileOnce_second_run_settled.
Qed.

Lemma ReconcileOnce_second_run_idempotent_witness :
  patchCalls (snd (ReconcileOnce DefaultConfig
                     (snd (fst (ReconcileOnce DefaultConfig threeSets))))) = 0%nat.
Proof.
  apply (proj2 (proj2 ReconcileOnce_second_run_idempotent) DefaultConfig threeSets).
  - repeat constructor; cbn; intuition discriminate.
  - reflexivity.
  - reflexivity.
Defined.
